(** * KR Apple Store stock monitor: model and verified properties

    A shallow embedding of [kr_iphone17pm_silver512_monitor.py].  Python
    values produced by [json] are an inductive type, exceptions are data,
    and code with side effects (console, HTTP, the CSV file, the
    [last_flags] dict, the stop flag) runs in a state-and-exception monad
    over an explicit [world].  What the environment decides (the HTTP
    replies, the clock, the random draw, signal delivery, what the
    platform does with a sleep of more than a million seconds) is an
    argument of the model.

    Floats are the rationals that binary64 represents, and float
    arithmetic rounds to the nearest of them, ties to even.

    Left out of the model: the text of [repr] for floats and containers
    (a parameter), non-finite floats in JSON, the byte-level CSV encoding,
    failures of [print] and of file writes, [str.strip] and [int] of the
    settings (both go by Unicode tables), and signals arriving outside the
    sleep (the handler only sets the flag, which is read at the top of the
    loop, so only the place of its console line would differ). *)

From Stdlib Require Import ZArith QArith Qround Qcanon Lqa String Ascii List Lia.
From stdpp Require Import base option list gmap strings pretty fin_maps.
Import ListNotations.

Set Warnings "-register-all".

Local Open Scope string_scope.
Local Open Scope list_scope.
Local Open Scope stdpp_scope.

(** ** Python values, as [json] produces them *)

Module Py.

(** A [dict] is kept as its list of bindings; lookup returns the first
    binding of a key.  JSON object keys are always strings. *)
Inductive pyval : Type :=
| PNone
| PBool (b : bool)
| PInt (z : Z)
| PFloat (q : Q)
| PStr (s : string)
| PList (xs : list pyval)
| PDict (kvs : list (string * pyval)).

(** [bool(v)] *)
Definition truthy (v : pyval) : bool :=
  match v with
  | PNone => false
  | PBool b => b
  | PInt z => negb (z =? 0)%Z
  | PFloat q => negb (Qeq_bool q 0)
  | PStr s => negb (String.eqb s EmptyString)
  | PList xs => match xs with [] => false | _ :: _ => true end
  | PDict kvs => match kvs with [] => false | _ :: _ => true end
  end.

(** [a or b] *)
Definition py_or (a b : pyval) : pyval := if truthy a then a else b.

(** [type(v).__name__] *)
Definition type_name (v : pyval) : string :=
  match v with
  | PNone => "NoneType"
  | PBool _ => "bool"
  | PInt _ => "int"
  | PFloat _ => "float"
  | PStr _ => "str"
  | PList _ => "list"
  | PDict _ => "dict"
  end.

(** [v == s] for a string literal [s]: only an equal [str] compares equal. *)
Definition eq_str (v : pyval) (s : string) : bool :=
  match v with
  | PStr t => String.eqb t s
  | _ => false
  end.

Fixpoint dict_lookup (kvs : list (string * pyval)) (k : string) : option pyval :=
  match kvs with
  | [] => None
  | (k', v) :: rest => if String.eqb k' k then Some v else dict_lookup rest k
  end.

(** *** Exceptions *)

(** The exception classes this program can meet: the builtins raised by
    the interpreter, [json.JSONDecodeError], and the [requests] hierarchy. *)
Inductive exn_class : Type :=
| Exception
| TypeError
| AttributeError
| ValueError
| ArithmeticError
| OverflowError
| OSError
| JSONDecodeError
| RequestException
| HTTPError
| ConnectionError
| Timeout
| InvalidJSONError
| RequestsJSONDecodeError.

Definition exn_class_eqb (c d : exn_class) : bool :=
  match c, d with
  | Exception, Exception | TypeError, TypeError
  | AttributeError, AttributeError | ValueError, ValueError
  | ArithmeticError, ArithmeticError | OverflowError, OverflowError
  | OSError, OSError | JSONDecodeError, JSONDecodeError
  | RequestException, RequestException | HTTPError, HTTPError
  | ConnectionError, ConnectionError | Timeout, Timeout
  | InvalidJSONError, InvalidJSONError
  | RequestsJSONDecodeError, RequestsJSONDecodeError => true
  | _, _ => false
  end.

(** Direct base classes ([__bases__]).  [requests.JSONDecodeError]
    inherits from both [InvalidJSONError] and [json.JSONDecodeError]. *)
Definition bases (c : exn_class) : list exn_class :=
  match c with
  | Exception => []
  | TypeError | AttributeError | ValueError | ArithmeticError | OSError => [Exception]
  | OverflowError => [ArithmeticError]
  | JSONDecodeError => [ValueError]
  | RequestException => [OSError]
  | HTTPError | ConnectionError | Timeout | InvalidJSONError => [RequestException]
  | RequestsJSONDecodeError => [InvalidJSONError; JSONDecodeError]
  end.

Fixpoint subclass_upto (depth : nat) (c d : exn_class) : bool :=
  exn_class_eqb c d ||
  match depth with
  | O => false
  | S n => existsb (fun b => subclass_upto n b d) (bases c)
  end.

(** [issubclass(c, d)]; the hierarchy above is four levels deep. *)
Definition issubclass (c d : exn_class) : bool := subclass_upto 4 c d.

Record exn : Type := mkExn { exn_cls : exn_class; exn_msg : string }.

(** [isinstance(e, d)] *)
Definition isinstance (e : exn) (d : exn_class) : bool := issubclass (exn_cls e) d.

(** The result of evaluating an expression or running a statement:
    a value, or a raised exception. *)
Inductive outcome (A : Type) : Type :=
| Ret (a : A)
| Raise (e : exn).
Arguments Ret {A} a.
Arguments Raise {A} e.

#[export] Instance outcome_ret : MRet outcome := fun _ a => Ret a.
#[export] Instance outcome_bind : MBind outcome := fun _ _ f m =>
  match m with
  | Ret a => f a
  | Raise e => Raise e
  end.

Definition no_attribute (v : pyval) (attr : string) : exn :=
  mkExn AttributeError ("'" +:+ type_name v +:+ "' object has no attribute '" +:+ attr +:+ "'").

(** [v.get(k)] and [v.get(k, dflt)]: only a [dict] has the method. *)
Definition py_get (v : pyval) (k : string) (dflt : pyval) : outcome pyval :=
  match v with
  | PDict kvs => Ret (default dflt (dict_lookup kvs k))
  | _ => Raise (no_attribute v "get")
  end.

(** [for x in v]: the elements the loop visits.  A dict yields its keys
    and a string its characters (here: bytes), all of them [str]. *)
Definition py_iter (v : pyval) : outcome (list pyval) :=
  match v with
  | PList xs => Ret xs
  | PDict kvs => Ret (map (fun kv => PStr (fst kv)) kvs)
  | PStr s => Ret (map (fun c => PStr (String c EmptyString)) (list_ascii_of_string s))
  | _ => Raise (mkExn TypeError ("'" +:+ type_name v +:+ "' object is not iterable"))
  end.

(** *** Dictionary keys

    A dict key is a hashable value up to Python equality:
    [True == 1 == 1.0] are one key, so numbers are kept by value. *)
Inductive key : Type :=
| KNone
| KNum (q : Qc)
| KStr (s : string).

#[export] Instance key_eq_dec : EqDecision key.
Proof. solve_decision. Defined.

Definition key_to_sum (k : key) : unit + (Qc + string) :=
  match k with
  | KNone => inl tt
  | KNum q => inr (inl q)
  | KStr s => inr (inr s)
  end.

Definition key_of_sum (x : unit + (Qc + string)) : key :=
  match x with
  | inl _ => KNone
  | inr (inl q) => KNum q
  | inr (inr s) => KStr s
  end.

#[export] Instance key_countable : Countable key.
Proof.
  apply (inj_countable' key_to_sum key_of_sum).
  intros []; reflexivity.
Defined.

(** [hash(v)]: lists and dicts are unhashable. *)
Definition hash_key (v : pyval) : outcome key :=
  match v with
  | PNone => Ret KNone
  | PBool b => Ret (KNum (Q2Qc (inject_Z (if b then 1 else 0))))
  | PInt z => Ret (KNum (Q2Qc (inject_Z z)))
  | PFloat q => Ret (KNum (Q2Qc q))
  | PStr s => Ret (KStr s)
  | PList _ | PDict _ =>
      Raise (mkExn TypeError ("unhashable type: '" +:+ type_name v +:+ "'"))
  end.

End Py.
Export Py.

(** ** Floats *)

Module Float.

(** A Python [float] other than NaN: a rational that binary64 represents,
    or an infinity. *)
Inductive pyfloat : Type :=
| Finite (q : Q)
| Infinite (negative : bool).

(** [2 ** e] *)
Definition pow2 (e : Z) : Q :=
  if (0 <=? e)%Z then inject_Z (2 ^ e) else (/ inject_Z (2 ^ (- e)))%Q.

(** The exponent of a positive rational: [2 ** ilog2 q <= q < 2 ** (ilog2 q + 1)]. *)
Definition ilog2 (q : Q) : Z :=
  let e := (Z.log2 (Qnum q) - Z.log2 (Zpos (Qden q)))%Z in
  if Qle_bool (pow2 e) q then e else (e - 1)%Z.

(** The integer nearest to [q], the even one of two that are equally near. *)
Definition round_half_even (q : Q) : Z :=
  let n := Qnum q in
  let d := Zpos (Qden q) in
  let f := (n / d)%Z in
  match (2 * (n mod d) ?= d)%Z with
  | Lt => f
  | Gt => (f + 1)%Z
  | Eq => if Z.even f then f else (f + 1)%Z
  end.

(** Rounding of a positive rational to binary64: 53 significant bits,
    exponents from -1022 (below it the spacing stays [2 ** -1074]), and
    infinity from [2 ** 1024] on. *)
Definition round64_pos (m : Q) : pyfloat :=
  let c := (Z.max (ilog2 m) (-1022) - 52)%Z in
  let v := (inject_Z (round_half_even (m / pow2 c)) * pow2 c)%Q in
  if Qle_bool (pow2 1024) v then Infinite false else Finite (Qred v).

(** The float nearest to [q], as every float operation rounds its exact result. *)
Definition round64 (q : Q) : pyfloat :=
  if Qeq_bool q 0 then Finite 0
  else if Qle_bool 0 q then round64_pos q
  else match round64_pos (- q) with
       | Finite v => Finite (Qred (- v))
       | Infinite _ => Infinite true
       end.

(** [float(z)] of an [int], as mixed arithmetic converts it. *)
Definition int_to_float (z : Z) : outcome Q :=
  match round64 (inject_Z z) with
  | Finite v => Ret v
  | Infinite _ => Raise (mkExn OverflowError "int too large to convert to float")
  end.

(** [x * y] of two floats *)
Definition fmul (x y : Q) : pyfloat := round64 (x * y).

(** [x + y] of two floats, [x] finite *)
Definition fadd (x : Q) (y : pyfloat) : pyfloat :=
  match y with
  | Finite v => round64 (x + v)
  | Infinite s => Infinite s
  end.

(** Rounding of a float to an integer away from zero. *)
Definition round_away (q : Q) : Z := if Qle_bool 0 q then Qceiling q else Qfloor q.

End Float.
Export Float.

(** ** Configuration, the outside world and the effect monad *)

Module Monitor.

(** The module-level constants, after [os.getenv] and [strip]/[rstrip]. *)
Record config : Type := mkConfig {
  SKU : string;
  SEED_STORE : string;
  POLL_INTERVAL_MIN : Z;
  POLL_INTERVAL_MAX : Z;
  BARK_DEVICE_KEY : string;
  BARK_SERVER_BASE : string;
  BARK_PUSH_ENDPOINT : string;
  BARK_GROUP : string;
  BARK_SOUND : string;
  LOG_CSV_PATH : string
}.

(** The values the constants take when no environment variable is set. *)
Definition default_config : config := {|
  SKU := "MFYQ4KH/A";
  SEED_STORE := "R764";
  POLL_INTERVAL_MIN := 10;
  POLL_INTERVAL_MAX := 15;
  BARK_DEVICE_KEY := EmptyString;
  BARK_SERVER_BASE := "https://api.day.app";
  BARK_PUSH_ENDPOINT := EmptyString;
  BARK_GROUP := "Apple KR 17PM";
  BARK_SOUND := "minuet";
  LOG_CSV_PATH := "iphone17pm_silver_512_availability_log.csv"
|}.

(** A [requests.Response]: [json_body] is what [r.json()] does. *)
Record response : Type := mkResponse {
  status_code : Z;
  reason : string;
  resp_url : string;
  text : string;
  json_body : outcome pyval
}.

(** The JSON payload of a Bark push; [p_url] is the optional ["url"] key. *)
Record payload : Type := mkPayload {
  p_title : string;
  p_body : string;
  p_group : string;
  p_sound : string;
  p_url : option string
}.

Record post_request : Type := mkPost {
  post_endpoint : string;
  post_payload : payload
}.

(** One element of [res], the dict built at lines 156-163. *)
Record record : Type := mkRecord {
  storeNumber : pyval;
  storeName : pyval;
  city : pyval;
  pickupDisplay : pyval;
  quote : pyval
}.

(** One element of [avail_rows]: [{ts_utc, ts_kr, sku, **r}]. *)
Record log_row : Type := mkRow {
  row_ts_utc : string;
  row_ts_kr : string;
  row_sku : string;
  row_record : record
}.

(** A line of the CSV file: the header, or the cells of one row. *)
Inductive csv_line : Type :=
| CsvHeader (cols : list string)
| CsvRow (cells : list pyval).

(** Ghost record of one call of [bark_send] from the main loop, with the
    [sid] of the store it was made for. *)
Record push : Type := mkPush {
  push_for : pyval;
  sent_title : string;
  sent_body : string;
  sent_url : option string
}.

(** Everything the program reads and writes across calls. *)
Record world : Type := mkWorld {
  console : list string;              (* lines printed by [log], oldest first *)
  http_gets : list string;            (* URLs fetched with [session.get] *)
  http_posts : list post_request;     (* [requests.post] calls *)
  csv_file : option (list csv_line);  (* the file at [LOG_CSV_PATH]; [None]: absent *)
  last_flags : gmap key bool;         (* [last_flags] of [main] *)
  stop_flag : bool;                   (* [stop["flag"]] *)
  sleeps : list Q;                    (* durations passed to [time.sleep] *)
  pushes : list push                  (* ghost: [bark_send] calls of the main loop *)
}.

Definition initial_world (file : option (list csv_line)) : world :=
  mkWorld [] [] [] file ∅ false [] [].

(** What the environment decides during one loop iteration. *)
Record cycle_env : Type := mkEnv {
  now_utc : string;                   (* first [datetime.now], formatted *)
  now_kr : string;                    (* second [datetime.now], formatted *)
  get_reply : outcome response;       (* [session.get]: a response, or it raises *)
  post_reply : nat -> post_request -> outcome response;
                                      (* [requests.post], by number of earlier posts *)
  random_draw : Q;                    (* [random.random()]: a float in [0, 1) *)
  signal_during_sleep : bool;         (* SIGINT/SIGTERM delivered while sleeping *)
  long_sleep : outcome unit           (* what the platform does with a long sleep *)
}.

(** Statements: state passing, and an exception leaves the state as it was
    when it was raised. *)
Definition M (A : Type) : Type := world -> outcome A * world.

#[export] Instance M_ret : MRet M := fun _ a w => (Ret a, w).
#[export] Instance M_bind : MBind M := fun _ _ f m w =>
  match m w with
  | (Ret a, w') => f a w'
  | (Raise e, w') => (Raise e, w')
  end.

Definition raise {A : Type} (e : exn) : M A := fun w => (Raise e, w).

Definition lift {A : Type} (o : outcome A) : M A := fun w => (o, w).

Definition read {A : Type} (f : world -> A) : M A := fun w => (Ret (f w), w).

Definition modify (f : world -> world) : M unit := fun w => (Ret tt, f w).

(** [except C as e: h] clauses are tried in order. *)
Fixpoint find_clause {A : Type} (e : exn) (clauses : list (exn_class * (exn -> M A)))
  : option (M A) :=
  match clauses with
  | [] => None
  | (c, h) :: rest => if isinstance e c then Some (h e) else find_clause e rest
  end.

Definition try_except {A : Type} (body : M A) (clauses : list (exn_class * (exn -> M A)))
  : M A := fun w =>
  match body w with
  | (Ret a, w') => (Ret a, w')
  | (Raise e, w') =>
      match find_clause e clauses with
      | Some h => h w'
      | None => (Raise e, w')
      end
  end.

Definition add_console (line : string) (w : world) : world :=
  mkWorld (console w ++ [line]) (http_gets w) (http_posts w) (csv_file w)
          (last_flags w) (stop_flag w) (sleeps w) (pushes w).

Definition add_get (url : string) (w : world) : world :=
  mkWorld (console w) (http_gets w ++ [url]) (http_posts w) (csv_file w)
          (last_flags w) (stop_flag w) (sleeps w) (pushes w).

Definition add_post (p : post_request) (w : world) : world :=
  mkWorld (console w) (http_gets w) (http_posts w ++ [p]) (csv_file w)
          (last_flags w) (stop_flag w) (sleeps w) (pushes w).

Definition set_csv (f : option (list csv_line)) (w : world) : world :=
  mkWorld (console w) (http_gets w) (http_posts w) f
          (last_flags w) (stop_flag w) (sleeps w) (pushes w).

Definition set_flags (m : gmap key bool) (w : world) : world :=
  mkWorld (console w) (http_gets w) (http_posts w) (csv_file w)
          m (stop_flag w) (sleeps w) (pushes w).

Definition set_stop (b : bool) (w : world) : world :=
  mkWorld (console w) (http_gets w) (http_posts w) (csv_file w)
          (last_flags w) b (sleeps w) (pushes w).

Definition add_sleep (d : Q) (w : world) : world :=
  mkWorld (console w) (http_gets w) (http_posts w) (csv_file w)
          (last_flags w) (stop_flag w) (sleeps w ++ [d]) (pushes w).

Definition add_push (p : push) (w : world) : world :=
  mkWorld (console w) (http_gets w) (http_posts w) (csv_file w)
          (last_flags w) (stop_flag w) (sleeps w) (pushes w ++ [p]).

(** [log]: one [print] call, its arguments joined by a space. *)
Definition log (line : string) : M unit := modify (add_console line).

Definition log2 (a b : string) : M unit := log (a +:+ " " +:+ b).

Definition nonempty (s : string) : bool := negb (String.eqb s EmptyString).

(** A byte that continues a character of a UTF-8 string: [10xxxxxx]. *)
Definition is_continuation (c : ascii) : bool :=
  (128 <=? nat_of_ascii c)%nat && (nat_of_ascii c <? 192)%nat.

(** [s[:n]]: the first [n] characters.  A character is a byte that does
    not continue one, with the continuation bytes that follow it. *)
Fixpoint str_take (n : nat) (s : string) : string :=
  match s with
  | EmptyString => EmptyString
  | String c rest =>
      if is_continuation c then String c (str_take n rest)
      else match n with
           | O => EmptyString
           | S m => String c (str_take m rest)
           end
  end.

End Monitor.
Export Monitor.

(** ** Settings read from the environment (lines 72-74) *)

Module Settings.

(** [s.rstrip("/")] *)
Fixpoint rstrip_slash (s : string) : string :=
  match s with
  | EmptyString => EmptyString
  | String c rest =>
      match rstrip_slash rest with
      | EmptyString => if Ascii.eqb c "/" then EmptyString else String c EmptyString
      | String c' kept => String c (String c' kept)
      end
  end.

(** [os.getenv(name, dflt)]; [environ] is the environment of the process. *)
Definition getenv (environ : string -> option string) (name dflt : string) : string :=
  default dflt (environ name).

(** The configuration with the two Bark URLs as lines 73-74 compute them
    from the environment; the other constants are those of [cfg]. *)
Definition with_bark_urls (environ : string -> option string) (cfg : config) : config :=
  mkConfig (SKU cfg) (SEED_STORE cfg) (POLL_INTERVAL_MIN cfg) (POLL_INTERVAL_MAX cfg)
           (BARK_DEVICE_KEY cfg)
           (rstrip_slash (getenv environ "BARK_SERVER_BASE" "https://api.day.app"))
           (rstrip_slash (getenv environ "BARK_PUSH_ENDPOINT" EmptyString))
           (BARK_GROUP cfg) (BARK_SOUND cfg) (LOG_CSV_PATH cfg).

(** The configuration [cfg] with another device key. *)
Definition with_device_key (cfg : config) (device_key : string) : config :=
  mkConfig (SKU cfg) (SEED_STORE cfg) (POLL_INTERVAL_MIN cfg) (POLL_INTERVAL_MAX cfg)
           device_key (BARK_SERVER_BASE cfg) (BARK_PUSH_ENDPOINT cfg)
           (BARK_GROUP cfg) (BARK_SOUND cfg) (LOG_CSV_PATH cfg).

(** A string of [n] slashes. *)
Fixpoint slashes (n : nat) : string :=
  match n with
  | O => EmptyString
  | S m => String "/" (slashes m)
  end.

(** [s.endswith("/")] *)
Fixpoint ends_with_slash (s : string) : bool :=
  match s with
  | EmptyString => false
  | String c EmptyString => Ascii.eqb c "/"
  | String _ rest => ends_with_slash rest
  end.

End Settings.
Export Settings.

(** ** Sample data

    One store of the Korean market, the JSON Apple answers for it, and
    environments built from them; the concrete inputs of the examples at
    the end of the file. *)

Module Sample.

(** A configuration with a Bark device key; [default_config] has none. *)
Definition keyed_config : config :=
  mkConfig "MFYQ4KH/A" "R764" 10 15 "devicekey" "https://api.day.app" EmptyString
           "Apple KR 17PM" "minuet" "iphone17pm_silver_512_availability_log.csv".

(** A stand-in for [repr] of floats and containers. *)
Definition repr (v : pyval) : string := "<" +:+ type_name v +:+ ">".

Definition hongdae (display : string) : record :=
  mkRecord (PStr "R764") (PStr "Hongdae") (PStr "Seoul") (PStr display) (PStr "Today").

Definition hongdae_json (display : string) : pyval :=
  PDict [("storeNumber", PStr "R764");
         ("storeName", PStr "Hongdae");
         ("city", PStr "Seoul");
         ("partsAvailability",
          PDict [("MFYQ4KH/A",
                  PDict [("pickupDisplay", PStr display);
                         ("pickupSearchQuote", PStr "Today")])])].

(** A store entry without ["partsAvailability"]. *)
Definition garosugil_json : pyval :=
  PDict [("storeNumber", PStr "R692"); ("storeName", PStr "Garosugil"); ("city", PStr "Seoul")].

Definition garosugil : record :=
  mkRecord (PStr "R692") (PStr "Garosugil") (PStr "Seoul") PNone (PStr EmptyString).

Definition stores_json (stores : list pyval) : pyval :=
  PDict [("body", PDict [("stores", PList stores)])].

Definition ok_response (data : pyval) : response :=
  mkResponse 200 "OK" "https://www.apple.com/kr/shop/retail/pickup-message" "{}" (Ret data).

Definition unavailable_response : response :=
  mkResponse 503 "Service Unavailable" "https://www.apple.com/kr/shop/retail/pickup-message"
             "busy" (Raise (mkExn RequestsJSONDecodeError "Expecting value")).

Definition garbled_response : response :=
  mkResponse 200 "OK" "https://www.apple.com/kr/shop/retail/pickup-message"
             "<html>" (Raise (mkExn RequestsJSONDecodeError "Expecting value")).

Definition refused : exn := mkExn ConnectionError "Connection refused".

(** An environment: the answer to the GET and the answer to every POST. *)
Definition env_with (get post : outcome response) : cycle_env :=
  mkEnv "2025-09-19 01:00:00 UTC" "2025-09-19 10:00:00 KST" get (fun _ _ => post) (1 # 2) false
        (Ret tt).

(** Hongdae is the only store and reports [display]; pushes are refused. *)
Definition reports (display : string) : cycle_env :=
  env_with (Ret (ok_response (stores_json [hongdae_json display]))) (Raise refused).

(** As [reports], but the push service accepts every push. *)
Definition delivers (display : string) : cycle_env :=
  env_with (Ret (ok_response (stores_json [hongdae_json display])))
           (Ret (mkResponse 200 "OK" "https://api.day.app/devicekey" "ok"
                            (Ret (PDict [("code", PInt 200)])))).

(** The answer lists Garosugil only. *)
Definition reports_other : cycle_env :=
  env_with (Ret (ok_response (stores_json [garosugil_json]))) (Raise refused).

(** The GET is refused. *)
Definition unreachable : cycle_env := env_with (Raise refused) (Raise refused).

(** As [reports], with a termination signal arriving during the sleep. *)
Definition interrupted (display : string) : cycle_env :=
  mkEnv "2025-09-19 01:00:00 UTC" "2025-09-19 10:00:00 KST"
        (Ret (ok_response (stores_json [hongdae_json display])))
        (fun _ _ => Raise refused) (1 # 2) true (Ret tt).

(** No device key, but a full push endpoint. *)
Definition endpoint_config : config :=
  mkConfig "MFYQ4KH/A" "R764" 10 15 EmptyString "https://api.day.app"
           "https://push.example.org/abc" "Apple KR 17PM" "minuet"
           "iphone17pm_silver_512_availability_log.csv".

(** Poll bounds below zero. *)
Definition negative_config : config :=
  mkConfig "MFYQ4KH/A" "R764" (-5) (-1) "devicekey" "https://api.day.app" EmptyString
           "Apple KR 17PM" "minuet" "iphone17pm_silver_512_availability_log.csv".

(** The settings of [keyed_config] with other poll bounds. *)
Definition polling (lo hi : Z) : config :=
  mkConfig "MFYQ4KH/A" "R764" lo hi "devicekey" "https://api.day.app" EmptyString
           "Apple KR 17PM" "minuet" "iphone17pm_silver_512_availability_log.csv".

(** As [unreachable], on a platform that refuses long sleeps. *)
Definition refuses_long_sleeps : cycle_env :=
  mkEnv "2025-09-19 01:00:00 UTC" "2025-09-19 10:00:00 KST" (Raise refused)
        (fun _ _ => Raise refused) (1 # 2) false
        (Raise (mkExn OSError "[Errno 22] Invalid argument")).

(** A store entry whose ["storeNumber"] is a JSON array. *)
Definition odd_json : pyval :=
  PDict [("storeNumber", PList [PStr "R764"]);
         ("storeName", PStr "Hongdae");
         ("partsAvailability",
          PDict [("MFYQ4KH/A", PDict [("pickupDisplay", PStr "available")])])].

(** The world right after start-up: the log file holds its header. *)
Definition started : world :=
  mkWorld [] [] [] (Some [CsvHeader ["ts_utc"; "ts_kr"; "sku"; "storeName"; "storeNumber";
                                     "city"; "pickupDisplay"; "quote"]])
          ∅ false [] [].

(** A world in which Hongdae was last seen available. *)
Definition seen_available : world :=
  mkWorld [] [] [] (Some []) {[ KStr "R764" := true ]} false [] [].

(** A reply whose ["body"] is null. *)
Definition null_body_json : pyval := PDict [("body", PNone)].

(** The availability data of a store with both kinds of quote. *)
Definition quoted_availability : list (string * pyval) :=
  [("pickupDisplay", PStr "available");
   ("pickupSearchQuote", PStr "Today");
   ("messageTypes",
    PDict [("regular", PDict [("storePickupQuote", PStr "Pick up today at Hongdae")])])].

Definition quoted_fields : list (string * pyval) :=
  [("storeNumber", PStr "R764");
   ("storeName", PStr "Hongdae");
   ("partsAvailability", PDict [("MFYQ4KH/A", PDict quoted_availability)])].

(** The record parsed from [odd_json]. *)
Definition odd : record :=
  mkRecord (PList [PStr "R764"]) (PStr "Hongdae") PNone (PStr "available") (PStr EmptyString).

(** Hongdae, then the store with the odd number. *)
Definition reports_odd : cycle_env :=
  env_with (Ret (ok_response (stores_json [hongdae_json "available"; odd_json]))) (Raise refused).

(** A store entry without number and name, in [place]. *)
Definition nameless (place : string) : record :=
  mkRecord PNone PNone (PStr place) (PStr "available") (PStr EmptyString).

(** The answer of a Bark server that took the push. *)
Definition delivered : response :=
  mkResponse 200 "OK" "https://api.day.app/devicekey" "ok" (Ret (PDict [("code", PInt 200)])).

(** The environment variables of a process started with a base URL that
    ends in slashes, and no endpoint. *)
Definition environ (name : string) : option string :=
  if String.eqb name "BARK_SERVER_BASE" then Some "https://bark.example.org//" else None.

End Sample.

(** ** The program *)

Section Program.

Context (cfg : config).

(** [repr] of floats, lists and dicts, as f-strings render them.  No
    property below depends on that text, so it is left open. *)
Context (repr_value : pyval -> string).

(** [str(v)], what an f-string field [{v}] renders. *)
Definition py_str (v : pyval) : string :=
  match v with
  | PNone => "None"
  | PBool true => "True"
  | PBool false => "False"
  | PInt z => pretty z
  | PStr s => s
  | PFloat _ | PList _ | PDict _ => repr_value v
  end.

Definition newline : string := String (ascii_of_nat 10) EmptyString.

Definition APPLE_API_URL : string :=
  "https://www.apple.com/kr/shop/retail/pickup-message"
  +:+ "?pl=true&searchNearby=true&store=" +:+ SEED_STORE cfg +:+ "&parts.0=" +:+ SKU cfg.

(** *** Bark push helper (lines 99-132) *)

(** The [if]/[elif]/[else] of lines 110-117; [None] is the [else] branch. *)
Definition bark_endpoint : option string :=
  if nonempty (BARK_DEVICE_KEY cfg)
  then Some (BARK_SERVER_BASE cfg +:+ "/" +:+ BARK_DEVICE_KEY cfg)
  else if nonempty (BARK_PUSH_ENDPOINT cfg)
  then Some (BARK_PUSH_ENDPOINT cfg)
  else None.

Definition bark_payload (title body : string) (url : option string) : payload :=
  mkPayload title body (BARK_GROUP cfg) (BARK_SOUND cfg)
            (match url with
             | Some u => if nonempty u then Some u else None
             | None => None
             end).

(** [v == n] for an integer literal [n]: numbers and booleans compare by value. *)
Definition eq_int (v : pyval) (n : Z) : bool :=
  match v with
  | PBool b => ((if b then 1 else 0) =? n)%Z
  | PInt z => (z =? n)%Z
  | PFloat q => Qeq_bool q (inject_Z n)
  | _ => false
  end.

(** [code in (None, 0, 200)] *)
Definition code_ok (code : pyval) : bool :=
  match code with
  | PNone => true
  | _ => eq_int code 0 || eq_int code 200
  end.

Definition requests_post (env : cycle_env) (endpoint : string) (p : payload) : M response :=
  fun w =>
    let rq := mkPost endpoint p in
    (post_reply env (length (http_posts w)) rq, add_post rq w).

Definition INFO_NOT_CONFIGURED : string :=
  "[INFO] Bark not configured (set BARK_DEVICE_KEY or BARK_PUSH_ENDPOINT) — skipping push.".

Definition bark_send (env : cycle_env) (title body : string) (url : option string) : M unit :=
  let payload := bark_payload title body url in
  match bark_endpoint with
  | None => log INFO_NOT_CONFIGURED
  | Some endpoint =>
      try_except
        (r ← requests_post env endpoint payload;
         if negb (status_code r =? 200)%Z
         then log ("[WARN] Bark push failed HTTP " +:+ pretty (status_code r)
                   +:+ ": " +:+ str_take 200 (text r))
         else
           try_except
             (jr ← lift (json_body r);
              code ← lift (py_get jr "code" PNone);
              if negb (code_ok code)
              then log ("[WARN] Bark returned non-OK payload: " +:+ py_str jr)
              else mret tt)
             [(Exception, fun _ => mret tt)])
        [(Exception, fun e => log ("[WARN] Bark push exception: " +:+ exn_msg e))]
  end.

(** *** Apple API parsing (lines 138-164) *)

Definition session_get (env : cycle_env) (url : string) : M response :=
  fun w => (get_reply env, add_get url w).

(** [r.raise_for_status()]: [HTTPError] for a 4xx or 5xx status. *)
Definition raise_for_status (r : response) : M unit :=
  if ((400 <=? status_code r) && (status_code r <? 500))%Z
  then raise (mkExn HTTPError (pretty (status_code r) +:+ " Client Error: "
                               +:+ reason r +:+ " for url: " +:+ resp_url r))
  else if ((500 <=? status_code r) && (status_code r <? 600))%Z
  then raise (mkExn HTTPError (pretty (status_code r) +:+ " Server Error: "
                               +:+ reason r +:+ " for url: " +:+ resp_url r))
  else mret tt.

(** The body of the [for s in stores] loop, lines 155-163. *)
Definition parse_store (s : pyval) : outcome record :=
  pa_all ← py_get s "partsAvailability" PNone;
  pa_sku ← py_get (py_or pa_all (PDict [])) (SKU cfg) PNone;
  let pa := py_or pa_sku (PDict []) in
  store_number ← py_get s "storeNumber" PNone;
  store_name ← py_get s "storeName" PNone;
  store_city ← py_get s "city" PNone;
  pickup ← py_get pa "pickupDisplay" PNone;
  message_types ← py_get pa "messageTypes" PNone;
  regular ← py_get (py_or message_types (PDict [])) "regular" PNone;
  pickup_quote ← py_get (py_or regular (PDict [])) "storePickupQuote" PNone;
  the_quote ← (if truthy pickup_quote then mret pickup_quote
               else search_quote ← py_get pa "pickupSearchQuote" PNone;
                    mret (py_or search_quote (PStr EmptyString)));
  mret (mkRecord store_number store_name store_city pickup the_quote).

(** The loop itself: the first store that raises ends it. *)
Fixpoint parse_stores (stores : list pyval) : outcome (list record) :=
  match stores with
  | [] => mret []
  | s :: rest =>
      r ← parse_store s;
      out ← parse_stores rest;
      mret (r :: out)
  end.

(** Lines 152-164, from the decoded JSON to the list [out]. *)
Definition parse_response (data : pyval) : outcome (list record) :=
  body ← py_get data "body" (PDict []);
  stores ← py_get body "stores" (PList []);
  items ← py_iter (py_or stores (PList []));
  parse_stores items.

(** The line printed by line 143. *)
Definition debug_line (r : response) : string :=
  "[DEBUG] HTTP " +:+ pretty (status_code r) +:+ " ← " +:+ APPLE_API_URL.

(** The line printed by line 149: two arguments, joined by a space. *)
Definition json_error_line (r : response) : string :=
  "[ERROR] JSON parse failed. First 300 chars:" +:+ " " +:+ str_take 300 (text r).

Definition fetch_availability (env : cycle_env) : M (list record) :=
  r ← session_get env APPLE_API_URL;
  log (debug_line r);;
  raise_for_status r;;
  data ← try_except (lift (json_body r))
           [(JSONDecodeError, fun e => log (json_error_line r);; raise e)];
  lift (parse_response data).

(** *** Logging utilities (lines 175-189) *)

Definition LOG_COLUMNS : list string :=
  ["ts_utc"; "ts_kr"; "sku"; "storeName"; "storeNumber"; "city"; "pickupDisplay"; "quote"].

(** The cells of a row, in the column order the [DataFrame] is indexed with. *)
Definition row_cells (row : log_row) : list pyval :=
  [PStr (row_ts_utc row); PStr (row_ts_kr row); PStr (row_sku row);
   storeName (row_record row); storeNumber (row_record row); city (row_record row);
   pickupDisplay (row_record row); quote (row_record row)].

(** [os.path.exists(LOG_CSV_PATH)] *)
Definition path_exists : M bool :=
  read (fun w => match csv_file w with Some _ => true | None => false end).

(** [to_csv(path)] of an empty frame: the file is (re)written with the header only. *)
Definition write_header (cols : list string) : M unit :=
  modify (set_csv (Some [CsvHeader cols])).

(** [to_csv(path, mode="a", header=False)]: rows are added at the end; the
    file is created when absent. *)
Definition append_rows (rows : list log_row) : M unit :=
  modify (fun w => set_csv (Some (default [] (csv_file w) ++ map (fun row => CsvRow (row_cells row)) rows)) w).

Definition ensure_log : M unit :=
  present ← path_exists;
  if negb present then write_header LOG_COLUMNS else mret tt.

Definition append_log (rows : list log_row) : M unit :=
  match rows with
  | [] => mret tt
  | _ :: _ => append_rows rows
  end.

(** *** Main loop (lines 195-266) *)

(** [last_flags.get(sid)] *)
Definition flags_get (sid : pyval) : M (option bool) :=
  k ← lift (hash_key sid);
  read (fun w => last_flags w !! k).

(** [last_flags[sid] = b] *)
Definition flags_set (sid : pyval) (b : bool) : M unit :=
  k ← lift (hash_key sid);
  modify (fun w => set_flags (<[k := b]> (last_flags w)) w).

Definition is_available (r : record) : bool := eq_str (pickupDisplay r) "available".

Definition record_sid (r : record) : pyval := py_or (storeNumber r) (storeName r).

Definition push_title (r : record) : string :=
  "In stock: " +:+ py_str (storeName r) +:+ " - iPhone 17 Pro Max 512GB Silver".

Definition push_body (ts_kr : string) (r : record) : string :=
  ts_kr +:+ " pickup available (" +:+ py_str (city r) +:+ ")" +:+ newline +:+ py_str (quote r).

Definition PRODUCT_URL : string := "https://www.apple.com/kr/shop/buy-iphone/iphone-17-pro".

(** Line 251, with the ghost record of the call. *)
Definition notify (env : cycle_env) (sid : pyval) (title body : string) : M unit :=
  modify (add_push (mkPush sid title body (Some PRODUCT_URL)));;
  bark_send env title body (Some PRODUCT_URL).

(** The body of the [for r in res] loop, lines 239-252; [avail_rows] is
    the list built so far and the result is the list afterwards. *)
Definition process_record (env : cycle_env) (ts_utc ts_kr : string)
    (avail_rows : list log_row) (r : record) : M (list log_row) :=
  let avail := is_available r in
  let sid := record_sid r in
  rows ← (if avail then
            let rows := avail_rows ++ [mkRow ts_utc ts_kr (SKU cfg) r] in
            flag ← flags_get sid;
            (if negb (default false flag)
             then notify env sid (push_title r) (push_body ts_kr r)
             else mret tt);;
            mret rows
          else mret avail_rows);
  flags_set sid avail;;
  mret rows.

Fixpoint process_records (env : cycle_env) (ts_utc ts_kr : string)
    (avail_rows : list log_row) (res : list record) : M (list log_row) :=
  match res with
  | [] => mret avail_rows
  | r :: rest =>
      rows ← process_record env ts_utc ts_kr avail_rows r;
      process_records env ts_utc ts_kr rows rest
  end.

Definition brief (res : list record) : string :=
  String.concat " | " (map (fun r => py_str (storeName r) +:+ ":" +:+ py_str (pickupDisplay r)) res).

(** Lines 237-254: find available stores, push on a state change, log. *)
Definition detect_and_log (env : cycle_env) (ts_utc ts_kr : string) (res : list record) : M unit :=
  avail_rows ← process_records env ts_utc ts_kr [] res;
  append_log avail_rows.

(** The body of the [try], lines 219-254. *)
Definition cycle (env : cycle_env) : M unit :=
  let ts_utc := now_utc env in
  let ts_kr := now_kr env in
  res ← fetch_availability env;
  log ("[" +:+ ts_kr +:+ "] " +:+ brief res);;
  detect_and_log env ts_utc ts_kr res.

(** The [except] clauses of lines 256-261. *)
Definition loop_handlers : list (exn_class * (exn -> M unit)) :=
  [(HTTPError, fun he => log ("[WARN] HTTP error: " +:+ exn_msg he));
   (RequestException, fun re => log ("[WARN] Network exception: " +:+ exn_msg re));
   (Exception, fun e => log ("[WARN] Unknown exception: " +:+ exn_msg e))].

(** [random.uniform(a, b)] is [a + (b - a) * random()] with [a] and [b]
    of type [int]: each is converted to [float] where it meets one, and
    the product and the sum are rounded. *)
Definition uniform (a b : Z) (u : Q) : outcome pyfloat :=
  width ← int_to_float (b - a);
  start ← int_to_float a;
  mret (fadd start (fmul width u)).

Definition INTERRUPT_LINE : string := newline +:+ "[INFO] Interrupt received, exiting…".

(** [stop_signal], lines 211-213. *)
Definition stop_signal : M unit :=
  modify (set_stop true);;
  log INTERRUPT_LINE.

(** The exception [time.sleep] raises for a negative length. *)
Definition sleep_error : exn := mkExn ValueError "sleep length must be non-negative".

(** The exception [time.sleep] raises for a length whose nanoseconds do
    not fit the 64-bit timestamp. *)
Definition sleep_overflow : exn :=
  mkExn OverflowError "timestamp too large to convert to C _PyTime_t".

(** Every platform sleeps a length of up to this many seconds (11 days);
    how much longer a sleep may be is the platform's business. *)
Definition SHORT_SLEEP : Q := inject_Z (10 ^ 6).

(** What [time.sleep(x)] does before it sleeps: the length is turned into
    nanoseconds ([x * 1e9], rounded away from zero), which have to fit the
    timestamp and must not be negative.  The result is the length slept. *)
Definition sleep_seconds (env : cycle_env) (x : pyfloat) : outcome Q :=
  match x with
  | Infinite _ => Raise sleep_overflow
  | Finite d =>
      match fmul d (inject_Z (10 ^ 9)) with
      | Infinite _ => Raise sleep_overflow
      | Finite ns =>
          let t := round_away ns in
          if (t <? - 2 ^ 63)%Z then Raise sleep_overflow
          else if (t <? 0)%Z then Raise sleep_error
          else if (2 ^ 63 <? t)%Z then Raise sleep_overflow
          else if Qle_bool d SHORT_SLEEP then Ret d
          else long_sleep env;; Ret d
      end
  end.

(** [time.sleep(x)].  A signal that arrives while the program sleeps runs
    its handler. *)
Definition time_sleep (env : cycle_env) (x : pyfloat) : M unit :=
  d ← lift (sleep_seconds env x);
  modify (add_sleep d);;
  if signal_during_sleep env then stop_signal else mret tt.

(** The argument of [time.sleep] at line 264. *)
Definition sleep_argument (env : cycle_env) : outcome pyfloat :=
  uniform (POLL_INTERVAL_MIN cfg) (POLL_INTERVAL_MAX cfg) (random_draw env).

(** Line 264. *)
Definition sleep_statement (env : cycle_env) : M unit :=
  x ← lift (sleep_argument env);
  time_sleep env x.

(** One pass through the [while] body with [body] as the [try] block. *)
Definition iteration_of (env : cycle_env) (body : M unit) : M unit :=
  try_except body loop_handlers;;
  sleep_statement env.

Definition iteration (env : cycle_env) : M unit := iteration_of env (cycle env).

(** How a run over a finite stretch of environment ends. *)
Inductive status : Type :=
| Running              (* the loop is still going *)
| Exited               (* the [while] condition failed and [main] returned *)
| Crashed (e : exn).   (* an exception left [main] *)

(** The [while not stop["flag"]] loop and line 266 after it. *)
Fixpoint while_loop (envs : list cycle_env) (w : world) : status * world :=
  if stop_flag w
  then (Exited, add_console ("Exit. CSV log at: " +:+ LOG_CSV_PATH cfg) w)
  else
    match envs with
    | [] => (Running, w)
    | env :: rest =>
        match iteration env w with
        | (Ret _, w') => while_loop rest w'
        | (Raise e, w') => (Crashed e, w')
        end
    end.

(** Lines 196-205: the banner and [ensure_log]. *)
Definition startup : M unit :=
  log "=== KR iPhone 17 Pro Max 512GB Silver monitor (public) ===";;
  log2 "API:" APPLE_API_URL;;
  (if nonempty (BARK_DEVICE_KEY cfg)
   then log2 "Bark: using device key endpoint →" (BARK_SERVER_BASE cfg +:+ "/<hidden>")
   else if nonempty (BARK_PUSH_ENDPOINT cfg)
   then log2 "Bark: using explicit endpoint →" (BARK_PUSH_ENDPOINT cfg)
   else log "Bark: not configured (set env vars if you want push)");;
  log2 "Poll interval:" (pretty (POLL_INTERVAL_MIN cfg) +:+ "–"
                         +:+ pretty (POLL_INTERVAL_MAX cfg) +:+ " s");;
  ensure_log.

(** [main], started with the CSV file in state [file]. *)
Definition main (file : option (list csv_line)) (envs : list cycle_env) : status * world :=
  match startup (initial_world file) with
  | (Ret _, w) => while_loop envs w
  | (Raise e, w) => (Crashed e, w)
  end.

(** ** Observations used in the statements *)

(** The world an effectful statement leaves behind. *)
Definition run {A : Type} (m : M A) (w : world) : world := snd (m w).

Definition add_lines (lines : list string) (w : world) : world :=
  mkWorld (console w ++ lines) (http_gets w) (http_posts w) (csv_file w)
          (last_flags w) (stop_flag w) (sleeps w) (pushes w).

(** The dict key a record is filed under in [last_flags], when its [sid]
    is hashable. *)
Definition record_key (r : record) : option key :=
  match hash_key (record_sid r) with
  | Ret k => Some k
  | Raise _ => None
  end.

Definition push_is_for (k : key) (p : push) : bool :=
  match hash_key (push_for p) with
  | Ret k' => bool_decide (k' = k)
  | Raise _ => false
  end.

(** The notifications triggered so far for the store with key [k]. *)
Definition pushes_for (k : key) (w : world) : list push :=
  List.filter (push_is_for k) (pushes w).

(** The lines of the CSV file; an absent file has none. *)
Definition file_lines (w : world) : list csv_line := default [] (csv_file w).

(** A console line is a warning when it carries the [[WARN]] tag. *)
Definition is_warning (line : string) : bool := String.prefix "[WARN]" line.

Definition warnings (lines : list string) : list string := List.filter is_warning lines.

(** The three categories of the loop-level handler. *)
Inductive category : Type :=
| HttpError
| NetworkException
| UnknownException.

Definition category_label (c : category) : string :=
  match c with
  | HttpError => "HTTP error"
  | NetworkException => "Network exception"
  | UnknownException => "Unknown exception"
  end.

Definition warn_line (c : category) (e : exn) : string :=
  "[WARN] " +:+ category_label c +:+ ": " +:+ exn_msg e.

(** The first matching class among [HTTPError], [RequestException], [Exception]. *)
Definition categorize (e : exn) : category :=
  if isinstance e HTTPError then HttpError
  else if isinstance e RequestException then NetworkException
  else UnknownException.

(** What [bark_send] prints once its POST has been answered by [reply]. *)
Definition reply_lines (reply : outcome response) : list string :=
  match reply with
  | Raise e => ["[WARN] Bark push exception: " +:+ exn_msg e]
  | Ret r =>
      if negb (status_code r =? 200)%Z
      then ["[WARN] Bark push failed HTTP " +:+ pretty (status_code r)
            +:+ ": " +:+ str_take 200 (text r)]
      else
        match json_body r with
        | Raise _ => []
        | Ret jr =>
            match py_get jr "code" PNone with
            | Raise _ => []
            | Ret code =>
                if negb (code_ok code)
                then ["[WARN] Bark returned non-OK payload: " +:+ py_str jr]
                else []
            end
        end
  end.

(** The notification of line 251 for record [r]. *)
Definition push_of (ts_kr : string) (r : record) : push :=
  mkPush (record_sid r) (push_title r) (push_body ts_kr r) (Some PRODUCT_URL).

(** The CSV line written for an available record [r]. *)
Definition csv_row_of (ts_utc ts_kr : string) (r : record) : csv_line :=
  CsvRow (row_cells (mkRow ts_utc ts_kr (SKU cfg) r)).

(** [raise_for_status] lets the response through. *)
Definition status_ok (r : response) : bool :=
  negb ((400 <=? status_code r) && (status_code r <? 600))%Z.

(** The environment answers the GET of this cycle with a response that
    decodes and parses to the list [res]. *)
Definition fetches (env : cycle_env) (res : list record) : Prop :=
  exists resp data,
    get_reply env = Ret resp /\ status_ok resp = true /\
    json_body resp = Ret data /\ parse_response data = Ret res.

(** What [fetch_availability] leaves on the console and in the request log. *)
Definition fetched_world (resp : response) (w : world) : world :=
  add_console (debug_line resp) (add_get APPLE_API_URL w).

(** The rows [avail_rows] gains over the list [res]. *)
Definition available_rows (ts_utc ts_kr : string) (res : list record) : list log_row :=
  map (mkRow ts_utc ts_kr (SKU cfg)) (List.filter is_available res).

(** The POST requests one call of [bark_send] makes. *)
Definition posts_per_push : nat :=
  match bark_endpoint with
  | Some _ => 1
  | None => 0
  end.

(** The world in which the loop over [res] starts: the fetch and the
    status line have touched only the console and the GET log. *)
Definition detect_start (env : cycle_env) (resp : response) (res : list record) (w : world) : world :=
  add_console ("[" +:+ now_kr env +:+ "] " +:+ brief res) (fetched_world resp w).

(** What line 264 does up to the point where the process sleeps: the
    length it is going to sleep, or the exception it raises. *)
Definition sleep_request (env : cycle_env) : outcome Q :=
  x ← sleep_argument env;
  sleep_seconds env x.

(** The length slept at line 264; -1 stands for a call that raises, so
    a length that is not negative says that the sleep takes place. *)
Definition sleep_length (env : cycle_env) : Q :=
  match sleep_request env with
  | Ret d => d
  | Raise _ => (-1)%Q
  end.

(** The world after a sleep of length [d] that went through. *)
Definition slept_world (env : cycle_env) (d : Q) (w : world) : world :=
  if signal_during_sleep env
  then add_console INTERRUPT_LINE (set_stop true (add_sleep d w))
  else add_sleep d w.

(** The push did not go through: [requests.post] raised, the status is
    not 200, or the body decodes to a dict whose ["code"] is not OK. *)
Definition push_failed (reply : outcome response) : bool :=
  match reply with
  | Raise _ => true
  | Ret r =>
      negb (status_code r =? 200)%Z
      || match json_body r with
         | Ret jr =>
             match py_get jr "code" PNone with
             | Ret code => negb (code_ok code)
             | Raise _ => false
             end
         | Raise _ => false
         end
  end.

(** A value is missing from a dict: the key is absent, or bound to [None]. *)
Definition missing_or_null (o : option pyval) : Prop := o = None \/ o = Some PNone.

(** A store entry (a JSON object) without availability data for the
    target SKU: ["partsAvailability"] is missing or null, or it is an
    object in which the SKU is missing or null. *)
Definition lacks_sku_entry (s : pyval) : Prop :=
  exists fields,
    s = PDict fields /\
    (missing_or_null (dict_lookup fields "partsAvailability")
     \/ exists parts,
          dict_lookup fields "partsAvailability" = Some (PDict parts) /\
          missing_or_null (dict_lookup parts (SKU cfg))).

(** The record built for a store entry that has no availability data. *)
Definition blank_record (fields : list (string * pyval)) : record :=
  mkRecord (default PNone (dict_lookup fields "storeNumber"))
           (default PNone (dict_lookup fields "storeName"))
           (default PNone (dict_lookup fields "city"))
           PNone (PStr EmptyString).

(** Two worlds that differ at most in the console and the POST log. *)
Definition same_but_output (w w' : world) : Prop :=
  http_gets w = http_gets w' /\ csv_file w = csv_file w' /\ last_flags w = last_flags w'
  /\ stop_flag w = stop_flag w' /\ sleeps w = sleeps w' /\ pushes w = pushes w'.

(** Two environments that agree on all a cycle consults but the answers
    to the POSTs. *)
Definition same_but_posts (env env' : cycle_env) : Prop :=
  now_utc env = now_utc env' /\ now_kr env = now_kr env' /\ get_reply env = get_reply env'
  /\ random_draw env = random_draw env' /\ signal_during_sleep env = signal_during_sleep env'.

(** A POST that goes to the configured Bark endpoint, with the group and
    sound of the configuration and the product page as its link. *)
Definition well_addressed (p : post_request) : Prop :=
  bark_endpoint = Some (post_endpoint p)
  /\ p_group (post_payload p) = BARK_GROUP cfg
  /\ p_sound (post_payload p) = BARK_SOUND cfg
  /\ p_url (post_payload p) = Some PRODUCT_URL.

(** A line of the log file written for a hit: one cell per column, the
    SKU in the third and ["available"] in the seventh. *)
Definition hit_line (l : csv_line) : Prop :=
  exists cells,
    l = CsvRow cells /\ length cells = length LOG_COLUMNS
    /\ cells !! 2 = Some (PStr (SKU cfg))
    /\ cells !! 6 = Some (PStr "available").

(** The records of a fetched list that are filed under key [k]. *)
Definition reports_of (k : key) (res : list record) : list record :=
  List.filter (fun r => bool_decide (record_key r = Some k)) res.

(** The lines [main] prints before it enters the loop; [mode] is the line
    that tells how Bark is configured. *)
Definition banner (mode : string) : list string :=
  ["=== KR iPhone 17 Pro Max 512GB Silver monitor (public) ===";
   "API: " +:+ APPLE_API_URL;
   mode;
   "Poll interval: " +:+ pretty (POLL_INTERVAL_MIN cfg) +:+ "–"
     +:+ pretty (POLL_INTERVAL_MAX cfg) +:+ " s"].

(** The line [main] prints when it leaves the loop. *)
Definition EXIT_LINE : string := "Exit. CSV log at: " +:+ LOG_CSV_PATH cfg.

(** The line of the banner that tells how Bark is configured (lines 198-203). *)
Definition bark_mode_line : string :=
  if nonempty (BARK_DEVICE_KEY cfg)
  then "Bark: using device key endpoint → " +:+ BARK_SERVER_BASE cfg +:+ "/<hidden>"
  else if nonempty (BARK_PUSH_ENDPOINT cfg)
  then "Bark: using explicit endpoint → " +:+ BARK_PUSH_ENDPOINT cfg
  else "Bark: not configured (set env vars if you want push)".

(** Every key of [last_flags] in [w] is still a key in [w']. *)
Definition keeps_keys (w w' : world) : Prop :=
  forall k, is_Some (last_flags w !! k) -> is_Some (last_flags w' !! k).

(** [w'] comes from [w] by work of the detector alone: the notifications
    [ps] were triggered and the requests [posts] made for them, entries of
    [last_flags] were set, lines were printed; the GET log, the file, the
    sleeps and the stop flag are as before. *)
Definition notified (w w' : world) (ps : list push) (posts : list post_request) : Prop :=
  http_gets w' = http_gets w /\ csv_file w' = csv_file w
  /\ sleeps w' = sleeps w /\ stop_flag w' = stop_flag w
  /\ http_posts w' = http_posts w ++ posts /\ Forall well_addressed posts
  /\ pushes w' = pushes w ++ ps /\ length posts = posts_per_push * length ps
  /\ keeps_keys w w'.

(** The file after [append_log] has put the rows [hits] at its end: no
    rows, no write; otherwise the file exists afterwards. *)
Definition append_hits (file : option (list csv_line)) (hits : list csv_line)
  : option (list csv_line) :=
  match hits with
  | [] => file
  | _ :: _ => Some (default [] file ++ hits)
  end.

(** ** Basic facts *)

Arguments isinstance : simpl never.
Arguments APPLE_API_URL : simpl never.

(** Unfold the plumbing of the monad. *)
Ltac unfold_monad := unfold mbind, M_bind, lift, read, modify.

(** [x] is the world the run [w' := run m w] leaves, by the equation [E] of [m w]. *)
Ltac same_world x w' E :=
  assert (x = w') as -> by (unfold w', run; rewrite E; reflexivity).

(** [except Exception] catches every exception of the model. *)
Lemma isinstance_Exception (e : exn) : isinstance e Exception = true.
Proof. destruct e as [[] msg]; reflexivity. Qed.

Lemma add_lines_nil w : add_lines [] w = w.
Proof. destruct w; unfold add_lines; simpl. by rewrite app_nil_r. Qed.

Lemma bark_send_unconfigured env title body url w :
  bark_endpoint = None ->
  bark_send env title body url w = (Ret tt, add_console INFO_NOT_CONFIGURED w).
Proof. intros H. unfold bark_send. rewrite H. reflexivity. Qed.

Lemma bark_send_configured env title body url w endpoint :
  bark_endpoint = Some endpoint ->
  let rq := mkPost endpoint (bark_payload title body url) in
  bark_send env title body url w =
    (Ret tt, add_lines (reply_lines (post_reply env (length (http_posts w)) rq)) (add_post rq w)).
Proof.
  intros H rq. unfold bark_send. rewrite H.
  unfold try_except at 1. unfold mbind, M_bind, requests_post.
  fold rq. destruct (post_reply env _ rq) as [r|e]; simpl.
  - destruct (negb (status_code r =? 200)%Z); [reflexivity|].
    unfold try_except, lift. destruct (json_body r) as [jr|e]; simpl.
    + destruct (py_get jr "code" PNone) as [code|e]; simpl.
      * destruct (negb (code_ok code)); simpl; [reflexivity|].
        by rewrite add_lines_nil.
      * rewrite isinstance_Exception. unfold mret, M_ret. by rewrite add_lines_nil.
    + rewrite isinstance_Exception. unfold mret, M_ret. by rewrite add_lines_nil.
  - rewrite isinstance_Exception. reflexivity.
Qed.

(** [bark_send] never raises, and touches only the console and the list
    of POST requests. *)
Lemma bark_send_frame env title body url w :
  exists lines posts,
    bark_send env title body url w =
      (Ret tt, mkWorld (console w ++ lines) (http_gets w) (http_posts w ++ posts)
                       (csv_file w) (last_flags w) (stop_flag w) (sleeps w) (pushes w))
    /\ length lines <= 1
    /\ length posts = posts_per_push.
Proof.
  destruct bark_endpoint as [ep|] eqn:E.
  - rewrite (bark_send_configured _ _ _ _ _ _ E).
    eexists _, [_]. split; [reflexivity|]. split; [|unfold posts_per_push; by rewrite E].
    destruct (post_reply _ _ _) as [r|e]; simpl; [|lia].
    destruct (negb _); simpl; [lia|].
    destruct (json_body r); simpl; [|lia].
    destruct (py_get _ _ _); simpl; [|lia].
    destruct (negb _); simpl; lia.
  - rewrite (bark_send_unconfigured _ _ _ _ _ E).
    eexists [_], []. split; [|split; [simpl; lia|unfold posts_per_push; by rewrite E]].
    unfold add_console. by rewrite app_nil_r.
Qed.

(** A record whose [sid] is unhashable raises [TypeError] at the first
    access to [last_flags], before anything has been done for it. *)
Lemma process_record_unhashable env ts_utc ts_kr rows r w e :
  hash_key (record_sid r) = Raise e ->
  process_record env ts_utc ts_kr rows r w = (Raise e, w).
Proof.
  intros H. unfold process_record, flags_get, flags_set. unfold_monad.
  rewrite H. destruct (is_available r); reflexivity.
Qed.

(** One step of the loop for a record filed under key [k]. *)
Lemma process_record_keyed env ts_utc ts_kr rows r w k :
  hash_key (record_sid r) = Ret k ->
  exists w',
    process_record env ts_utc ts_kr rows r w =
      (Ret (rows ++ if is_available r then [mkRow ts_utc ts_kr (SKU cfg) r] else []), w')
    /\ last_flags w' = <[k := is_available r]> (last_flags w)
    /\ pushes w' = pushes w ++
         (if is_available r && negb (default false (last_flags w !! k))
          then [push_of ts_kr r] else [])
    /\ csv_file w' = csv_file w
    /\ stop_flag w' = stop_flag w
    /\ sleeps w' = sleeps w
    /\ http_gets w' = http_gets w
    /\ (exists posts, http_posts w' = http_posts w ++ posts /\
         length posts = posts_per_push * (length (pushes w') - length (pushes w)))
    /\ (exists lines, console w' = console w ++ lines).
Proof.
  intros H.
  pose proof (bark_send_frame env (push_title r) (push_body ts_kr r) (Some PRODUCT_URL)
                (add_push (push_of ts_kr r) w)) as (lines & posts & Hb & Hl & Hp).
  unfold process_record, flags_get, flags_set, notify. unfold_monad.
  rewrite H. destruct (is_available r); cbn -[bark_send].
  - destruct (last_flags w !! k) as [[|]|] eqn:F; cbn -[bark_send].
    + eexists; split; [reflexivity|]. cbn. rewrite !app_nil_r.
      repeat split; try done.
      * exists []. rewrite app_nil_r. split; [done|]. rewrite Nat.sub_diag. simpl. lia.
      * exists []. by rewrite app_nil_r.
    + fold (push_of ts_kr r). rewrite Hb. cbn.
      eexists; split; [reflexivity|]. cbn.
      repeat split; try done.
      * exists posts. split; [done|]. rewrite Hp, length_app. simpl. lia.
      * by exists lines.
    + fold (push_of ts_kr r). rewrite Hb. cbn.
      eexists; split; [reflexivity|]. cbn.
      repeat split; try done.
      * exists posts. split; [done|]. rewrite Hp, length_app. simpl. lia.
      * by exists lines.
  - rewrite app_nil_r. eexists; split; [reflexivity|]. cbn. rewrite !app_nil_r.
    repeat split; try done.
    * exists []. rewrite app_nil_r. split; [done|]. rewrite Nat.sub_diag. simpl. lia.
    * exists []. by rewrite app_nil_r.
Qed.

(** *** The loop over [res] *)

Lemma process_records_cons env ts_utc ts_kr rows r rest w :
  process_records env ts_utc ts_kr rows (r :: rest) w =
    match process_record env ts_utc ts_kr rows r w with
    | (Ret rows', w') => process_records env ts_utc ts_kr rows' rest w'
    | (Raise e, w') => (Raise e, w')
    end.
Proof. reflexivity. Qed.

Lemma process_records_app env ts_utc ts_kr rows pre post w :
  process_records env ts_utc ts_kr rows (pre ++ post) w =
    match process_records env ts_utc ts_kr rows pre w with
    | (Ret rows', w') => process_records env ts_utc ts_kr rows' post w'
    | (Raise e, w') => (Raise e, w')
    end.
Proof.
  revert rows w. induction pre as [|r pre IH]; intros rows w; [reflexivity|].
  rewrite <- app_comm_cons, !process_records_cons.
  destruct (process_record env ts_utc ts_kr rows r w) as [[rows'|e] w']; [apply IH|reflexivity].
Qed.

(** A property of the world kept by every step is kept by the loop,
    whether it runs to the end or is cut short by an exception. *)
Lemma process_records_invariant (P : world -> Prop) env ts_utc ts_kr res :
  (forall r rows w, r ∈ res -> P w -> P (run (process_record env ts_utc ts_kr rows r) w)) ->
  forall rows w, P w -> P (run (process_records env ts_utc ts_kr rows res) w).
Proof.
  induction res as [|r rest IH]; intros Hstep rows w Hw; [exact Hw|].
  unfold run. rewrite process_records_cons.
  pose proof (Hstep r rows w ltac:(left) Hw) as H1. unfold run in H1.
  destruct (process_record env ts_utc ts_kr rows r w) as [[rows'|e] w']; simpl in *.
  - apply IH; [|exact H1]. intros r' rows0 w0 Hin. apply Hstep. by right.
  - exact H1.
Qed.

(** *** Fetching *)

Lemma raise_for_status_ok resp w :
  status_ok resp = true -> raise_for_status resp w = (Ret tt, w).
Proof.
  unfold status_ok, raise_for_status. intros H.
  destruct (400 <=? status_code resp)%Z eqn:A, (status_code resp <? 500)%Z eqn:B,
           (500 <=? status_code resp)%Z eqn:C, (status_code resp <? 600)%Z eqn:D;
    simpl in *; try reflexivity; try discriminate; lia.
Qed.

Lemma raise_for_status_error resp w :
  status_ok resp = false ->
  exists msg, raise_for_status resp w = (Raise (mkExn HTTPError msg), w).
Proof.
  unfold status_ok, raise_for_status. intros H.
  destruct (400 <=? status_code resp)%Z eqn:A, (status_code resp <? 500)%Z eqn:B,
           (500 <=? status_code resp)%Z eqn:C, (status_code resp <? 600)%Z eqn:D;
    simpl in *; try discriminate; try (eexists; reflexivity); lia.
Qed.

Lemma fetch_returns env resp data res w :
  get_reply env = Ret resp -> status_ok resp = true ->
  json_body resp = Ret data -> parse_response data = Ret res ->
  fetch_availability env w = (Ret res, fetched_world resp w).
Proof.
  intros Hg Hs Hj Hp.
  unfold fetch_availability, session_get, mbind, M_bind, log, modify, try_except, lift.
  rewrite Hg. cbn -[raise_for_status APPLE_API_URL]. rewrite (raise_for_status_ok _ _ Hs).
  rewrite Hj, Hp. reflexivity.
Qed.

(** The environment determines the fetched list. *)
Lemma fetches_inv env resp data res :
  get_reply env = Ret resp -> json_body resp = Ret data ->
  fetches env res -> parse_response data = Ret res.
Proof.
  intros Hg Hj (resp' & data' & Hg' & _ & Hj' & Hp). congruence.
Qed.

Lemma cycle_fetches env res w :
  fetches env res ->
  exists resp,
    get_reply env = Ret resp /\
    cycle env w =
      detect_and_log env (now_utc env) (now_kr env) res (detect_start env resp res w).
Proof.
  intros (resp & data & Hg & Hs & Hj & Hp). exists resp. split; [done|].
  unfold cycle, mbind, M_bind. rewrite (fetch_returns _ _ _ _ _ Hg Hs Hj Hp). reflexivity.
Qed.

(** *** Cycles over records that all have a hashable [sid] *)

Lemma record_key_Some r k : record_key r = Some k <-> hash_key (record_sid r) = Ret k.
Proof.
  unfold record_key. destruct (hash_key (record_sid r)); split; congruence.
Qed.

Lemma is_available_spec r : is_available r = true <-> pickupDisplay r = PStr "available".
Proof.
  unfold is_available, eq_str. destruct (pickupDisplay r); try (split; congruence).
  rewrite String.eqb_eq. split; congruence.
Qed.

Lemma process_records_keyed env ts_utc ts_kr res :
  Forall (fun r => is_Some (record_key r)) res ->
  forall rows w,
  exists w',
    process_records env ts_utc ts_kr rows res w =
      (Ret (rows ++ available_rows ts_utc ts_kr res), w')
    /\ csv_file w' = csv_file w
    /\ stop_flag w' = stop_flag w
    /\ sleeps w' = sleeps w
    /\ http_gets w' = http_gets w
    /\ (exists ps, pushes w' = pushes w ++ ps)
    /\ (exists posts, http_posts w' = http_posts w ++ posts /\
         length posts = posts_per_push * (length (pushes w') - length (pushes w))).
Proof.
  induction 1 as [|r rest [k Hk] _ IH]; intros rows w.
  - exists w. unfold available_rows. simpl. rewrite app_nil_r.
    repeat split; try done.
    + exists []. by rewrite app_nil_r.
    + exists []. rewrite app_nil_r, Nat.sub_diag. split; [done|simpl; lia].
  - apply record_key_Some in Hk.
    destruct (process_record_keyed env ts_utc ts_kr rows r w k Hk)
      as (w1 & E1 & _ & Hp1 & Hc1 & Hs1 & Hsl1 & Hg1 & (posts & Hposts & Hlen) & _).
    destruct (IH (rows ++ (if is_available r then [mkRow ts_utc ts_kr (SKU cfg) r] else [])) w1)
      as (w2 & E2 & Hc2 & Hs2 & Hsl2 & Hg2 & (ps2 & Hps2) & (posts2 & Hposts2 & Hlen2)).
    exists w2. rewrite process_records_cons, E1, E2.
    split.
    { f_equal. f_equal. rewrite <- app_assoc. f_equal.
      unfold available_rows. simpl. by destruct (is_available r). }
    repeat split; try congruence.
    + rewrite Hps2, Hp1, <- app_assoc. by eexists.
    + exists (posts ++ posts2). rewrite Hposts2, Hposts, <- app_assoc. split; [done|].
      rewrite length_app, Hlen, Hlen2, Hps2, Hp1, !length_app. lia.
Qed.

Lemma append_log_lines rows w :
  exists w',
    append_log rows w = (Ret tt, w')
    /\ file_lines w' = file_lines w ++ map (fun row => CsvRow (row_cells row)) rows
    /\ last_flags w' = last_flags w /\ pushes w' = pushes w
    /\ stop_flag w' = stop_flag w /\ sleeps w' = sleeps w
    /\ http_gets w' = http_gets w /\ http_posts w' = http_posts w
    /\ console w' = console w.
Proof.
  destruct rows as [|row rows].
  - exists w. simpl. rewrite app_nil_r. repeat split; done.
  - eexists. split; [reflexivity|]. repeat split; done.
Qed.

Lemma csv_rows_of_available ts_utc ts_kr res :
  map (fun row => CsvRow (row_cells row)) (available_rows ts_utc ts_kr res) =
  map (csv_row_of ts_utc ts_kr) (List.filter is_available res).
Proof. unfold available_rows. by rewrite map_map. Qed.

Lemma cycle_keyed env res w :
  fetches env res ->
  Forall (fun r => is_Some (record_key r)) res ->
  exists resp w1 w',
    get_reply env = Ret resp
    /\ process_records env (now_utc env) (now_kr env) [] res (detect_start env resp res w) =
         (Ret (available_rows (now_utc env) (now_kr env) res), w1)
    /\ cycle env w = (Ret tt, w')
    /\ last_flags w' = last_flags w1
    /\ pushes w' = pushes w1
    /\ http_posts w' = http_posts w1
    /\ stop_flag w' = stop_flag w
    /\ file_lines w' = file_lines w ++
         map (csv_row_of (now_utc env) (now_kr env)) (List.filter is_available res).
Proof.
  intros Hf Hk. destruct (cycle_fetches env res w Hf) as (resp & Hg & Hc).
  destruct (process_records_keyed env (now_utc env) (now_kr env) res Hk []
              (detect_start env resp res w))
    as (w1 & E1 & Hcsv & Hstop & _).
  destruct (append_log_lines (available_rows (now_utc env) (now_kr env) res) w1)
    as (w' & E2 & Hl & Hfl & Hpu & Hst & _ & _ & Hpo & _).
  exists resp, w1, w'. split; [done|]. split; [exact E1|].
  split. { rewrite Hc. unfold detect_and_log, mbind, M_bind. fold (detect_start env resp res w).
           rewrite E1. exact E2. }
  split; [done|]. split; [done|]. split; [done|].
  split. { by rewrite Hst, Hstop. }
  rewrite Hl, csv_rows_of_available. unfold file_lines. by rewrite Hcsv.
Qed.

(** A cycle whose fetched list is the single record [r]. *)
Lemma cycle_single env r k w :
  fetches env [r] -> record_key r = Some k ->
  exists w',
    cycle env w = (Ret tt, w')
    /\ last_flags w' = <[k := is_available r]> (last_flags w)
    /\ pushes w' = pushes w ++
         (if is_available r && negb (default false (last_flags w !! k))
          then [push_of (now_kr env) r] else [])
    /\ file_lines w' = file_lines w ++
         (if is_available r then [csv_row_of (now_utc env) (now_kr env) r] else []).
Proof.
  intros Hf Hk.
  destruct (cycle_keyed env [r] w Hf) as (resp & w1 & w' & _ & E1 & Hc & Hfl & Hpu & _ & _ & Hl).
  { constructor; [by exists k|constructor]. }
  apply record_key_Some in Hk.
  destruct (process_record_keyed env (now_utc env) (now_kr env) [] r
              (detect_start env resp [r] w) k Hk) as (w1' & E & Hfl1 & Hpu1 & _).
  rewrite process_records_cons, E in E1. unfold process_records, mret, M_ret in E1.
  assert (w1' = w1) as -> by congruence.
  exists w'. split; [exact Hc|]. rewrite Hfl, Hpu, Hfl1, Hpu1.
  repeat split. rewrite Hl. simpl. by destruct (is_available r).
Qed.

(** *** One store's view of the loop *)

Lemma push_is_for_of ts_kr r k k' :
  record_key r = Some k' -> push_is_for k (push_of ts_kr r) = bool_decide (k' = k).
Proof.
  intros H. apply record_key_Some in H. unfold push_is_for, push_of. simpl. by rewrite H.
Qed.

Lemma pushes_for_app k w w' ps :
  pushes w' = pushes w ++ ps ->
  pushes_for k w' = pushes_for k w ++ List.filter (push_is_for k) ps.
Proof. intros H. unfold pushes_for. by rewrite H, List.filter_app. Qed.

(** What one step does to the entry and the notifications of key [k]. *)
Lemma process_record_view env ts_utc ts_kr rows r w k :
  let w' := run (process_record env ts_utc ts_kr rows r) w in
  match record_key r with
  | None => w' = w
  | Some k' =>
      if decide (k' = k)
      then last_flags w' !! k = Some (is_available r)
           /\ pushes_for k w' = pushes_for k w ++
                (if is_available r && negb (default false (last_flags w !! k))
                 then [push_of ts_kr r] else [])
      else last_flags w' !! k = last_flags w !! k
           /\ pushes_for k w' = pushes_for k w
  end.
Proof.
  intros w'. destruct (record_key r) as [k'|] eqn:Hk.
  - pose proof Hk as Hh. apply record_key_Some in Hh.
    destruct (process_record_keyed env ts_utc ts_kr rows r w k' Hh) as (x & E & Hfl & Hpu & _).
    assert (w' = x) as -> by (unfold w', run; by rewrite E).
    rewrite Hfl, (pushes_for_app k w x _ Hpu).
    destruct (decide (k' = k)) as [->|Hne].
    + rewrite lookup_insert_eq. split; [done|]. f_equal.
      destruct (_ && _); simpl; [|done].
      by rewrite (push_is_for_of _ _ _ _ Hk), bool_decide_eq_true_2.
    + rewrite lookup_insert_ne by done. split; [done|].
      destruct (_ && _); simpl; rewrite ?app_nil_r; [|done].
      by rewrite (push_is_for_of _ _ _ _ Hk), bool_decide_eq_false_2, app_nil_r.
  - unfold record_key in Hk. destruct (hash_key (record_sid r)) as [|e] eqn:Hh; [done|].
    unfold w', run. by rewrite (process_record_unhashable _ _ _ _ _ _ _ Hh).
Qed.

(** No record of the list is filed under [k]: the entry and the
    notifications of [k] stay as they are. *)
Lemma process_records_absent env ts_utc ts_kr res k :
  (forall r, r ∈ res -> record_key r <> Some k) ->
  forall rows w,
    let w' := run (process_records env ts_utc ts_kr rows res) w in
    last_flags w' !! k = last_flags w !! k /\ pushes_for k w' = pushes_for k w.
Proof.
  intros Habs rows w.
  apply (process_records_invariant
           (fun x => last_flags x !! k = last_flags w !! k /\ pushes_for k x = pushes_for k w));
    [|done].
  intros r rows0 x Hin [Hf Hp].
  pose proof (process_record_view env ts_utc ts_kr rows0 r x k) as Hv. simpl in Hv.
  specialize (Habs r Hin).
  destruct (record_key r) as [k'|]; [|by rewrite Hv].
  destruct (decide (k' = k)) as [->|Hne]; [done|].
  destruct Hv as [-> ->]. done.
Qed.

(** The flag of [k] is already [True] and every record filed under [k]
    is available: no notification for [k], and the flag stays [True]. *)
Lemma process_records_still_available env ts_utc ts_kr res k :
  (forall r, r ∈ res -> record_key r = Some k -> is_available r = true) ->
  forall rows w,
    last_flags w !! k = Some true ->
    let w' := run (process_records env ts_utc ts_kr rows res) w in
    last_flags w' !! k = Some true /\ pushes_for k w' = pushes_for k w.
Proof.
  intros Hav rows w Hw.
  apply (process_records_invariant
           (fun x => last_flags x !! k = Some true /\ pushes_for k x = pushes_for k w));
    [|done].
  intros r rows0 x Hin [Hf Hp].
  pose proof (process_record_view env ts_utc ts_kr rows0 r x k) as Hv. simpl in Hv.
  specialize (Hav r Hin).
  destruct (record_key r) as [k'|]; [|by rewrite Hv].
  destruct (decide (k' = k)) as [->|Hne].
  - destruct Hv as [-> ->]. rewrite (Hav eq_refl), Hf. simpl. by rewrite app_nil_r.
  - destruct Hv as [-> ->]. done.
Qed.

Lemma run_process_records_cons env ts_utc ts_kr rows r rest w k :
  record_key r = Some k ->
  exists rows',
    run (process_records env ts_utc ts_kr rows (r :: rest)) w =
    run (process_records env ts_utc ts_kr rows' rest)
        (run (process_record env ts_utc ts_kr rows r) w).
Proof.
  intros Hk. apply record_key_Some in Hk.
  destruct (process_record_keyed env ts_utc ts_kr rows r w k Hk) as (x & E & _).
  eexists. unfold run. rewrite process_records_cons, E. reflexivity.
Qed.

(** The flag of [k] is not [True], every record has a hashable [sid],
    some record is filed under [k] and all of those are available:
    exactly one notification for [k]. *)
Lemma process_records_newly_available env ts_utc ts_kr res k :
  Forall (fun r => is_Some (record_key r)) res ->
  (exists r, r ∈ res /\ record_key r = Some k) ->
  (forall r, r ∈ res -> record_key r = Some k -> is_available r = true) ->
  forall rows w,
    last_flags w !! k <> Some true ->
    let w' := run (process_records env ts_utc ts_kr rows res) w in
    last_flags w' !! k = Some true
    /\ exists r, r ∈ res /\ record_key r = Some k
                 /\ pushes_for k w' = pushes_for k w ++ [push_of ts_kr r].
Proof.
  induction 1 as [|r rest [k' Hk'] _ IH]; intros (r0 & Hin & Hr0) Hav rows w Hw.
  - by apply elem_of_nil in Hin.
  - destruct (run_process_records_cons env ts_utc ts_kr rows r rest w k' Hk') as (rows' & ->).
    pose proof (process_record_view env ts_utc ts_kr rows r w k) as Hv. simpl in Hv.
    rewrite Hk' in Hv.
    destruct (decide (k' = k)) as [->|Hne].
    + destruct Hv as [Hf Hp].
      rewrite (Hav r ltac:(left) Hk') in Hf, Hp.
      assert (negb (default false (last_flags w !! k)) = true) as Hn.
      { destruct (last_flags w !! k) as [[|]|]; simpl; congruence. }
      rewrite Hn in Hp. simpl in Hp.
      destruct (process_records_still_available env ts_utc ts_kr rest k
                  ltac:(intros; apply Hav; [by right|done]) rows' _ Hf) as [Hf' Hp'].
      split; [exact Hf'|]. exists r. split; [left|]. split; [done|]. by rewrite Hp', Hp.
    + destruct Hv as [Hf Hp].
      assert (r0 ∈ rest) as Hin'.
      { apply elem_of_cons in Hin as [->|]; [congruence|done]. }
      destruct (IH ltac:(by exists r0) ltac:(intros; apply Hav; [by right|done]) rows'
                  (run (process_record env ts_utc ts_kr rows r) w) ltac:(by rewrite Hf))
        as [Hf' (r1 & Hin1 & Hk1 & Hp1)].
      split; [exact Hf'|]. exists r1. split; [by right|]. split; [done|]. by rewrite Hp1, Hp.
Qed.

(** *** The [try] block, its handlers and the sleep *)

Lemma fetch_transport_failure env e w :
  get_reply env = Raise e ->
  fetch_availability env w = (Raise e, add_get APPLE_API_URL w).
Proof.
  intros H. unfold fetch_availability, session_get, mbind, M_bind. by rewrite H.
Qed.

Lemma fetch_status_error env resp w :
  get_reply env = Ret resp -> status_ok resp = false ->
  exists msg,
    fetch_availability env w = (Raise (mkExn HTTPError msg), fetched_world resp w).
Proof.
  intros Hg Hs.
  destruct (raise_for_status_error resp (fetched_world resp w) Hs) as (msg & E).
  exists msg. unfold fetch_availability, session_get, mbind, M_bind, log, modify.
  rewrite Hg. cbn -[raise_for_status APPLE_API_URL].
  fold (fetched_world resp w). by rewrite E.
Qed.

Lemma fetch_json_failure env resp e w :
  get_reply env = Ret resp -> status_ok resp = true -> json_body resp = Raise e ->
  fetch_availability env w =
    (Raise e, if isinstance e JSONDecodeError
              then add_console (json_error_line resp) (fetched_world resp w)
              else fetched_world resp w).
Proof.
  intros Hg Hs Hj.
  unfold fetch_availability, session_get, mbind, M_bind, log, modify, try_except, lift.
  rewrite Hg. cbn -[raise_for_status APPLE_API_URL].
  fold (fetched_world resp w). rewrite (raise_for_status_ok _ _ Hs), Hj.
  cbn. destruct (isinstance e JSONDecodeError); reflexivity.
Qed.

Lemma fetch_parse_failure env resp data e w :
  get_reply env = Ret resp -> status_ok resp = true ->
  json_body resp = Ret data -> parse_response data = Raise e ->
  fetch_availability env w = (Raise e, fetched_world resp w).
Proof.
  intros Hg Hs Hj Hp.
  unfold fetch_availability, session_get, mbind, M_bind, log, modify, try_except, lift.
  rewrite Hg. cbn -[raise_for_status APPLE_API_URL].
  fold (fetched_world resp w). rewrite (raise_for_status_ok _ _ Hs), Hj, Hp. reflexivity.
Qed.

(** Either the fetch returns the list the environment provides, or it
    raises having touched only the console and the GET log. *)
Lemma fetch_cases env w :
  (exists resp res,
      get_reply env = Ret resp /\ fetches env res /\
      fetch_availability env w = (Ret res, fetched_world resp w))
  \/ (exists e lines,
      fetch_availability env w = (Raise e, add_lines lines (add_get APPLE_API_URL w))).
Proof.
  destruct (get_reply env) as [resp|e] eqn:Hg.
  - destruct (status_ok resp) eqn:Hs.
    + destruct (json_body resp) as [data|e] eqn:Hj.
      * destruct (parse_response data) as [res|e] eqn:Hp.
        -- left. exists resp, res. split; [done|]. split; [by exists resp, data|].
           by apply (fetch_returns env resp data).
        -- right. exists e, [debug_line resp].
           by rewrite (fetch_parse_failure env resp data e w).
      * right. rewrite (fetch_json_failure env resp e w Hg Hs Hj).
        destruct (isinstance e JSONDecodeError).
        -- exists e, [debug_line resp; json_error_line resp]. f_equal.
           unfold add_lines, add_console, fetched_world, add_get. simpl.
           by rewrite <- app_assoc.
        -- by exists e, [debug_line resp].
    + right. destruct (fetch_status_error env resp w Hg Hs) as (msg & ->).
      by exists (mkExn HTTPError msg), [debug_line resp].
  - right. exists e, []. by rewrite add_lines_nil, (fetch_transport_failure env e w).
Qed.

(** The handlers of the main loop catch whatever the [try] block raises
    and print one line for it. *)
Lemma loop_handlers_catch (body : M unit) w e w1 :
  body w = (Raise e, w1) ->
  try_except body loop_handlers w = (Ret tt, add_console (warn_line (categorize e) e) w1).
Proof.
  intros H. unfold try_except, loop_handlers, find_clause, categorize. rewrite H.
  destruct (isinstance e HTTPError); [reflexivity|].
  destruct (isinstance e RequestException); [reflexivity|].
  rewrite isinstance_Exception. reflexivity.
Qed.

Lemma loop_handlers_pass (body : M unit) w w1 :
  body w = (Ret tt, w1) -> try_except body loop_handlers w = (Ret tt, w1).
Proof. intros H. unfold try_except. by rewrite H. Qed.

(** The category of each exception class. *)
Lemma categorize_table msg :
  categorize (mkExn HTTPError msg) = HttpError
  /\ categorize (mkExn ConnectionError msg) = NetworkException
  /\ categorize (mkExn Timeout msg) = NetworkException
  /\ categorize (mkExn RequestsJSONDecodeError msg) = NetworkException
  /\ categorize (mkExn RequestException msg) = NetworkException
  /\ categorize (mkExn JSONDecodeError msg) = UnknownException
  /\ categorize (mkExn TypeError msg) = UnknownException
  /\ categorize (mkExn AttributeError msg) = UnknownException
  /\ categorize (mkExn OSError msg) = UnknownException.
Proof. repeat split. Qed.

(** Line 264 sleeps the length it asks for, or raises without having
    touched anything. *)
Lemma sleep_statement_ok env d w :
  sleep_request env = Ret d -> sleep_statement env w = (Ret tt, slept_world env d w).
Proof.
  unfold sleep_request, sleep_statement, time_sleep, slept_world. intros H.
  unfold mbind, M_bind, lift, modify, stop_signal, log.
  destruct (sleep_argument env) as [x|e]; [|discriminate].
  cbn [mbind outcome_bind] in H. rewrite H.
  destruct (signal_during_sleep env); reflexivity.
Qed.

Lemma sleep_statement_raises env e w :
  sleep_request env = Raise e -> sleep_statement env w = (Raise e, w).
Proof.
  unfold sleep_request, sleep_statement, time_sleep. intros H.
  unfold mbind, M_bind, lift.
  destruct (sleep_argument env) as [x|e0]; cbn [mbind outcome_bind] in H.
  - by rewrite H.
  - by injection H as ->.
Qed.

(** A length that is not negative is the length of a sleep that takes place. *)
Lemma sleep_length_accepted env :
  Qle_bool 0 (sleep_length env) = true -> sleep_request env = Ret (sleep_length env).
Proof.
  unfold sleep_length. by destruct (sleep_request env).
Qed.

(** The [try] block always ends in one of two ways, and the handlers
    turn both into a normal return. *)
Lemma guarded_cases (body : M unit) w :
  (body w = (Ret tt, run body w)
   /\ try_except body loop_handlers w = (Ret tt, run body w))
  \/ (exists e, body w = (Raise e, run body w)
       /\ try_except body loop_handlers w =
            (Ret tt, add_console (warn_line (categorize e) e) (run body w))).
Proof.
  unfold run. destruct (body w) as [[[]|e] w1] eqn:E; simpl.
  - left. split; [done|]. by apply loop_handlers_pass.
  - right. exists e. split; [done|]. by apply loop_handlers_catch.
Qed.

Lemma iteration_of_eq env (body : M unit) w w2 :
  try_except body loop_handlers w = (Ret tt, w2) ->
  iteration_of env body w = sleep_statement env w2.
Proof. intros H. unfold iteration_of, mbind, M_bind. by rewrite H. Qed.

(** An iteration can only raise through line 264. *)
Lemma iteration_raises env w e w1 :
  iteration env w = (Raise e, w1) -> sleep_request env = Raise e.
Proof.
  unfold iteration. intros H.
  destruct (guarded_cases (cycle env) w) as [[_ E]|(e0 & _ & E)];
    rewrite (iteration_of_eq _ _ _ _ E) in H;
    (destruct (sleep_request env) as [d|e1] eqn:D;
     [rewrite (sleep_statement_ok _ _ _ D) in H; discriminate
     |rewrite (sleep_statement_raises _ _ _ D) in H; congruence]).
Qed.

Lemma process_records_stop_flag env ts_utc ts_kr res rows w :
  stop_flag (run (process_records env ts_utc ts_kr rows res) w) = stop_flag w.
Proof.
  apply (process_records_invariant (fun x => stop_flag x = stop_flag w)); [|done].
  intros r rows0 x _ Hx. unfold run.
  destruct (hash_key (record_sid r)) as [k|e] eqn:Hk.
  - destruct (process_record_keyed env ts_utc ts_kr rows0 r x k Hk) as (x' & E & _ & _ & _ & Hs & _).
    rewrite E. simpl. congruence.
  - by rewrite (process_record_unhashable _ _ _ _ _ _ _ Hk).
Qed.

(** [append_log] leaves the flags, the notifications and the stop flag alone. *)
Lemma detect_and_log_view env ts_utc ts_kr res w :
  let w1 := run (process_records env ts_utc ts_kr [] res) w in
  let w' := run (detect_and_log env ts_utc ts_kr res) w in
  last_flags w' = last_flags w1 /\ pushes w' = pushes w1 /\ stop_flag w' = stop_flag w.
Proof.
  intros w1 w'. rewrite <- (process_records_stop_flag env ts_utc ts_kr res [] w). fold w1.
  unfold w', w1, run, detect_and_log, mbind, M_bind.
  destruct (process_records env ts_utc ts_kr [] res w) as [[rows|e] x]; simpl; [|done].
  destruct (append_log_lines rows x) as (x' & E & _ & Hf & Hp & Hs & _). rewrite E. simpl. done.
Qed.

(** The flags and notifications a cycle leaves are those of the loop over
    the fetched list, or unchanged when the fetch raises. *)
Lemma cycle_view env w :
  let w' := run (cycle env) w in
  stop_flag w' = stop_flag w
  /\ ((exists resp res,
         fetches env res /\
         let w1 := run (process_records env (now_utc env) (now_kr env) [] res)
                       (detect_start env resp res w) in
         last_flags w' = last_flags w1 /\ pushes w' = pushes w1)
      \/ (last_flags w' = last_flags w /\ pushes w' = pushes w)).
Proof.
  intros w'. unfold w', run, cycle, mbind, M_bind.
  destruct (fetch_cases env w) as [(resp & res & Hg & Hf & ->)|(e & lines & ->)].
  - cbn -[detect_and_log brief].
    fold (detect_start env resp res w).
    pose proof (detect_and_log_view env (now_utc env) (now_kr env) res
                  (detect_start env resp res w)) as (Hfl & Hpu & Hst).
    unfold run in *. split; [by rewrite Hst|].
    left. exists resp, res. split; [done|]. by split.
  - simpl. split; [done|]. by right.
Qed.

Lemma iteration_view env w :
  let wc := run (cycle env) w in
  let w' := run (iteration env) w in
  last_flags w' = last_flags wc /\ pushes w' = pushes wc
  /\ (stop_flag w' = true -> stop_flag w = true \/ signal_during_sleep env = true).
Proof.
  intros wc w'. unfold w', run, iteration.
  pose proof (cycle_view env w) as [Hst _]. simpl in Hst. fold wc in Hst.
  destruct (guarded_cases (cycle env) w) as [[_ E]|(e0 & _ & E)];
    rewrite (iteration_of_eq _ _ _ _ E); fold wc;
    (destruct (sleep_request env) as [d|e1] eqn:D;
     [rewrite (sleep_statement_ok _ _ _ D); unfold slept_world;
      destruct (signal_during_sleep env); simpl; repeat split; auto; rewrite Hst; auto
     |rewrite (sleep_statement_raises _ _ _ D); simpl; repeat split; auto; rewrite Hst; auto]).
Qed.

(** ** The transition detector *)

(** C1: for every record [r] of the fetched list that the loop reaches,
    with [k] the key its identifier has in [last_flags] ([last_flags] is
    declared [dict[str, bool]]; any hashable identifier will do):
    [bark_send] is called for [r] exactly when its [pickupDisplay] equals
    ["available"] and the flag stored for [k] is not [True] (it is [False]
    or absent); and after the record the entry for [k] is the boolean
    [pickupDisplay == "available"], whatever it was before. *)
Theorem C1_push_iff_newly_available env ts_utc ts_kr pre r post w rows1 w1 k :
  process_records env ts_utc ts_kr [] pre w = (Ret rows1, w1) ->
  record_key r = Some k ->
  exists rows2 w2,
    process_record env ts_utc ts_kr rows1 r w1 = (Ret rows2, w2)
    /\ process_records env ts_utc ts_kr [] (pre ++ r :: post) w =
         process_records env ts_utc ts_kr rows2 post w2
    /\ (is_available r = true <-> pickupDisplay r = PStr "available")
    /\ (pushes w2 = pushes w1 ++ [push_of ts_kr r] <->
          pickupDisplay r = PStr "available" /\ last_flags w1 !! k <> Some true)
    /\ (pushes w2 = pushes w1 ++ [push_of ts_kr r] \/ pushes w2 = pushes w1)
    /\ last_flags w2 = <[k := is_available r]> (last_flags w1).
Proof.
  intros Hpre Hk. apply record_key_Some in Hk.
  destruct (process_record_keyed env ts_utc ts_kr rows1 r w1 k Hk)
    as (w2 & E & Hflags & Hpushes & _).
  eexists _, w2. split; [exact E|].
  split. { rewrite process_records_app, Hpre, process_records_cons, E. reflexivity. }
  split; [apply is_available_spec|].
  rewrite <- is_available_spec, Hpushes.
  assert (Hne : forall (l : list push) p, l <> l ++ [p]).
  { intros l p H. apply (f_equal length) in H. rewrite length_app in H. simpl in H. lia. }
  destruct (is_available r); simpl.
  - destruct (last_flags w1 !! k) as [[|]|]; simpl; rewrite ?app_nil_r.
    + split; [|split; [by right|done]].
      split; [intros H; by apply Hne in H|intros [_ H]; congruence].
    + split; [|split; [by left|done]]. split; [|done]. intros _. split; [done|congruence].
    + split; [|split; [by left|done]]. split; [|done]. intros _. split; [done|congruence].
  - rewrite app_nil_r. split; [|split; [by right|done]].
    split; [intros H; by apply Hne in H|intros [H _]; discriminate].
Qed.

(** C2: one location, key [k], is the only record of five consecutive
    cycles, reporting unavailable, available, available, unavailable,
    available, and the map starts empty.  All five cycles complete;
    [bark_send] is called for the location in cycles 2 and 5 and in no
    other; a row is appended in cycles 2, 3 and 5 and in no other. *)
Theorem C2_five_cycle_scenario e1 e2 e3 e4 e5 r1 r2 r3 r4 r5 k w0 :
  last_flags w0 = ∅ ->
  fetches e1 [r1] -> fetches e2 [r2] -> fetches e3 [r3] -> fetches e4 [r4] -> fetches e5 [r5] ->
  record_key r1 = Some k -> record_key r2 = Some k -> record_key r3 = Some k ->
  record_key r4 = Some k -> record_key r5 = Some k ->
  is_available r1 = false -> is_available r2 = true -> is_available r3 = true ->
  is_available r4 = false -> is_available r5 = true ->
  let w1 := run (cycle e1) w0 in
  let w2 := run (cycle e2) w1 in
  let w3 := run (cycle e3) w2 in
  let w4 := run (cycle e4) w3 in
  let w5 := run (cycle e5) w4 in
  (cycle e1 w0 = (Ret tt, w1) /\ cycle e2 w1 = (Ret tt, w2) /\ cycle e3 w2 = (Ret tt, w3)
   /\ cycle e4 w3 = (Ret tt, w4) /\ cycle e5 w4 = (Ret tt, w5))
  /\ (pushes w1 = pushes w0
      /\ pushes w2 = pushes w1 ++ [push_of (now_kr e2) r2]
      /\ pushes w3 = pushes w2
      /\ pushes w4 = pushes w3
      /\ pushes w5 = pushes w4 ++ [push_of (now_kr e5) r5])
  /\ (file_lines w1 = file_lines w0
      /\ file_lines w2 = file_lines w1 ++ [csv_row_of (now_utc e2) (now_kr e2) r2]
      /\ file_lines w3 = file_lines w2 ++ [csv_row_of (now_utc e3) (now_kr e3) r3]
      /\ file_lines w4 = file_lines w3
      /\ file_lines w5 = file_lines w4 ++ [csv_row_of (now_utc e5) (now_kr e5) r5]).
Proof.
  intros H0 F1 F2 F3 F4 F5 K1 K2 K3 K4 K5 A1 A2 A3 A4 A5 w1 w2 w3 w4 w5.
  destruct (cycle_single e1 r1 k w0 F1 K1) as (x1 & Hc1 & L1 & P1 & R1).
  same_world x1 w1 Hc1.
  destruct (cycle_single e2 r2 k w1 F2 K2) as (x2 & Hc2 & L2 & P2 & R2).
  same_world x2 w2 Hc2.
  destruct (cycle_single e3 r3 k w2 F3 K3) as (x3 & Hc3 & L3 & P3 & R3).
  same_world x3 w3 Hc3.
  destruct (cycle_single e4 r4 k w3 F4 K4) as (x4 & Hc4 & L4 & P4 & R4).
  same_world x4 w4 Hc4.
  destruct (cycle_single e5 r5 k w4 F5 K5) as (x5 & Hc5 & L5 & P5 & R5).
  same_world x5 w5 Hc5.
  clearbody w1 w2 w3 w4 w5.
  rewrite A1 in *. rewrite A2 in *. rewrite A3 in *. rewrite A4 in *. rewrite A5 in *.
  rewrite L4, lookup_insert_eq in P5. rewrite L2, lookup_insert_eq in P3.
  rewrite L1, lookup_insert_eq in P2.
  simpl in *. rewrite app_nil_r in *.
  repeat split; assumption.
Qed.

(** C5: on a cycle that starts with the empty map, for a fetched list of
    records with hashable identifiers in which the store with key [k] is
    reported, and reported available: the cycle completes and exactly one
    notification is triggered for [k]. *)
Theorem C5_cold_start_notifies_once env res k w :
  last_flags w = ∅ ->
  fetches env res ->
  Forall (fun r => is_Some (record_key r)) res ->
  (exists r, r ∈ res /\ record_key r = Some k) ->
  (forall r, r ∈ res -> record_key r = Some k -> is_available r = true) ->
  let w' := run (cycle env) w in
  cycle env w = (Ret tt, w')
  /\ exists r, r ∈ res /\ record_key r = Some k
               /\ pushes_for k w' = pushes_for k w ++ [push_of (now_kr env) r].
Proof.
  intros H0 Hf Hk Hex Hav w'.
  destruct (cycle_keyed env res w Hf Hk) as (resp & w1 & x & _ & E1 & Hc & _ & Hpu & _).
  same_world x w' Hc.
  split; [exact Hc|].
  destruct (process_records_newly_available env (now_utc env) (now_kr env) res k Hk Hex Hav []
              (detect_start env resp res w)) as [_ (r & Hin & Hr & Hp)].
  { simpl. rewrite H0, lookup_empty. discriminate. }
  unfold run in Hp. rewrite E1 in Hp. simpl in Hp.
  exists r. split; [done|]. split; [done|].
  unfold pushes_for in *. by rewrite Hpu, Hp.
Qed.

(** C10: the identifier is [storeNumber], or [storeName] when
    [storeNumber] is absent; an iteration whose fetched list has no record
    filed under [k] (or whose fetch fails) leaves the entry of [k] as it
    was; so when the flag of [k] is [True], an iteration without a record
    for [k] followed by one in which the records for [k] are available
    triggers no notification for [k]. *)
Theorem C10_absent_store_keeps_flag :
  (forall r,
      (truthy (storeNumber r) = true -> record_sid r = storeNumber r)
      /\ (storeNumber r = PNone -> record_sid r = storeName r))
  /\ (forall env w k,
      (forall res r, fetches env res -> r ∈ res -> record_key r <> Some k) ->
      last_flags (run (iteration env) w) !! k = last_flags w !! k)
  /\ (forall env2 env3 w k,
      last_flags w !! k = Some true ->
      (forall res r, fetches env2 res -> r ∈ res -> record_key r <> Some k) ->
      (forall res r, fetches env3 res -> r ∈ res -> record_key r = Some k ->
                     is_available r = true) ->
      let w2 := run (iteration env2) w in
      let w3 := run (iteration env3) w2 in
      last_flags w2 !! k = Some true
      /\ pushes_for k w2 = pushes_for k w
      /\ pushes_for k w3 = pushes_for k w
      /\ last_flags w3 !! k = Some true).
Proof.
  assert (Habsent : forall env w k,
             (forall res r, fetches env res -> r ∈ res -> record_key r <> Some k) ->
             last_flags (run (iteration env) w) !! k = last_flags w !! k
             /\ pushes_for k (run (iteration env) w) = pushes_for k w).
  { intros env w k Habs.
    pose proof (iteration_view env w) as (Hfl & Hpu & _). simpl in Hfl, Hpu.
    pose proof (cycle_view env w) as [_ [(resp & res & Hf & Hv)|[Hfc Hpc]]]; simpl in *.
    + destruct Hv as [Hfc Hpc].
      destruct (process_records_absent env (now_utc env) (now_kr env) res k
                  (fun r Hin => Habs res r Hf Hin) [] (detect_start env resp res w)) as [A B].
      simpl in A, B. unfold pushes_for in *. rewrite Hfl, Hpu, Hfc, Hpc.
      split; [exact A|exact B].
    + unfold pushes_for. rewrite Hfl, Hpu, Hfc, Hpc. by split. }
  split; [|split].
  - intros r. unfold record_sid, py_or. split.
    + by intros ->.
    + by intros ->.
  - intros env w k Habs. by apply Habsent.
  - intros env2 env3 w k Hw Habs Hav w2 w3.
    destruct (Habsent env2 w k Habs) as [F2 P2]. fold w2 in F2, P2.
    rewrite Hw in F2. split; [exact F2|]. split; [exact P2|].
    pose proof (iteration_view env3 w2) as (Hfl & Hpu & _). simpl in Hfl, Hpu. fold w3 in Hfl, Hpu.
    pose proof (cycle_view env3 w2) as [_ [(resp & res & Hf & Hv)|[Hfc Hpc]]]; simpl in *.
    + destruct Hv as [Hfc Hpc].
      destruct (process_records_still_available env3 (now_utc env3) (now_kr env3) res k
                  (fun r Hin => Hav res r Hf Hin) [] (detect_start env3 resp res w2) F2) as [A B].
      simpl in A, B. unfold pushes_for in *. rewrite Hfl, Hpu, Hfc, Hpc, A.
      split; [|done]. etransitivity; [exact B|exact P2].
    + unfold pushes_for in *. rewrite Hfl, Hpu, Hfc, Hpc. by split.
Qed.

(** ** Notification delivery *)

(** The answers to the POSTs reach nothing but the console and the POST
    log: one step of the loop, run under two environments that differ in
    those answers only, ends the same way in both. *)
Lemma process_record_sim env env' ts_utc ts_kr rows r w w' :
  same_but_output w w' ->
  fst (process_record env ts_utc ts_kr rows r w) = fst (process_record env' ts_utc ts_kr rows r w')
  /\ same_but_output (run (process_record env ts_utc ts_kr rows r) w)
                     (run (process_record env' ts_utc ts_kr rows r) w').
Proof.
  intros (Hg & Hc & Hf & Hs & Hsl & Hp). unfold run.
  destruct (hash_key (record_sid r)) as [k|e] eqn:Hk.
  - destruct (process_record_keyed env ts_utc ts_kr rows r w k Hk)
      as (x & -> & Xf & Xp & Xc & Xs & Xsl & Xg & _).
    destruct (process_record_keyed env' ts_utc ts_kr rows r w' k Hk)
      as (x' & -> & Xf' & Xp' & Xc' & Xs' & Xsl' & Xg' & _).
    simpl. split; [done|]. unfold same_but_output.
    rewrite Xf, Xf', Xp, Xp', Xc, Xc', Xs, Xs', Xsl, Xsl', Xg, Xg', Hg, Hc, Hf, Hs, Hsl, Hp.
    done.
  - rewrite !(process_record_unhashable _ _ _ _ _ _ _ Hk). simpl. by split.
Qed.

Lemma process_records_sim env env' ts_utc ts_kr res :
  forall rows w w',
    same_but_output w w' ->
    fst (process_records env ts_utc ts_kr rows res w)
      = fst (process_records env' ts_utc ts_kr rows res w')
    /\ same_but_output (run (process_records env ts_utc ts_kr rows res) w)
                       (run (process_records env' ts_utc ts_kr rows res) w').
Proof.
  induction res as [|r rest IH]; intros rows w w' Hw; [by split|].
  destruct (process_record_sim env env' ts_utc ts_kr rows r w w' Hw) as [Ho Hs].
  unfold run in *. rewrite !process_records_cons.
  destruct (process_record env ts_utc ts_kr rows r w) as [[rows1|e1] w1];
    destruct (process_record env' ts_utc ts_kr rows r w') as [[rows2|e2] w2];
    simpl in *; try discriminate.
  - injection Ho as <-. by apply IH.
  - by split.
Qed.

Lemma fetch_same_reply env env' w :
  get_reply env = get_reply env' ->
  fetch_availability env w = fetch_availability env' w.
Proof.
  intros H. unfold fetch_availability, session_get, mbind, M_bind. by rewrite H.
Qed.

Lemma append_log_sim rows w w' :
  same_but_output w w' ->
  append_log rows w = (Ret tt, run (append_log rows) w)
  /\ append_log rows w' = (Ret tt, run (append_log rows) w')
  /\ same_but_output (run (append_log rows) w) (run (append_log rows) w').
Proof.
  intros (Hg & Hc & Hf & Hs & Hsl & Hp).
  destruct rows as [|row rows]; (split; [done|split; [done|]]).
  - by repeat split.
  - unfold run, append_log, append_rows, modify, same_but_output. simpl.
    rewrite Hg, Hc, Hf, Hs, Hsl, Hp. done.
Qed.

Lemma cycle_unfold env w :
  cycle env w =
    match fetch_availability env w with
    | (Ret res, w1) =>
        detect_and_log env (now_utc env) (now_kr env) res
          (add_console ("[" +:+ now_kr env +:+ "] " +:+ brief res) w1)
    | (Raise e, w1) => (Raise e, w1)
    end.
Proof.
  unfold cycle, mbind, M_bind. by destruct (fetch_availability env w) as [[res|e] w1].
Qed.

Lemma detect_and_log_sim env env' ts_utc ts_kr res w w' :
  same_but_output w w' ->
  fst (detect_and_log env ts_utc ts_kr res w) = fst (detect_and_log env' ts_utc ts_kr res w')
  /\ same_but_output (run (detect_and_log env ts_utc ts_kr res) w)
                     (run (detect_and_log env' ts_utc ts_kr res) w').
Proof.
  intros Hw. unfold run, detect_and_log, mbind, M_bind.
  destruct (process_records_sim env env' ts_utc ts_kr res [] w w' Hw) as [Ho Hs].
  unfold run in Hs.
  destruct (process_records env ts_utc ts_kr [] res w) as [[rows1|e1] x1];
    destruct (process_records env' ts_utc ts_kr [] res w') as [[rows2|e2] x2];
    simpl in *; try discriminate.
  - injection Ho as <-.
    destruct (append_log_sim rows1 x1 x2 Hs) as (-> & -> & Hs'). by split.
  - injection Ho as <-. by split.
Qed.

Lemma cycle_sim env env' w :
  same_but_posts env env' ->
  fst (cycle env w) = fst (cycle env' w)
  /\ same_but_output (run (cycle env) w) (run (cycle env') w).
Proof.
  intros (Hu & Hk & Hg & _). unfold run.
  rewrite !cycle_unfold, (fetch_same_reply env env' w Hg), <- Hu, <- Hk.
  destruct (fetch_availability env' w) as [[res|e] w1]; [|by split].
  apply detect_and_log_sim. by repeat split.
Qed.


Lemma is_warning_warn_line c e : is_warning (warn_line c e) = true.
Proof. destruct c; reflexivity. Qed.

Lemma warnings_cons line lines :
  warnings (line :: lines) = if is_warning line then line :: warnings lines else warnings lines.
Proof. reflexivity. Qed.

Lemma reply_lines_failed reply :
  push_failed reply = true ->
  exists line, reply_lines reply = [line] /\ is_warning line = true.
Proof.
  unfold push_failed, reply_lines. destruct reply as [r|e]; [|by eexists].
  destruct (negb (status_code r =? 200)%Z); simpl; [by eexists|].
  destruct (json_body r) as [jr|]; [|done].
  destruct (py_get jr "code" PNone) as [code|]; [|done].
  destruct (negb (code_ok code)); [by eexists|done].
Qed.

(** C4: with an endpoint configured and every POST failing (transport
    error, non-200 status or non-OK payload), each call of [bark_send]
    returns normally having made exactly one POST and printed exactly one
    line, a warning; a cycle over a fetched list of records with hashable
    identifiers completes, appends the row of every available record, and
    makes exactly one POST per notification; and any cycle ends the way it
    would have ended with other answers to the POSTs, with the same file,
    flags and notifications. *)
Theorem C4_push_failure_is_contained env endpoint :
  bark_endpoint = Some endpoint ->
  (forall n rq, push_failed (post_reply env n rq) = true) ->
  (forall title body url w,
      exists line,
        bark_send env title body url w =
          (Ret tt, add_console line (add_post (mkPost endpoint (bark_payload title body url)) w))
        /\ is_warning line = true)
  /\ (forall res w,
      fetches env res ->
      Forall (fun r => is_Some (record_key r)) res ->
      let w' := run (cycle env) w in
      cycle env w = (Ret tt, w')
      /\ file_lines w' = file_lines w ++
           map (csv_row_of (now_utc env) (now_kr env)) (List.filter is_available res)
      /\ (forall r, r ∈ res -> is_available r = true ->
                    csv_row_of (now_utc env) (now_kr env) r ∈ file_lines w')
      /\ length (http_posts w') - length (http_posts w) =
         length (pushes w') - length (pushes w))
  /\ (forall env' w,
      same_but_posts env env' ->
      fst (cycle env w) = fst (cycle env' w)
      /\ same_but_output (run (cycle env) w) (run (cycle env') w)).
Proof.
  intros Hep Hfail. split; [|split; [|by apply cycle_sim]].
  - intros title body url w.
    rewrite (bark_send_configured env title body url w endpoint Hep).
    destruct (reply_lines_failed _ (Hfail (length (http_posts w))
                (mkPost endpoint (bark_payload title body url)))) as (line & -> & Hw).
    by exists line.
  - intros res w Hf Hk w'.
    destruct (cycle_keyed env res w Hf Hk)
      as (resp & w1 & x & _ & E1 & Hc & _ & Hpu & Hpo & _ & Hl).
    same_world x w' Hc.
    split; [exact Hc|]. split; [exact Hl|]. split.
    + intros r Hin Hav. rewrite Hl. apply elem_of_app. right.
      apply list_elem_of_fmap. exists r. split; [done|].
      apply list_elem_of_In, filter_In. split; [by apply list_elem_of_In|done].
    + destruct (process_records_keyed env (now_utc env) (now_kr env) res Hk []
                  (detect_start env resp res w))
        as (y & E & _ & _ & _ & _ & _ & (posts & Hposts & Hlen)).
      rewrite E1 in E. injection E as <-.
      rewrite Hpo, Hpu, Hposts, length_app, Hlen. simpl.
      unfold posts_per_push. rewrite Hep. lia.
Qed.

(** C8: with a device key, the POST goes to [BARK_SERVER_BASE/BARK_DEVICE_KEY];
    without one but with [BARK_PUSH_ENDPOINT] set, it goes there; with
    neither, [bark_send] returns normally having printed one [[INFO]]
    line and made no request. *)
Theorem C8_endpoint_precedence env title body url w :
  let w' := run (bark_send env title body url) w in
  (BARK_DEVICE_KEY cfg <> EmptyString ->
     http_posts w' = http_posts w ++
       [mkPost (BARK_SERVER_BASE cfg +:+ "/" +:+ BARK_DEVICE_KEY cfg)
               (bark_payload title body url)])
  /\ (BARK_DEVICE_KEY cfg = EmptyString -> BARK_PUSH_ENDPOINT cfg <> EmptyString ->
     http_posts w' = http_posts w ++
       [mkPost (BARK_PUSH_ENDPOINT cfg) (bark_payload title body url)])
  /\ (BARK_DEVICE_KEY cfg = EmptyString -> BARK_PUSH_ENDPOINT cfg = EmptyString ->
     bark_send env title body url w = (Ret tt, add_console INFO_NOT_CONFIGURED w)
     /\ http_posts w' = http_posts w
     /\ console w' = console w ++ [INFO_NOT_CONFIGURED]).
Proof.
  intros w'.
  assert (Hne : forall s, s <> EmptyString -> nonempty s = true).
  { intros s Hs. unfold nonempty. destruct (String.eqb_spec s EmptyString); [done|reflexivity]. }
  split; [|split].
  - intros Hkey. unfold w', run.
    rewrite (bark_send_configured env title body url w
               (BARK_SERVER_BASE cfg +:+ "/" +:+ BARK_DEVICE_KEY cfg)).
    + reflexivity.
    + unfold bark_endpoint. by rewrite (Hne _ Hkey).
  - intros Hkey Hep. unfold w', run.
    rewrite (bark_send_configured env title body url w (BARK_PUSH_ENDPOINT cfg)).
    + reflexivity.
    + unfold bark_endpoint. by rewrite Hkey, (Hne _ Hep).
  - intros Hkey Hep. unfold w', run.
    rewrite (bark_send_unconfigured env title body url w).
    + done.
    + unfold bark_endpoint. by rewrite Hkey, Hep.
Qed.

(** ** Parsing the response *)

Lemma parse_store_blank s :
  lacks_sku_entry s ->
  exists fields, s = PDict fields /\ parse_store s = Ret (blank_record fields).
Proof.
  intros (fields & -> & H). exists fields. split; [done|].
  assert (exists pa_all,
             py_get (PDict fields) "partsAvailability" PNone = Ret pa_all
             /\ py_get (py_or pa_all (PDict [])) (SKU cfg) PNone = Ret PNone) as (pa_all & E1 & E2).
  { unfold py_get at 1.
    destruct H as [[H|H]|(parts & H & [Hs|Hs])]; rewrite H; simpl.
    - by exists PNone.
    - by exists PNone.
    - exists (PDict parts). split; [done|].
      unfold py_or. destruct (truthy (PDict parts)); simpl; [by rewrite Hs|done].
    - exists (PDict parts). split; [done|].
      unfold py_or. destruct (truthy (PDict parts)); simpl; [by rewrite Hs|done]. }
  unfold parse_store. rewrite E1. cbn -[py_get py_or]. rewrite E2. reflexivity.
Qed.

(** C6: a store entry (a JSON object) whose ["partsAvailability"] is
    missing or null, or lacks the target SKU or maps it to null, never
    makes the parse step raise: its record has [pickupDisplay] [None] and
    the empty quote; and a response whose stores are all such entries
    parses to one such record per store. *)
Theorem C6_missing_availability_parses :
  (forall s,
      lacks_sku_entry s ->
      exists r,
        parse_store s = Ret r /\ pickupDisplay r = PNone /\ quote r = PStr EmptyString
        /\ is_available r = false)
  /\ (forall data body stores,
      py_get data "body" (PDict []) = Ret body ->
      py_get body "stores" (PList []) = Ret (PList stores) ->
      Forall lacks_sku_entry stores ->
      exists res,
        parse_response data = Ret res
        /\ length res = length stores
        /\ Forall (fun r => pickupDisplay r = PNone /\ quote r = PStr EmptyString) res).
Proof.
  split.
  - intros s H. destruct (parse_store_blank s H) as (fields & _ & E).
    exists (blank_record fields). by rewrite E.
  - intros data body stores Hb Hs Hall.
    assert (exists res, parse_stores stores = Ret res /\ length res = length stores
                        /\ Forall (fun r => pickupDisplay r = PNone
                                            /\ quote r = PStr EmptyString) res)
      as (res & E & Hlen & Hres).
    { clear Hs. induction Hall as [|s rest Hs1 _ IH].
      - exists []. by repeat split.
      - destruct IH as (res & E & Hlen & Hres).
        destruct (parse_store_blank s Hs1) as (fields & _ & E1).
        exists (blank_record fields :: res). simpl. rewrite E1. cbn. rewrite E. cbn.
        split; [done|]. split; [by rewrite Hlen|]. by constructor. }
    exists res. split; [|by split].
    unfold parse_response. rewrite Hb. cbn -[py_get py_iter parse_stores]. rewrite Hs.
    cbn -[parse_stores]. unfold py_or. destruct stores; simpl; [|exact E].
    simpl in E. exact E.
Qed.

(** ** The CSV log *)

(** C7: a call of [ensure_log] never raises; on an existing file it
    changes nothing, whatever lines the file holds, so rows appended
    since are kept; on an absent file it writes the header line once, and
    any number of further calls leave the file as the first call left it. *)
Theorem C7_ensure_log_idempotent w n :
  let w1 := run ensure_log w in
  ensure_log w = (Ret tt, w1)
  /\ ensure_log w1 = (Ret tt, w1)
  /\ Nat.iter n (run ensure_log) w1 = w1
  /\ (forall lines, csv_file w = Some lines -> w1 = w)
  /\ (csv_file w = None -> w1 = set_csv (Some [CsvHeader LOG_COLUMNS]) w)
  /\ file_lines w1 = match csv_file w with
                     | Some lines => lines
                     | None => [CsvHeader LOG_COLUMNS]
                     end
  /\ (forall rows,
        let w2 := run (append_log rows) w1 in
        run ensure_log w2 = w2
        /\ file_lines w2 = file_lines w1 ++ map (fun row => CsvRow (row_cells row)) rows).
Proof.
  intros w1.
  assert (Hkeep : forall x, csv_file x <> None -> ensure_log x = (Ret tt, x)).
  { intros x Hx. unfold ensure_log, path_exists, mbind, M_bind, read.
    destruct (csv_file x); [reflexivity|done]. }
  assert (Hw1 : csv_file w1 <> None).
  { unfold w1, run, ensure_log, path_exists, write_header, mbind, M_bind, read, modify.
    destruct (csv_file w) eqn:E; simpl; [by rewrite E|done]. }
  assert (E1 : ensure_log w = (Ret tt, w1)).
  { unfold w1, run, ensure_log, path_exists, write_header, mbind, M_bind, read, modify.
    by destruct (csv_file w). }
  split; [exact E1|]. split; [by apply Hkeep|].
  split. { induction n as [|m IH]; simpl; [done|]. rewrite IH. unfold run. by rewrite Hkeep. }
  split. { intros lines E. unfold w1, run. rewrite Hkeep; [done|by rewrite E]. }
  split.
  { intros E. unfold w1, run, ensure_log, path_exists, write_header, mbind, M_bind, read, modify.
    by rewrite E. }
  split.
  { unfold w1, run, ensure_log, path_exists, write_header, mbind, M_bind, read, modify, file_lines.
    destruct (csv_file w) eqn:E; simpl; [by rewrite E|done]. }
  intros rows w2.
  destruct (append_log_lines rows w1) as (x & E & Hl & _).
  assert (Hx : csv_file x <> None).
  { unfold append_log, append_rows, modify, mret, M_ret in E.
    destruct rows as [|row rows]; injection E as <-; [exact Hw1|done]. }
  assert (x = w2) as -> by (unfold w2, run; by rewrite E).
  split; [|exact Hl].
  unfold run. by rewrite Hkeep.
Qed.

(** ** Console warnings *)

(** C9: for each error the cycle handles, the lines printed for it hold
    exactly one line tagged [[WARN]]: a transport failure of the GET, an
    error status of the GET, undecodable JSON in the reply to the GET
    (where an [[ERROR]] line with the start of the body comes first), and a
    transport failure or non-success answer of a push. *)
Theorem C9_one_warning_per_error env w :
  let guarded := try_except (cycle env) loop_handlers in
  (forall e,
      get_reply env = Raise e ->
      exists lines,
        console (run guarded w) = console w ++ lines
        /\ lines = [warn_line (categorize e) e]
        /\ length (warnings lines) = 1)
  /\ (forall resp,
      get_reply env = Ret resp -> status_ok resp = false ->
      exists lines msg,
        console (run guarded w) = console w ++ lines
        /\ lines = [debug_line resp; warn_line HttpError (mkExn HTTPError msg)]
        /\ length (warnings lines) = 1)
  /\ (forall resp e,
      get_reply env = Ret resp -> status_ok resp = true -> json_body resp = Raise e ->
      exists lines,
        console (run guarded w) = console w ++ lines
        /\ lines = debug_line resp ::
                   (if isinstance e JSONDecodeError then [json_error_line resp] else [])
                   ++ [warn_line (categorize e) e]
        /\ length (warnings lines) = 1)
  /\ (forall endpoint title body url,
      bark_endpoint = Some endpoint ->
      push_failed (post_reply env (length (http_posts w))
                     (mkPost endpoint (bark_payload title body url))) = true ->
      exists line,
        console (run (bark_send env title body url) w) = console w ++ [line]
        /\ length (warnings [line]) = 1).
Proof.
  intros guarded.
  assert (Hcycle : forall e w1,
             fetch_availability env w = (Raise e, w1) ->
             run guarded w = add_console (warn_line (categorize e) e) w1).
  { intros e w1 H. unfold guarded, run.
    rewrite (loop_handlers_catch (cycle env) w e w1); [done|].
    unfold cycle, mbind, M_bind. by rewrite H. }
  assert (Hdebug : forall resp, is_warning (debug_line resp) = false) by reflexivity.
  assert (Hjson : forall resp, is_warning (json_error_line resp) = false) by reflexivity.
  split; [|split; [|split]].
  - intros e Hg. rewrite (Hcycle e _ (fetch_transport_failure env e w Hg)).
    eexists. split; [reflexivity|]. split; [reflexivity|].
    by rewrite warnings_cons, is_warning_warn_line.
  - intros resp Hg Hs. destruct (fetch_status_error env resp w Hg Hs) as (msg & E).
    rewrite (Hcycle _ _ E). exists [debug_line resp; warn_line HttpError (mkExn HTTPError msg)], msg.
    split. { simpl. by rewrite <- app_assoc. }
    split; [reflexivity|]. by rewrite !warnings_cons, Hdebug, is_warning_warn_line.
  - intros resp e Hg Hs Hj. rewrite (Hcycle _ _ (fetch_json_failure env resp e w Hg Hs Hj)).
    eexists. split; [|split; [reflexivity|]].
    + destruct (isinstance e JSONDecodeError); simpl; by rewrite <- !app_assoc.
    + rewrite warnings_cons, Hdebug.
      destruct (isinstance e JSONDecodeError); cbn [app];
        rewrite ?warnings_cons, ?Hjson, is_warning_warn_line; reflexivity.
  - intros endpoint title body url Hep Hfail. unfold run.
    rewrite (bark_send_configured env title body url w endpoint Hep).
    destruct (reply_lines_failed _ Hfail) as (line & -> & Hw).
    exists line. split; [reflexivity|]. by rewrite warnings_cons, Hw.
Qed.

(** ** Rounding to a float *)

Section Rounding.
Local Open Scope Q_scope.

Lemma pow2_pos e : 0 < pow2 e.
Proof.
  unfold pow2. destruct (0 <=? e)%Z eqn:E.
  - apply Z.leb_le in E. change 0 with (inject_Z 0). rewrite <- Zlt_Qlt.
    apply Z.pow_pos_nonneg; lia.
  - apply Z.leb_gt in E. apply Qinv_lt_0_compat.
    change 0 with (inject_Z 0). rewrite <- Zlt_Qlt. apply Z.pow_pos_nonneg; lia.
Qed.

Lemma pow2_nonneg_exp e : (0 <= e)%Z -> pow2 e = inject_Z (2 ^ e).
Proof. intros H. unfold pow2. apply Z.leb_le in H. now rewrite H. Qed.

Lemma pow2_succ e : pow2 (e + 1) == 2 * pow2 e.
Proof.
  unfold pow2.
  destruct (0 <=? e)%Z eqn:E, (0 <=? e + 1)%Z eqn:E1.
  - apply Z.leb_le in E. rewrite Z.pow_add_r by lia. rewrite inject_Z_mult.
    change (inject_Z (2 ^ 1)) with 2. ring.
  - apply Z.leb_le in E. apply Z.leb_gt in E1. lia.
  - apply Z.leb_gt in E. apply Z.leb_le in E1. assert (e = (-1)%Z) as -> by lia.
    reflexivity.
  - apply Z.leb_gt in E. apply Z.leb_gt in E1.
    replace (- e)%Z with (- (e + 1) + 1)%Z by lia.
    rewrite Z.pow_add_r by lia. rewrite inject_Z_mult.
    change (inject_Z (2 ^ 1)) with 2.
    assert (0 < inject_Z (2 ^ (- (e + 1)))) as Hp.
    { change 0 with (inject_Z 0). rewrite <- Zlt_Qlt. apply Z.pow_pos_nonneg; lia. }
    field. intros Hz. rewrite Hz in Hp. now apply Qlt_irrefl in Hp.
Qed.

Lemma pow2_add_nat e (n : nat) : pow2 (e + Z.of_nat n) == inject_Z (2 ^ Z.of_nat n) * pow2 e.
Proof.
  induction n as [|n IH].
  - change (Z.of_nat 0) with 0%Z. change (2 ^ 0)%Z with 1%Z.
    rewrite Z.add_0_r. change (inject_Z 1) with 1. ring.
  - rewrite Nat2Z.inj_succ. unfold Z.succ.
    rewrite Z.add_assoc, pow2_succ, IH.
    rewrite (Z.pow_add_r 2 (Z.of_nat n) 1) by lia. rewrite inject_Z_mult.
    change (inject_Z (2 ^ 1)) with 2. ring.
Qed.

(** [2 ** b] is [2 ** (b - a)] times [2 ** a], for [a <= b] *)
Lemma pow2_split a b : (a <= b)%Z -> pow2 b == inject_Z (2 ^ (b - a)) * pow2 a.
Proof.
  intros H. replace b with (a + Z.of_nat (Z.to_nat (b - a)))%Z at 1 by lia.
  rewrite pow2_add_nat. now rewrite Z2Nat.id by lia.
Qed.

Lemma pow2_le a b : (a <= b)%Z -> pow2 a <= pow2 b.
Proof.
  intros H. rewrite (pow2_split a b H).
  assert (1 <= inject_Z (2 ^ (b - a))) as H1.
  { change 1 with (inject_Z 1). rewrite <- Zle_Qle.
    assert (0 < 2 ^ (b - a))%Z by (apply Z.pow_pos_nonneg; lia). lia. }
  pose proof (pow2_pos a) as Hp.
  rewrite <- (Qmult_1_l (pow2 a)) at 1.
  apply Qmult_le_compat_r; [exact H1|]. now apply Qlt_le_weak.
Qed.

Lemma ilog2_lower q : 0 < q -> pow2 (ilog2 q) <= q.
Proof.
  intros Hq. unfold ilog2.
  set (e := (Z.log2 (Qnum q) - Z.log2 (Z.pos (Qden q)))%Z).
  destruct (Qle_bool (pow2 e) q) eqn:E; [now apply Qle_bool_iff|].
  destruct q as [n d]. unfold Qlt in Hq. cbn [Qnum Qden] in Hq, e.
  change (Qnum 0) with 0%Z in Hq. change (QDen 0) with 1%Z in Hq.
  rewrite Z.mul_1_r in Hq. cbn [Z.mul] in Hq.
  assert (Hn : (2 ^ Z.log2 n <= n)%Z) by (apply Z.log2_spec; lia).
  assert (Hd : (Z.pos d < 2 ^ (Z.log2 (Z.pos d) + 1))%Z).
  { replace (Z.log2 (Z.pos d) + 1)%Z with (Z.succ (Z.log2 (Z.pos d))) by lia.
    apply Z.log2_spec. lia. }
  assert (Hln : (0 <= Z.log2 n)%Z) by apply Z.log2_nonneg.
  assert (Hld : (0 <= Z.log2 (Z.pos d))%Z) by apply Z.log2_nonneg.
  (* q * 2^(ld + 1) >= 2^ln, and pow2 (e - 1) * 2^(ld + 1) = 2^ln *)
  assert (Hs : pow2 (Z.log2 n) == inject_Z (2 ^ (Z.log2 (Z.pos d) + 1)) * pow2 (e - 1)).
  { assert (He : (e - 1 <= Z.log2 n)%Z) by (unfold e; lia).
    rewrite (pow2_split (e - 1) (Z.log2 n) He).
    replace (Z.log2 n - (e - 1))%Z with (Z.log2 (Z.pos d) + 1)%Z by (unfold e; lia).
    reflexivity. }
  rewrite pow2_nonneg_exp in Hs by lia.
  set (P := (2 ^ (Z.log2 (Z.pos d) + 1))%Z) in *.
  assert (HP : (0 < P)%Z) by (apply Z.pow_pos_nonneg; lia).
  assert (HPq : 0 < inject_Z P) by (change 0 with (inject_Z 0); now rewrite <- Zlt_Qlt).
  apply Qmult_le_l with (z := inject_Z P); [exact HPq|].
  rewrite <- Hs.
  (* inject_Z (2^ln) <= P * (n # d) *)
  unfold Qle. simpl. rewrite Z.mul_1_r.
  nia.
Qed.

Lemma quotient_le d f r K : (0 < d -> 0 <= r -> d * f + r <= K * d -> f <= K)%Z.
Proof.
  intros Hd Hr H. destruct (Z_le_gt_dec f K) as [|Hgt]; [assumption|exfalso].
  assert (d * (K + 1) <= d * f)%Z by (apply Z.mul_le_mono_nonneg_l; lia). lia.
Qed.

Lemma quotient_lt d f r K : (0 < d -> 0 < r -> d * f + r <= K * d -> f < K)%Z.
Proof.
  intros Hd Hr H. destruct (Z_lt_le_dec f K) as [|Hge]; [assumption|exfalso].
  assert (d * K <= d * f)%Z by (apply Z.mul_le_mono_nonneg_l; lia). lia.
Qed.

Lemma quotient_ge d f r K : (0 < d -> r < d -> K * d <= d * f + r -> K <= f)%Z.
Proof.
  intros Hd Hr H. destruct (Z_le_gt_dec K f) as [|Hgt]; [assumption|exfalso].
  assert (d * (f + 1) <= d * K)%Z by (apply Z.mul_le_mono_nonneg_l; lia). lia.
Qed.

Lemma round_half_even_le x K : x <= inject_Z K -> (round_half_even x <= K)%Z.
Proof.
  destruct x as [n d]. unfold Qle, round_half_even. cbn [Qnum Qden inject_Z].
  rewrite Z.mul_1_r. intros H.
  pose proof (Z.div_mod n (Z.pos d) ltac:(lia)) as Hdm.
  pose proof (Z.mod_pos_bound n (Z.pos d) ltac:(lia)) as Hb.
  set (f := (n / Z.pos d)%Z) in *. set (r := (n mod Z.pos d)%Z) in *.
  rewrite Hdm in H.
  pose proof (quotient_le (Z.pos d) f r K ltac:(lia) ltac:(lia) H) as Hle.
  destruct (2 * r ?= Z.pos d)%Z eqn:C.
  - apply Z.compare_eq in C.
    pose proof (quotient_lt (Z.pos d) f r K ltac:(lia) ltac:(lia) H).
    destruct (Z.even f); lia.
  - exact Hle.
  - apply Z.compare_gt_iff in C.
    pose proof (quotient_lt (Z.pos d) f r K ltac:(lia) ltac:(lia) H). lia.
Qed.

Lemma round_half_even_ge x K : inject_Z K <= x -> (K <= round_half_even x)%Z.
Proof.
  destruct x as [n d]. unfold Qle, round_half_even. cbn [Qnum Qden inject_Z].
  rewrite Z.mul_1_r. intros H.
  pose proof (Z.div_mod n (Z.pos d) ltac:(lia)) as Hdm.
  pose proof (Z.mod_pos_bound n (Z.pos d) ltac:(lia)) as Hb.
  set (f := (n / Z.pos d)%Z) in *. set (r := (n mod Z.pos d)%Z) in *.
  rewrite Hdm in H.
  pose proof (quotient_ge (Z.pos d) f r K ltac:(lia) ltac:(lia) H) as Hge.
  destruct (2 * r ?= Z.pos d)%Z; [destruct (Z.even f)| |]; lia.
Qed.

(** Rounding does not cross a float: between two multiples [A * 2 ** j]
    and [B * 2 ** j] of a power of two that are floats, the rounded value
    stays between them. *)
Lemma round64_between q A B j :
  inject_Z A * pow2 j <= q -> q <= inject_Z B * pow2 j ->
  (0 <= A)%Z -> (B < 2 ^ 53)%Z -> (-1074 <= j)%Z -> (j <= 971)%Z ->
  exists v, round64 q = Finite v
            /\ inject_Z A * pow2 j <= v /\ v <= inject_Z B * pow2 j.
Proof.
  intros HA HB HA0 HB53 Hj Hj'.
  pose proof (pow2_pos j) as Hpj.
  unfold round64. destruct (Qeq_bool q 0) eqn:Z0.
  - apply Qeq_bool_iff in Z0. exists 0. split; [reflexivity|]. rewrite <- Z0. now split.
  - assert (Hq : 0 < q).
    { apply Qeq_bool_neq in Z0.
      assert (0 <= inject_Z A * pow2 j).
      { apply Qmult_le_0_compat; [|now apply Qlt_le_weak].
        change 0 with (inject_Z 0). now rewrite <- Zle_Qle. }
      destruct (Qlt_le_dec 0 q) as [|Hle]; [assumption|].
      exfalso. apply Z0. apply Qle_antisym; [exact Hle|]. now apply Qle_trans with (inject_Z A * pow2 j). }
    assert (Qle_bool 0 q = true) as -> by (apply Qle_bool_iff; now apply Qlt_le_weak).
    unfold round64_pos.
    set (c := (Z.max (ilog2 q) (-1022) - 52)%Z).
    assert (Hc : (c <= j)%Z).
    { assert (ilog2 q < 53 + j)%Z; [|unfold c; lia].
      destruct (Z_lt_le_dec (ilog2 q) (53 + j)) as [|Hge]; [assumption|exfalso].
      pose proof (ilog2_lower q Hq) as Hl.
      pose proof (pow2_le _ _ Hge) as Hm.
      assert (inject_Z B * pow2 j < pow2 (53 + j)).
      { rewrite (pow2_split j (53 + j) ltac:(lia)).
        replace (53 + j - j)%Z with 53%Z by lia.
        apply Qmult_lt_compat_r; [exact Hpj|]. now rewrite <- Zlt_Qlt. }
      assert (q < q); [|now apply (Qlt_irrefl q)].
      apply Qle_lt_trans with (inject_Z B * pow2 j); [exact HB|].
      apply Qlt_le_trans with (pow2 (53 + j)); [assumption|].
      now apply Qle_trans with (pow2 (ilog2 q)). }
    pose proof (pow2_pos c) as Hpc.
    pose proof (pow2_split c j Hc) as Hsplit.
    set (S := (2 ^ (j - c))%Z) in *.
    set (r := round_half_even (q / pow2 c)).
    assert (Hr1 : (A * S <= r)%Z).
    { apply round_half_even_ge. apply Qle_shift_div_l; [exact Hpc|].
      rewrite inject_Z_mult, <- Qmult_assoc, <- Hsplit. exact HA. }
    assert (Hr2 : (r <= B * S)%Z).
    { apply round_half_even_le. apply Qle_shift_div_r; [exact Hpc|].
      rewrite inject_Z_mult, <- Qmult_assoc, <- Hsplit. exact HB. }
    assert (Hv1 : inject_Z A * pow2 j <= inject_Z r * pow2 c).
    { rewrite Hsplit, Qmult_assoc, <- inject_Z_mult.
      apply Qmult_le_compat_r; [|now apply Qlt_le_weak]. now rewrite <- Zle_Qle. }
    assert (Hv2 : inject_Z r * pow2 c <= inject_Z B * pow2 j).
    { rewrite Hsplit, Qmult_assoc, <- inject_Z_mult.
      apply Qmult_le_compat_r; [|now apply Qlt_le_weak]. now rewrite <- Zle_Qle. }
    assert (Hfin : Qle_bool (pow2 1024) (inject_Z r * pow2 c) = false).
    { destruct (Qle_bool (pow2 1024) (inject_Z r * pow2 c)) eqn:F; [|reflexivity].
      apply Qle_bool_iff in F. exfalso.
      assert (inject_Z B * pow2 j < pow2 1024).
      { apply Qlt_le_trans with (pow2 (53 + j)); [|apply pow2_le; lia].
        rewrite (pow2_split j (53 + j) ltac:(lia)).
        replace (53 + j - j)%Z with 53%Z by lia.
        apply Qmult_lt_compat_r; [exact Hpj|]. now rewrite <- Zlt_Qlt. }
      apply (Qlt_irrefl (pow2 1024)).
      apply Qle_lt_trans with (inject_Z B * pow2 j); [|assumption].
      now apply Qle_trans with (inject_Z r * pow2 c). }
    rewrite Hfin. eexists. split; [reflexivity|]. rewrite Qred_correct. now split.
Qed.

(** The same for two integers. *)
Lemma round64_between_ints q A B :
  inject_Z A <= q -> q <= inject_Z B -> (0 <= A)%Z -> (B < 2 ^ 53)%Z ->
  exists v, round64 q = Finite v /\ inject_Z A <= v /\ v <= inject_Z B.
Proof.
  intros HA HB HA0 HB53.
  destruct (round64_between q A B 0) as (v & E & H1 & H2);
    try (change (pow2 0) with 1; rewrite Qmult_1_r); try assumption; try lia.
  exists v. change (pow2 0) with 1 in H1, H2. rewrite Qmult_1_r in H1, H2. by repeat split.
Qed.

(** An [int] below [2 ** 53] is a float. *)
Lemma int_to_float_exact z :
  (0 <= z)%Z -> (z < 2 ^ 53)%Z -> exists v, int_to_float z = Ret v /\ v == inject_Z z.
Proof.
  intros H0 H53. unfold int_to_float.
  destruct (round64_between_ints (inject_Z z) z z) as (v & -> & H1 & H2);
    try apply Qle_refl; try assumption.
  exists v. split; [reflexivity|]. by apply Qle_antisym.
Qed.

End Rounding.

(** ** The sleep of line 264 *)

(** Between bounds that are floats [random.uniform] returns a float between them. *)
Lemma uniform_between a b u :
  (0 <= a)%Z -> (a <= b)%Z -> (b < 2 ^ 53)%Z -> (0 <= u)%Q -> (u <= 1)%Q ->
  exists d, uniform a b u = Ret (Finite d) /\ (inject_Z a <= d)%Q /\ (d <= inject_Z b)%Q.
Proof.
  intros Ha Hab Hb Hu0 Hu1. unfold uniform.
  destruct (int_to_float_exact (b - a)) as (wd & -> & Hwd); [lia|lia|].
  destruct (int_to_float_exact a) as (st & -> & Hst); [lia|lia|].
  cbn [mbind outcome_bind mret outcome_ret]. unfold fmul.
  assert (Hw0 : (0 <= wd)%Q).
  { rewrite Hwd. change 0%Q with (inject_Z 0). rewrite <- Zle_Qle. lia. }
  destruct (round64_between_ints (wd * u) 0 (b - a)) as (p & -> & Hp0 & Hp1); [| |lia|lia|].
  { by apply Qmult_le_0_compat. }
  { rewrite <- Hwd. rewrite <- (Qmult_1_r wd) at 2.
    rewrite (Qmult_comm wd u), (Qmult_comm wd 1). by apply Qmult_le_compat_r. }
  cbn [fadd].
  destruct (round64_between_ints (st + p) a b) as (d & -> & Hd0 & Hd1); [| |lia|lia|].
  { rewrite Hst. rewrite <- (Qplus_0_r (inject_Z a)) at 1. by apply Qplus_le_r. }
  { rewrite Hst. apply Qle_trans with (inject_Z a + inject_Z (b - a))%Q.
    - by apply Qplus_le_r.
    - rewrite <- inject_Z_plus, <- Zle_Qle. lia. }
  by exists d.
Qed.

(** [time.sleep] accepts a length from 0 to [SHORT_SLEEP] and sleeps it. *)
Lemma sleep_seconds_short env d :
  (0 <= d)%Q -> (d <= SHORT_SLEEP)%Q -> sleep_seconds env (Finite d) = Ret d.
Proof.
  intros H0 H1. unfold sleep_seconds, fmul.
  destruct (round64_between_ints (d * inject_Z (10 ^ 9)) 0 (10 ^ 15)) as (ns & -> & Hn0 & Hn1);
    [| |lia|lia|].
  { apply Qmult_le_0_compat; [exact H0|done]. }
  { change (inject_Z (10 ^ 15)) with (SHORT_SLEEP * inject_Z (10 ^ 9))%Q.
    by apply Qmult_le_compat_r. }
  unfold round_away.
  assert (Qle_bool 0 ns = true) as -> by by apply Qle_bool_iff.
  pose proof (Qceiling_resp_le _ _ Hn0) as Hc0.
  pose proof (Qceiling_resp_le _ _ Hn1) as Hc1.
  rewrite Qceiling_Z in Hc0, Hc1.
  set (t := Qceiling ns) in *.
  assert ((t <? - 2 ^ 63)%Z = false) as -> by (apply Z.ltb_ge; lia).
  assert ((t <? 0)%Z = false) as -> by (apply Z.ltb_ge; lia).
  assert ((2 ^ 63 <? t)%Z = false) as -> by (apply Z.ltb_ge; lia).
  assert (Qle_bool d SHORT_SLEEP = true) as -> by by apply Qle_bool_iff.
  reflexivity.
Qed.

(** With poll bounds from 0 to a million seconds the sleep of line 264
    takes place, and its length lies between the bounds. *)
Lemma sleep_request_between env :
  (0 <= POLL_INTERVAL_MIN cfg)%Z ->
  (POLL_INTERVAL_MIN cfg <= POLL_INTERVAL_MAX cfg)%Z ->
  (POLL_INTERVAL_MAX cfg <= 10 ^ 6)%Z ->
  (0 <= random_draw env)%Q -> (random_draw env <= 1)%Q ->
  exists d, sleep_request env = Ret d
            /\ (inject_Z (POLL_INTERVAL_MIN cfg) <= d)%Q
            /\ (d <= inject_Z (POLL_INTERVAL_MAX cfg))%Q.
Proof.
  intros Ha Hab Hb Hu0 Hu1. unfold sleep_request, sleep_argument.
  destruct (uniform_between (POLL_INTERVAL_MIN cfg) (POLL_INTERVAL_MAX cfg) (random_draw env))
    as (d & -> & Hd0 & Hd1); try assumption; [lia|].
  cbn [mbind outcome_bind]. exists d. split; [|by split].
  apply sleep_seconds_short.
  - apply Qle_trans with (inject_Z (POLL_INTERVAL_MIN cfg)); [|exact Hd0].
    change 0%Q with (inject_Z 0). by rewrite <- Zle_Qle.
  - apply Qle_trans with (inject_Z (POLL_INTERVAL_MAX cfg)); [exact Hd1|].
    unfold SHORT_SLEEP. by rewrite <- Zle_Qle.
Qed.

(** ** The main loop *)

(** C3: whatever exception the [try] block of an iteration raises, one of
    the three [except] clauses catches it and logs one line, tagged HTTP
    error, network exception or unknown exception by the class of the
    exception.  When [time.sleep] accepts the length drawn at line 264, the
    iteration then sleeps that length and the loop goes on with the next
    iteration.  The loop is left in two ways only: with the stop flag set,
    which only a termination signal does, or by the exception the sleep
    statement of line 264 raises, which stands outside the [try].  With
    poll bounds from 0 to a million seconds, the lower not above the upper,
    the sleep is accepted, its length lies between the bounds, and no
    exception leaves the loop. *)
Theorem C3_loop_survives_exceptions :
  (forall (body : M unit) w e w1,
      body w = (Raise e, w1) ->
      try_except body loop_handlers w = (Ret tt, add_console (warn_line (categorize e) e) w1))
  /\ (forall msg,
      categorize (mkExn HTTPError msg) = HttpError
      /\ categorize (mkExn ConnectionError msg) = NetworkException
      /\ categorize (mkExn Timeout msg) = NetworkException
      /\ categorize (mkExn RequestsJSONDecodeError msg) = NetworkException
      /\ categorize (mkExn RequestException msg) = NetworkException
      /\ categorize (mkExn JSONDecodeError msg) = UnknownException
      /\ categorize (mkExn TypeError msg) = UnknownException
      /\ categorize (mkExn AttributeError msg) = UnknownException
      /\ categorize (mkExn OSError msg) = UnknownException)
  /\ (forall env rest w e w1 d,
      stop_flag w = false ->
      cycle env w = (Raise e, w1) ->
      sleep_request env = Ret d ->
      let w2 := slept_world env d (add_console (warn_line (categorize e) e) w1) in
      iteration env w = (Ret tt, w2)
      /\ console w2 = console w1 ++ warn_line (categorize e) e ::
                        (if signal_during_sleep env
                         then [INTERRUPT_LINE] else [])
      /\ sleeps w2 = sleeps w1 ++ [d]
      /\ while_loop (env :: rest) w = while_loop rest w2)
  /\ (forall envs w w',
      stop_flag w = false ->
      while_loop envs w = (Exited, w') ->
      stop_flag w' = true /\ exists env, env ∈ envs /\ signal_during_sleep env = true)
  /\ (forall envs w e w',
      while_loop envs w = (Crashed e, w') ->
      exists env, env ∈ envs /\ sleep_request env = Raise e)
  /\ (forall envs w,
      (0 <= POLL_INTERVAL_MIN cfg)%Z ->
      (POLL_INTERVAL_MIN cfg <= POLL_INTERVAL_MAX cfg)%Z ->
      (POLL_INTERVAL_MAX cfg <= 10 ^ 6)%Z ->
      Forall (fun env => (0 <= random_draw env)%Q /\ (random_draw env <= 1)%Q) envs ->
      Forall (fun env => exists d, sleep_request env = Ret d
                                   /\ (inject_Z (POLL_INTERVAL_MIN cfg) <= d)%Q
                                   /\ (d <= inject_Z (POLL_INTERVAL_MAX cfg))%Q) envs
      /\ forall e w', while_loop envs w <> (Crashed e, w')).
Proof.
  assert (Hcrash : forall envs w e w',
      while_loop envs w = (Crashed e, w') ->
      exists env, env ∈ envs /\ sleep_request env = Raise e).
  { induction envs as [|env rest IH]; intros w e w' H; simpl in H.
    - destruct (stop_flag w); discriminate.
    - destruct (stop_flag w); [discriminate|].
      destruct (iteration env w) as [[[]|e0] w1] eqn:Hit.
      + destruct (IH w1 e w' H) as (env' & Hin & Hd).
        exists env'. split; [by right|done].
      + injection H as <- <-. exists env. split; [left|].
        exact (iteration_raises env w e0 w1 Hit). }
  split; [exact loop_handlers_catch|]. split; [exact categorize_table|].
  split; [|split; [|split; [exact Hcrash|]]].
  - intros env rest w e w1 d Hstop Hc Hd w2.
    assert (iteration env w = (Ret tt, w2)) as Hit.
    { unfold iteration. rewrite (iteration_of_eq env _ w _ (loop_handlers_catch _ _ _ _ Hc)).
      by apply sleep_statement_ok. }
    split; [exact Hit|]. split; [|split].
    + unfold w2, slept_world. destruct (signal_during_sleep env); simpl.
      * by rewrite <- app_assoc.
      * done.
    + unfold w2, slept_world. by destruct (signal_during_sleep env).
    + simpl. by rewrite Hstop, Hit.
  - induction envs as [|env rest IH]; intros w w' Hstop H; simpl in H; rewrite Hstop in H.
    + discriminate.
    + destruct (iteration env w) as [[[]|e] w1] eqn:Hit; [|discriminate].
      destruct (stop_flag w1) eqn:Hs1.
      * assert (stop_flag w' = true) as Hw'.
        { destruct rest; simpl in H; rewrite Hs1 in H; by injection H as <-. }
        split; [exact Hw'|]. exists env. split; [left|].
        pose proof (iteration_view env w) as (_ & _ & Hsig). unfold run in Hsig.
        rewrite Hit in Hsig. simpl in Hsig. destruct (Hsig Hs1); congruence.
      * destruct (IH w1 w' Hs1 H) as [Hw' (env' & Hin & Hsig)].
        split; [exact Hw'|]. exists env'. split; [by right|done].
  - intros envs w Ha Hab Hb Hdraws.
    assert (Hall : Forall (fun env => exists d, sleep_request env = Ret d
                                   /\ (inject_Z (POLL_INTERVAL_MIN cfg) <= d)%Q
                                   /\ (d <= inject_Z (POLL_INTERVAL_MAX cfg))%Q) envs).
    { eapply Forall_impl; [exact Hdraws|]. intros env [Hu0 Hu1].
      by apply sleep_request_between. }
    split; [exact Hall|]. intros e w' H.
    destruct (Hcrash envs w e w' H) as (env & Hin & Hd).
    rewrite Forall_forall in Hall. destruct (Hall env Hin) as (d & Hr & _).
    congruence.
Qed.

(** ** The parser, beyond the claims *)

Lemma parse_stores_cons s rest :
  parse_stores (s :: rest) =
    match parse_store s with
    | Ret r =>
        match parse_stores rest with
        | Ret out => Ret (r :: out)
        | Raise e => Raise e
        end
    | Raise e => Raise e
    end.
Proof. reflexivity. Qed.

(** X1: the loop of lines 154-163 returns a list exactly when every store
    entry parses, and then it holds one record per entry, in the order of
    the entries, each built from its own entry alone. *)
Theorem X1_parse_stores_aligned stores res :
  parse_stores stores = Ret res <-> Forall2 (fun s r => parse_store s = Ret r) stores res.
Proof.
  revert res. induction stores as [|s rest IH]; intros res.
  - split.
    + intros H. injection H as <-. constructor.
    + intros H. inversion H. reflexivity.
  - rewrite parse_stores_cons. split.
    + destruct (parse_store s) as [r|e] eqn:E; [|discriminate].
      destruct (parse_stores rest) as [out|e] eqn:E2; [|discriminate].
      intros H. injection H as <-. constructor; [done|]. by apply IH.
    + intros H. inversion H as [|? r ? out Hs Hrest]; subst.
      rewrite Hs. apply IH in Hrest. by rewrite Hrest.
Qed.

Lemma parse_stores_error stores e :
  parse_stores stores = Raise e ->
  exists pre s post,
    stores = pre ++ s :: post
    /\ Forall (fun s' => exists r, parse_store s' = Ret r) pre
    /\ parse_store s = Raise e.
Proof.
  induction stores as [|s rest IH]; [discriminate|].
  rewrite parse_stores_cons.
  destruct (parse_store s) as [r|e0] eqn:E.
  - destruct (parse_stores rest) as [out|e1] eqn:E2; [discriminate|].
    intros H. injection H as ->.
    destruct (IH eq_refl) as (pre & s0 & post & -> & Hpre & Hs0).
    exists (s :: pre), s0, post. split; [done|]. split; [|done].
    constructor; [by exists r|done].
  - intros H. injection H as ->. exists [], s, rest. by repeat split.
Qed.

(** X2: the loop raises exactly when some entry does, and then with the
    exception of the first such entry: one malformed entry discards the
    records of all the others. *)
Theorem X2_parse_stores_first_error stores e :
  parse_stores stores = Raise e <->
  exists pre s post,
    stores = pre ++ s :: post
    /\ Forall (fun s' => exists r, parse_store s' = Ret r) pre
    /\ parse_store s = Raise e.
Proof.
  split; [apply parse_stores_error|].
  intros (pre & s & post & -> & Hpre & Hs).
  induction Hpre as [|s0 pre [r Hr] _ IH]; cbn [app]; rewrite parse_stores_cons.
  - by rewrite Hs.
  - by rewrite Hr, IH.
Qed.

Lemma py_get_raises v k d e : py_get v k d = Raise e -> exn_cls e = AttributeError.
Proof. destruct v; simpl; intros H; try discriminate; by injection H as <-. Qed.

(** Take the next [get] of a parse apart; a raising one closes the goal with [tac]. *)
Ltac next_get H tac :=
  match type of H with
  | context [py_get ?v ?k ?d] =>
      let E := fresh "E" in
      destruct (py_get v k d) eqn:E; cbn [mbind outcome_bind mret outcome_ret] in H;
      [|tac E]
  end.

Lemma parse_store_raises s e : parse_store s = Raise e -> exn_cls e = AttributeError.
Proof.
  intros H. unfold parse_store in H. cbn [mbind outcome_bind mret outcome_ret] in H.
  repeat next_get H ltac:(fun E => injection H as <-; exact (py_get_raises _ _ _ _ E)).
  destruct (truthy _); cbn [mbind outcome_bind mret outcome_ret] in H; [discriminate|].
  repeat next_get H ltac:(fun E => injection H as <-; exact (py_get_raises _ _ _ _ E)).
  discriminate.
Qed.

(** X3: a decoded reply of the wrong shape makes the parser raise
    [AttributeError] (a [get] on something that is not an object) or
    [TypeError] (a store list that cannot be iterated), nothing else; the
    main loop files both under unknown exception. *)
Theorem X3_parse_errors_are_unknown data e :
  parse_response data = Raise e ->
  (exn_cls e = AttributeError \/ exn_cls e = TypeError)
  /\ categorize e = UnknownException.
Proof.
  intros H.
  assert (exn_cls e = AttributeError \/ exn_cls e = TypeError) as Hc.
  { unfold parse_response in H. cbn [mbind outcome_bind] in H.
    destruct (py_get data "body" (PDict [])) as [body|e0] eqn:E1;
      cbn [mbind outcome_bind] in H;
      [|injection H as <-; left; exact (py_get_raises _ _ _ _ E1)].
    destruct (py_get body "stores" (PList [])) as [stores|e0] eqn:E2;
      cbn [mbind outcome_bind] in H;
      [|injection H as <-; left; exact (py_get_raises _ _ _ _ E2)].
    destruct (py_iter (py_or stores (PList []))) as [items|e0] eqn:E3;
      cbn [mbind outcome_bind] in H.
    - apply parse_stores_error in H as (pre & s & post & _ & _ & Hs).
      left. exact (parse_store_raises _ _ Hs).
    - injection H as <-. right.
      destruct (py_or stores (PList [])); simpl in E3; try discriminate;
        by injection E3 as <-. }
  split; [exact Hc|].
  destruct e as [c msg]. simpl in Hc. by destruct Hc as [-> | ->].
Qed.

(** X4: the quote of a parsed record is never [None]: it is a truthy
    value taken from the reply, or the empty string. *)
Theorem X4_quote_never_null s r :
  parse_store s = Ret r ->
  truthy (quote r) = true \/ quote r = PStr EmptyString.
Proof.
  intros H. unfold parse_store in H. cbn [mbind outcome_bind mret outcome_ret] in H.
  repeat next_get H ltac:(fun E => discriminate).
  match type of H with
  | context [truthy ?q] => destruct (truthy q) eqn:T
  end; cbn [mbind outcome_bind mret outcome_ret] in H.
  - injection H as <-. by left.
  - repeat next_get H ltac:(fun E => discriminate).
    injection H as <-. simpl. unfold py_or.
    match goal with
    | |- context [if truthy ?q then _ else _] => destruct (truthy q) eqn:T2
    end; [by left|by right].
Qed.

(** X5: for a store entry with availability data for the SKU,
    [pickupDisplay] is passed on as it is, and the quote is the store
    pickup quote when there is one, otherwise the pickup search quote when
    there is one, otherwise the empty string. *)
Theorem X5_quote_precedence fields parts pa :
  dict_lookup fields "partsAvailability" = Some (PDict parts) ->
  dict_lookup parts (SKU cfg) = Some (PDict pa) ->
  let found q r := parse_store (PDict fields) = Ret r
                   /\ pickupDisplay r = default PNone (dict_lookup pa "pickupDisplay")
                   /\ quote r = q in
  (forall mt reg q,
      dict_lookup pa "messageTypes" = Some (PDict mt) ->
      dict_lookup mt "regular" = Some (PDict reg) ->
      dict_lookup reg "storePickupQuote" = Some q -> truthy q = true ->
      exists r, found q r)
  /\ (forall q,
      missing_or_null (dict_lookup pa "messageTypes") ->
      dict_lookup pa "pickupSearchQuote" = Some q -> truthy q = true ->
      exists r, found q r)
  /\ (missing_or_null (dict_lookup pa "messageTypes") ->
      missing_or_null (dict_lookup pa "pickupSearchQuote") ->
      exists r, found (PStr EmptyString) r).
Proof.
  intros Hparts Hpa found.
  assert (Hor : forall kvs, py_or (PDict kvs) (PDict []) = PDict kvs).
  { intros kvs. unfold py_or. by destruct kvs. }
  assert (Hnull : forall o, missing_or_null o -> default PNone o = PNone).
  { by intros o [-> | ->]. }
  assert (Hstart :
             parse_store (PDict fields) =
             (pickup ← py_get (PDict pa) "pickupDisplay" PNone;
              message_types ← py_get (PDict pa) "messageTypes" PNone;
              regular ← py_get (py_or message_types (PDict [])) "regular" PNone;
              pickup_quote ← py_get (py_or regular (PDict [])) "storePickupQuote" PNone;
              the_quote ← (if truthy pickup_quote then mret pickup_quote
                           else search_quote ← py_get (PDict pa) "pickupSearchQuote" PNone;
                                mret (py_or search_quote (PStr EmptyString)));
              mret (mkRecord (default PNone (dict_lookup fields "storeNumber"))
                             (default PNone (dict_lookup fields "storeName"))
                             (default PNone (dict_lookup fields "city"))
                             pickup the_quote))).
  { unfold parse_store. cbn [py_get mbind outcome_bind]. rewrite Hparts.
    cbn [from_option id]. rewrite Hor. cbn [py_get mbind outcome_bind]. rewrite Hpa.
    cbn [from_option id]. rewrite Hor. reflexivity. }
  unfold found. rewrite Hstart. cbn [py_get mbind outcome_bind].
  split; [|split].
  - intros mt reg q Hmt Hreg Hq Tq. eexists.
    rewrite Hmt. cbn [from_option id]. rewrite Hor. cbn [py_get mbind outcome_bind].
    rewrite Hreg. cbn [from_option id]. rewrite Hor. cbn [py_get mbind outcome_bind].
    rewrite Hq. cbn [from_option id]. rewrite Tq. by repeat split.
  - intros q Hmt Hq Tq. eexists.
    rewrite (Hnull _ Hmt). cbn. rewrite Hq. cbn [from_option id]. unfold py_or. rewrite Tq.
    by repeat split.
  - intros Hmt Hq. eexists.
    rewrite (Hnull _ Hmt). cbn. rewrite (Hnull _ Hq). by repeat split.
Qed.

(** ** The detector, for any fetched list *)

Lemma notified_refl w : notified w w [] [].
Proof.
  unfold notified, keeps_keys. rewrite !app_nil_r. repeat split; try done; simpl; lia.
Qed.

Lemma notified_trans w1 w2 w3 ps posts ps' posts' :
  notified w1 w2 ps posts -> notified w2 w3 ps' posts' ->
  notified w1 w3 (ps ++ ps') (posts ++ posts').
Proof.
  intros (A1 & A2 & A3 & A4 & A5 & A6 & A7 & A8 & A9)
         (B1 & B2 & B3 & B4 & B5 & B6 & B7 & B8 & B9).
  unfold notified, keeps_keys in *. rewrite !app_assoc, <- A5, <- A7.
  repeat split; try congruence.
  - by apply Forall_app.
  - rewrite !length_app. lia.
  - auto.
Qed.

(** Line 251 makes the requests of one call of [bark_send], all of them
    to the configured endpoint, and never raises. *)
Lemma notify_effects env sid title body w :
  exists w',
    notify env sid title body w = (Ret tt, w')
    /\ exists posts,
         notified w w' [mkPush sid title body (Some PRODUCT_URL)] posts
         /\ last_flags w' = last_flags w.
Proof.
  unfold notify, mbind, M_bind, modify.
  destruct bark_endpoint as [ep|] eqn:E.
  - rewrite (bark_send_configured _ _ _ _ _ _ E).
    eexists. split; [reflexivity|]. eexists [_].
    unfold notified, keeps_keys. cbn. repeat split; try done.
    + constructor; [|constructor]. unfold well_addressed. cbn. by rewrite E.
    + unfold posts_per_push. rewrite E. reflexivity.
  - rewrite (bark_send_unconfigured _ _ _ _ _ E).
    eexists. split; [reflexivity|]. exists [].
    unfold notified, keeps_keys. cbn. rewrite app_nil_r. repeat split; try done.
    unfold posts_per_push. rewrite E. reflexivity.
Qed.

Lemma set_flags_notified w k b : notified w (set_flags (<[k := b]> (last_flags w)) w) [] [].
Proof.
  unfold notified, keeps_keys. cbn. rewrite !app_nil_r.
  repeat split; try done; try (simpl; lia).
  intros k' H. apply lookup_insert_is_Some'. by right.
Qed.

(** One step of the loop over [res], whatever the record. *)
Lemma process_record_effects env ts_utc ts_kr rows r w :
  exists ps posts,
    notified w (run (process_record env ts_utc ts_kr rows r) w) ps posts
    /\ (is_available r = false -> ps = []).
Proof.
  unfold run.
  destruct (hash_key (record_sid r)) as [k|e] eqn:Hk.
  - destruct (notify_effects env (record_sid r) (push_title r) (push_body ts_kr r) w)
      as (w1 & Hn & posts & Hw1 & Hfl).
    unfold process_record, flags_get, flags_set. unfold_monad. rewrite Hk.
    destruct (is_available r); cbn -[notify].
    + destruct (negb (default false (last_flags w !! k))); cbn -[notify].
      * rewrite Hn. cbn -[notified].
        exists ([mkPush (record_sid r) (push_title r) (push_body ts_kr r) (Some PRODUCT_URL)]
                  ++ []), (posts ++ []).
        split; [|done].
        eapply notified_trans; [exact Hw1|]. apply set_flags_notified.
      * exists [], []. split; [|done]. apply set_flags_notified.
    + exists [], []. split; [|done]. apply set_flags_notified.
  - rewrite (process_record_unhashable _ _ _ _ _ _ _ Hk). exists [], [].
    split; [apply notified_refl|done].
Qed.

Lemma process_records_effects env ts_utc ts_kr res rows w :
  exists ps posts,
    notified w (run (process_records env ts_utc ts_kr rows res) w) ps posts
    /\ (Forall (fun r => is_available r = false) res -> ps = []).
Proof.
  revert rows w. induction res as [|r rest IH]; intros rows w.
  - exists [], []. split; [apply notified_refl|done].
  - destruct (process_record_effects env ts_utc ts_kr rows r w) as (ps & posts & H1 & Hq1).
    unfold run in *. rewrite process_records_cons.
    destruct (process_record env ts_utc ts_kr rows r w) as [[rows'|e] w1]; simpl in *.
    + destruct (IH rows' w1) as (ps' & posts' & H2 & Hq2).
      exists (ps ++ ps'), (posts ++ posts'). split; [by eapply notified_trans|].
      intros Hall. inversion Hall; subst. by rewrite Hq1, Hq2.
    + exists ps, posts. split; [done|]. intros Hall. inversion Hall; subst. by apply Hq1.
Qed.

(** A loop that runs to its end has met hashable identifiers only, and
    returns the rows of the available records. *)
Lemma process_records_returns env ts_utc ts_kr res rows w rows' w' :
  process_records env ts_utc ts_kr rows res w = (Ret rows', w') ->
  Forall (fun r => is_Some (record_key r)) res
  /\ rows' = rows ++ available_rows ts_utc ts_kr res.
Proof.
  revert rows w. induction res as [|r rest IH]; intros rows w H.
  - injection H as <- <-. split; [constructor|]. unfold available_rows. by rewrite app_nil_r.
  - rewrite process_records_cons in H.
    destruct (hash_key (record_sid r)) as [k|e] eqn:Hk.
    + destruct (process_record_keyed env ts_utc ts_kr rows r w k Hk) as (w1 & E & _).
      rewrite E in H. destruct (IH _ _ H) as [Hall ->].
      split; [constructor; [exists k; by apply record_key_Some|done]|].
      rewrite <- app_assoc. f_equal. unfold available_rows. simpl.
      by destruct (is_available r).
    + by rewrite (process_record_unhashable _ _ _ _ _ _ _ Hk) in H.
Qed.

Lemma hit_line_of ts_utc ts_kr r :
  is_available r = true -> hit_line (csv_row_of ts_utc ts_kr r).
Proof.
  intros H. apply is_available_spec in H. eexists. split; [reflexivity|].
  repeat split. simpl. by rewrite H.
Qed.

Lemma hit_lines_of ts_utc ts_kr res :
  Forall hit_line (map (csv_row_of ts_utc ts_kr) (List.filter is_available res)).
Proof.
  apply Forall_map, Forall_forall. intros r Hin.
  apply list_elem_of_In, filter_In in Hin as [_ Hin]. by apply hit_line_of.
Qed.

Lemma available_rows_none ts_utc ts_kr res :
  Forall (fun r => is_available r = false) res -> available_rows ts_utc ts_kr res = [].
Proof.
  unfold available_rows. induction 1 as [|r rest Hr _ IH]; [done|].
  simpl. by rewrite Hr.
Qed.

(** What lines 237-254 do to the world, for any list [res]. *)
Lemma detect_and_log_effects env ts_utc ts_kr res w :
  let w' := run (detect_and_log env ts_utc ts_kr res) w in
  exists ps posts hits,
    http_gets w' = http_gets w /\ sleeps w' = sleeps w /\ stop_flag w' = stop_flag w
    /\ http_posts w' = http_posts w ++ posts /\ Forall well_addressed posts
    /\ pushes w' = pushes w ++ ps /\ length posts = posts_per_push * length ps
    /\ keeps_keys w w'
    /\ csv_file w' = match hits with [] => csv_file w | _ :: _ => Some (file_lines w ++ hits) end
    /\ Forall hit_line hits
    /\ (Forall (fun r => is_available r = false) res -> ps = [] /\ hits = [])
    /\ (forall e, fst (detect_and_log env ts_utc ts_kr res w) = Raise e -> hits = []).
Proof.
  intros w'. unfold w', run, detect_and_log, mbind, M_bind.
  destruct (process_records_effects env ts_utc ts_kr res [] w)
    as (ps & posts & (A1 & A2 & A3 & A4 & A5 & A6 & A7 & A8 & A9) & Hq).
  unfold run in *.
  destruct (process_records env ts_utc ts_kr [] res w) as [[rows|e] w1] eqn:E; simpl in *.
  - destruct (process_records_returns _ _ _ _ _ _ _ _ E) as [_ ->]. cbn [app].
    pose proof (hit_lines_of ts_utc ts_kr res) as Hhits.
    rewrite <- csv_rows_of_available in Hhits.
    pose proof (available_rows_none ts_utc ts_kr res) as Hnone.
    destruct (available_rows ts_utc ts_kr res) as [|row rows].
    + exists ps, posts, []. simpl. repeat split; try done; auto.
    + exists ps, posts, (map (fun x => CsvRow (row_cells x)) (row :: rows)).
      cbn. unfold file_lines. rewrite <- A2.
      repeat split; try done; auto.
      match goal with H : Forall _ res |- _ => by specialize (Hnone H) end.
  - exists ps, posts, []. repeat split; try done; auto.
Qed.

(** What the [try] block does to the world, whatever the environment answers. *)
Lemma cycle_effects env w :
  let w' := run (cycle env) w in
  exists ps posts hits,
    http_gets w' = http_gets w ++ [APPLE_API_URL]
    /\ sleeps w' = sleeps w /\ stop_flag w' = stop_flag w
    /\ http_posts w' = http_posts w ++ posts /\ Forall well_addressed posts
    /\ pushes w' = pushes w ++ ps /\ length posts = posts_per_push * length ps
    /\ keeps_keys w w'
    /\ csv_file w' = match hits with [] => csv_file w | _ :: _ => Some (file_lines w ++ hits) end
    /\ Forall hit_line hits
    /\ ((forall res, fetches env res -> Forall (fun r => is_available r = false) res) ->
        ps = [] /\ hits = [])
    /\ (forall e, fst (cycle env w) = Raise e -> hits = []).
Proof.
  intros w'. unfold w', run.
  destruct (fetch_cases env w) as [(resp & res & Hg & Hf & E)|(e & lines & E)].
  - destruct (cycle_fetches env res w Hf) as (resp' & Hg' & Hc). rewrite Hc.
    assert (resp' = resp) as -> by congruence.
    destruct (detect_and_log_effects env (now_utc env) (now_kr env) res
                (detect_start env resp res w))
      as (ps & posts & hits & B1 & B2 & B3 & B4 & B5 & B6 & B7 & B8 & B9 & B10 & B11 & B12).
    unfold run in *. exists ps, posts, hits.
    repeat split; try done;
      match goal with
      | H : forall res, fetches env res -> _ |- _ => by destruct (B11 (H res Hf))
      end.
  - unfold cycle, mbind, M_bind. rewrite E. exists [], [], []. cbn.
    rewrite !app_nil_r. repeat split; try done; try (simpl; lia); auto.
    by intros k Hk.
Qed.

(** What one pass through the body of the [while] loop does to the world. *)
Lemma iteration_effects env w :
  let w' := run (iteration env) w in
  exists ps posts hits,
    http_gets w' = http_gets w ++ [APPLE_API_URL]
    /\ http_posts w' = http_posts w ++ posts /\ Forall well_addressed posts
    /\ pushes w' = pushes w ++ ps /\ length posts = posts_per_push * length ps
    /\ keeps_keys w w'
    /\ csv_file w' = match hits with [] => csv_file w | _ :: _ => Some (file_lines w ++ hits) end
    /\ Forall hit_line hits
    /\ ((forall res, fetches env res -> Forall (fun r => is_available r = false) res) ->
        ps = [] /\ hits = [])
    /\ match sleep_request env with
       | Ret d => fst (iteration env w) = Ret tt
                  /\ sleeps w' = sleeps w ++ [d]
                  /\ stop_flag w' = stop_flag w || signal_during_sleep env
       | Raise e => fst (iteration env w) = Raise e
                    /\ sleeps w' = sleeps w /\ stop_flag w' = stop_flag w
       end.
Proof.
  intros w'. unfold w', run, iteration.
  destruct (cycle_effects env w)
    as (ps & posts & hits & B1 & B2 & B3 & B4 & B5 & B6 & B7 & B8 & B9 & B10 & B11 & _).
  exists ps, posts, hits.
  assert (exists lines,
             try_except (cycle env) loop_handlers w =
               (Ret tt, add_lines lines (run (cycle env) w))) as (lines & E).
  { destruct (guarded_cases (cycle env) w) as [[_ E]|(e0 & _ & E)].
    - exists []. by rewrite add_lines_nil.
    - by exists [warn_line (categorize e0) e0]. }
  remember (run (cycle env) w) as wc eqn:Hwc. clear Hwc.
  rewrite (iteration_of_eq _ _ _ _ E).
  destruct (sleep_request env) as [d|e] eqn:D.
  - rewrite (sleep_statement_ok _ _ _ D). unfold slept_world.
    destruct (signal_during_sleep env); cbn;
      rewrite ?orb_true_r, ?orb_false_r, ?B2; repeat split; try done;
      match goal with H : forall res, fetches env res -> _ |- _ => by destruct (B11 H) end.
  - rewrite (sleep_statement_raises _ _ _ D). cbn. repeat split; try done;
      match goal with H : forall res, fetches env res -> _ |- _ => by destruct (B11 H) end.
Qed.

(** A property of the world kept by every iteration, and not affected by
    the last line [main] prints, holds when [while_loop] stops. *)
Lemma while_loop_invariant (P : world -> Prop) :
  (forall env w, P w -> P (run (iteration env) w)) ->
  (forall w, P w -> P (add_console EXIT_LINE w)) ->
  forall envs w, P w -> P (snd (while_loop envs w)).
Proof.
  intros Hit Hexit. induction envs as [|env rest IH]; intros w Hw; simpl.
  - destruct (stop_flag w); simpl; [by apply Hexit|done].
  - destruct (stop_flag w); simpl; [by apply Hexit|].
    pose proof (Hit env w Hw) as H. unfold run in H.
    destruct (iteration env w) as [[[]|e] w1]; simpl in *; [by apply IH|done].
Qed.

(** Lines 196-205 print the banner and make sure the log file exists;
    the write of the header, where there is one, is taken to succeed. *)
Lemma startup_effects w :
  exists w',
    startup w = (Ret tt, w')
    /\ console w' = console w ++ banner bark_mode_line
    /\ csv_file w' = Some (default [CsvHeader LOG_COLUMNS] (csv_file w))
    /\ http_gets w' = http_gets w /\ http_posts w' = http_posts w
    /\ last_flags w' = last_flags w /\ stop_flag w' = stop_flag w
    /\ sleeps w' = sleeps w /\ pushes w' = pushes w.
Proof.
  unfold startup, banner, bark_mode_line, log2, log, ensure_log, path_exists, write_header.
  unfold_monad.
  destruct (nonempty (BARK_DEVICE_KEY cfg)); [|destruct (nonempty (BARK_PUSH_ENDPOINT cfg))];
    cbn -[APPLE_API_URL]; (destruct (csv_file w) as [ls|] eqn:F; cbn -[APPLE_API_URL];
    (eexists; split; [reflexivity|]; cbn -[APPLE_API_URL]; rewrite ?F, <- ?app_assoc;
     repeat split; done)).
Qed.

(** ** Replies of an unusual shape *)

(** X6: a reply that decodes to an object without ["body"], or whose
    body has no ["stores"] or a falsy one (null, an empty list), is taken
    as an empty store list: the cycle returns normally, prints the debug
    line and an empty status line, and changes nothing else. *)
Theorem X6_reply_without_stores env resp fields w :
  get_reply env = Ret resp -> status_ok resp = true ->
  json_body resp = Ret (PDict fields) ->
  (dict_lookup fields "body" = None
   \/ exists body,
        dict_lookup fields "body" = Some (PDict body)
        /\ forall v, dict_lookup body "stores" = Some v -> truthy v = false) ->
  parse_response (PDict fields) = Ret []
  /\ cycle env w =
       (Ret tt, add_lines [debug_line resp; "[" +:+ now_kr env +:+ "] "]
                          (add_get APPLE_API_URL w)).
Proof.
  intros Hg Hs Hj Hshape.
  assert (Hp : parse_response (PDict fields) = Ret []).
  { unfold parse_response. cbn [py_get mbind outcome_bind].
    destruct Hshape as [-> | (body & -> & Hstores)]; cbn [from_option id py_get mbind outcome_bind].
    - reflexivity.
    - destruct (dict_lookup body "stores") as [v|] eqn:E; cbn [from_option id]; [|reflexivity].
      unfold py_or. by rewrite (Hstores v eq_refl). }
  split; [exact Hp|].
  unfold cycle, mbind, M_bind. rewrite (fetch_returns _ _ _ _ _ Hg Hs Hj Hp).
  unfold detect_and_log, log, modify, mbind, M_bind, mret, M_ret. cbn [process_records append_log].
  unfold mret, M_ret, add_lines, fetched_world, add_console, add_get.
  cbn -[APPLE_API_URL debug_line]. by rewrite <- !app_assoc.
Qed.

(** X7: a reply whose ["body"] is present but not an object (null, for
    instance) is not tolerated: the [get] on it raises [AttributeError],
    which the loop reports as an unknown exception, and the iteration goes
    on to its sleep. *)
Theorem X7_body_not_an_object env resp fields v w :
  get_reply env = Ret resp -> status_ok resp = true ->
  json_body resp = Ret (PDict fields) ->
  dict_lookup fields "body" = Some v -> (forall kvs, v <> PDict kvs) ->
  parse_response (PDict fields) = Raise (no_attribute v "get")
  /\ try_except (cycle env) loop_handlers w =
       (Ret tt, add_lines [debug_line resp;
                           "[WARN] Unknown exception: '" +:+ type_name v
                             +:+ "' object has no attribute 'get'"]
                          (add_get APPLE_API_URL w)).
Proof.
  intros Hg Hs Hj Hb Hv.
  assert (Hp : parse_response (PDict fields) = Raise (no_attribute v "get")).
  { unfold parse_response. cbn [py_get mbind outcome_bind]. rewrite Hb.
    cbn [from_option id]. destruct v; try reflexivity. by destruct (Hv kvs). }
  split; [exact Hp|].
  assert (Hc : cycle env w = (Raise (no_attribute v "get"), fetched_world resp w)).
  { unfold cycle, mbind, M_bind. by rewrite (fetch_parse_failure _ _ _ _ _ Hg Hs Hj Hp). }
  rewrite (loop_handlers_catch _ _ _ _ Hc).
  assert (warn_line (categorize (no_attribute v "get")) (no_attribute v "get")
          = "[WARN] Unknown exception: '" +:+ type_name v
              +:+ "' object has no attribute 'get'") as -> by reflexivity.
  unfold add_lines, fetched_world, add_console, add_get.
  cbn -[APPLE_API_URL debug_line]. by rewrite <- !app_assoc.
Qed.

(** ** Failures in the middle of a cycle *)

(** X8: when the [try] block raises, nothing is written to the log file
    in that iteration, not even for stores found available (and notified)
    before the failure: the rows are appended only at the end of the block. *)
Theorem X8_failed_cycle_writes_nothing env w e w' :
  cycle env w = (Raise e, w') ->
  csv_file w' = csv_file w /\ csv_file (run (iteration env) w) = csv_file w.
Proof.
  intros H.
  destruct (cycle_effects env w) as (ps & posts & hits & _ & _ & _ & _ & _ & _ & _ & _ & B9 & _ & _ & B12).
  unfold run in *. rewrite H in *. simpl in *. rewrite (B12 e eq_refl) in B9.
  split; [exact B9|].
  unfold iteration. rewrite (iteration_of_eq _ _ _ _ (loop_handlers_catch _ _ _ _ H)).
  destruct (sleep_request env) as [d|e1] eqn:D.
  - rewrite (sleep_statement_ok _ _ _ D). unfold slept_world.
    by destruct (signal_during_sleep env).
  - by rewrite (sleep_statement_raises _ _ _ D).
Qed.

(** X9: a record whose identifier is a JSON array or object stops the
    loop over the fetched list with [TypeError]: the records before it
    have been handled (their flags set, their notifications sent), the
    records after it are never looked at, and no row of this cycle reaches
    the log file. *)
Theorem X9_unhashable_identifier_aborts_cycle env pre r post w :
  fetches env (pre ++ r :: post) ->
  Forall (fun r' => is_Some (record_key r')) pre ->
  record_key r = None ->
  exists resp e w1,
    get_reply env = Ret resp
    /\ hash_key (record_sid r) = Raise e /\ exn_cls e = TypeError
    /\ process_records env (now_utc env) (now_kr env) [] pre
         (detect_start env resp (pre ++ r :: post) w)
       = (Ret (available_rows (now_utc env) (now_kr env) pre), w1)
    /\ cycle env w = (Raise e, w1)
    /\ csv_file w1 = csv_file w.
Proof.
  intros Hf Hpre Hr.
  destruct (cycle_fetches env _ w Hf) as (resp & Hg & Hc).
  unfold record_key in Hr. destruct (hash_key (record_sid r)) as [|e] eqn:Hk; [done|].
  destruct (process_records_keyed env (now_utc env) (now_kr env) pre Hpre []
              (detect_start env resp (pre ++ r :: post) w))
    as (w1 & E1 & Hcsv & _).
  exists resp, e, w1. split; [done|]. split; [done|]. split.
  { destruct (record_sid r); simpl in Hk; try discriminate; by injection Hk as <-. }
  split; [exact E1|]. split; [|exact Hcsv].
  rewrite Hc. unfold detect_and_log, mbind, M_bind.
  rewrite process_records_app, E1, process_records_cons.
  by rewrite (process_record_unhashable _ _ _ _ _ _ _ Hk).
Qed.

(** ** The log file *)

(** X10: [append_log] does not write a header.  When the log file is
    missing at the time of a cycle (deleted while the monitor runs), a
    cycle without a hit does not create it, and a cycle with hits creates
    it with the rows of the hits only. *)
Theorem X10_missing_log_recreated_without_header env res w :
  csv_file w = None -> fetches env res ->
  Forall (fun r => is_Some (record_key r)) res ->
  csv_file (run (cycle env) w) =
    match List.filter is_available res with
    | [] => None
    | _ :: _ => Some (map (csv_row_of (now_utc env) (now_kr env)) (List.filter is_available res))
    end.
Proof.
  intros Hnone Hf Hk.
  destruct (cycle_fetches env res w Hf) as (resp & Hg & Hc).
  destruct (process_records_keyed env (now_utc env) (now_kr env) res Hk []
              (detect_start env resp res w))
    as (w1 & E1 & Hcsv & _).
  unfold run. rewrite Hc. unfold detect_and_log, mbind, M_bind. rewrite E1. cbn [app].
  rewrite <- csv_rows_of_available. cbn in Hcsv. rewrite Hnone in Hcsv.
  unfold available_rows.
  destruct (List.filter is_available res) as [|r hits]; cbn; [done|].
  by rewrite Hcsv.
Qed.

(** X11: the log file is only ever added to.  Whatever the environment
    does and however the run ends, a log file [main] finds at start-up is
    afterwards the same lines followed by rows of hits, and the loop, in
    whatever state the file is, leaves it with rows of hits appended and
    nothing else changed: one cell per column, the SKU in the third,
    ["available"] in the seventh. *)
Theorem X11_log_is_append_only :
  (forall lines envs,
      exists hits,
        csv_file (snd (main (Some lines) envs)) = Some (lines ++ hits)
        /\ Forall hit_line hits)
  /\ (forall envs w,
      exists hits,
        csv_file (snd (while_loop envs w)) = append_hits (csv_file w) hits
        /\ Forall hit_line hits).
Proof.
  assert (Hloop : forall envs w,
      exists hits,
        csv_file (snd (while_loop envs w)) = append_hits (csv_file w) hits
        /\ Forall hit_line hits).
  { intros envs w.
    apply (while_loop_invariant
             (fun x => exists hits,
                  csv_file x = append_hits (csv_file w) hits /\ Forall hit_line hits)).
    - intros env x (hits & Hx & Hh).
      destruct (iteration_effects env x)
        as (ps & posts & hits' & _ & _ & _ & _ & _ & _ & B7 & B8 & _).
      exists (hits ++ hits'). split; [|by apply Forall_app].
      rewrite B7. unfold file_lines. rewrite Hx.
      destruct hits, hits'; simpl; rewrite ?app_nil_r, <- ?app_assoc; done.
    - intros x H. exact H.
    - by exists []. }
  split; [|exact Hloop].
  intros lines envs. unfold main.
  destruct (startup_effects (initial_world (Some lines))) as (w0 & -> & _ & Hcsv & _).
  cbn in Hcsv.
  destruct (Hloop envs w0) as (hits & Hc & Hh). exists hits. split; [|exact Hh].
  cbn [snd]. rewrite Hc, Hcsv. destruct hits; simpl; by rewrite ?app_nil_r.
Qed.

(** ** The detector on lists with repeated or missing identifiers *)

(** After the loop over a list of records with hashable identifiers, the
    flag of a key is the availability of the last record filed under it. *)
Lemma process_records_flags env ts_utc ts_kr res rows w k :
  Forall (fun r => is_Some (record_key r)) res ->
  last_flags (run (process_records env ts_utc ts_kr rows res) w) !! k =
    match last (reports_of k res) with
    | Some r => Some (is_available r)
    | None => last_flags w !! k
    end.
Proof.
  intros Hall. revert rows w. induction Hall as [|r rest [k' Hk'] _ IH]; intros rows w.
  - reflexivity.
  - destruct (run_process_records_cons env ts_utc ts_kr rows r rest w k' Hk') as (rows' & ->).
    rewrite IH.
    pose proof (process_record_view env ts_utc ts_kr rows r w k) as Hv. simpl in Hv.
    rewrite Hk' in Hv. unfold reports_of. simpl. rewrite Hk'.
    fold (reports_of k rest).
    destruct (decide (k' = k)) as [->|Hne].
    + rewrite bool_decide_eq_true_2 by done. rewrite last_cons.
      destruct (last (reports_of k rest)); [done|]. by destruct Hv.
    + rewrite bool_decide_eq_false_2 by congruence.
      destruct (last (reports_of k rest)); [done|]. by destruct Hv.
Qed.

Lemma cycle_flags env res w k :
  fetches env res ->
  Forall (fun r => is_Some (record_key r)) res ->
  last_flags (run (cycle env) w) !! k =
    match last (reports_of k res) with
    | Some r => Some (is_available r)
    | None => last_flags w !! k
    end.
Proof.
  intros Hf Hk.
  destruct (cycle_keyed env res w Hf Hk) as (resp & w1 & w' & _ & E1 & Hc & Hfl & _).
  unfold run. rewrite Hc. simpl. rewrite Hfl.
  pose proof (process_records_flags env (now_utc env) (now_kr env) res []
                (detect_start env resp res w) k Hk) as H.
  unfold run in H. rewrite E1 in H. exact H.
Qed.

(** X12: after a cycle over a fetched list with repeated identifiers,
    the flag of a key is the availability reported by the last record
    filed under that key, so an earlier report for the same store is
    overridden; a key no record is filed under keeps its entry. *)
Theorem X12_last_report_decides_flag env res w k :
  fetches env res ->
  Forall (fun r => is_Some (record_key r)) res ->
  (forall r, last (reports_of k res) = Some r ->
             last_flags (run (cycle env) w) !! k = Some (is_available r)
             /\ r ∈ res /\ record_key r = Some k)
  /\ (last (reports_of k res) = None ->
      last_flags (run (cycle env) w) !! k = last_flags w !! k
      /\ forall r, r ∈ res -> record_key r <> Some k).
Proof.
  intros Hf Hk. pose proof (cycle_flags env res w k Hf Hk) as H.
  split.
  - intros r Hr. rewrite Hr in H. split; [exact H|].
    apply last_Some_elem_of in Hr. unfold reports_of in Hr.
    apply list_elem_of_In, filter_In in Hr as [Hin Hd].
    split; [by apply list_elem_of_In|]. by apply bool_decide_eq_true in Hd.
  - intros Hn. rewrite Hn in H. split; [exact H|].
    intros r Hin Hr. apply last_None in Hn.
    assert (r ∈ reports_of k res) as Hmem.
    { unfold reports_of. apply list_elem_of_In, filter_In.
      split; [by apply list_elem_of_In|]. by apply bool_decide_eq_true. }
    rewrite Hn in Hmem. by apply elem_of_nil in Hmem.
Qed.

(** X13: a store entry without number and without name is filed under
    the key [None].  All such stores share that one flag: when two of them
    are available in the same reply, only the first is notified. *)
Theorem X13_nameless_stores_share_a_flag env ts_utc ts_kr r1 r2 rows w :
  truthy (storeNumber r1) = false -> storeName r1 = PNone ->
  truthy (storeNumber r2) = false -> storeName r2 = PNone ->
  is_available r1 = true -> is_available r2 = true ->
  last_flags w !! KNone <> Some true ->
  record_key r1 = Some KNone /\ record_key r2 = Some KNone
  /\ pushes (run (process_records env ts_utc ts_kr rows [r1; r2]) w)
     = pushes w ++ [push_of ts_kr r1].
Proof.
  intros T1 N1 T2 N2 A1 A2 Hw.
  assert (K1 : hash_key (record_sid r1) = Ret KNone).
  { unfold record_sid, py_or. by rewrite T1, N1. }
  assert (K2 : hash_key (record_sid r2) = Ret KNone).
  { unfold record_sid, py_or. by rewrite T2, N2. }
  split; [by apply record_key_Some|]. split; [by apply record_key_Some|].
  destruct (process_record_keyed env ts_utc ts_kr rows r1 w KNone K1)
    as (w1 & E1 & Hf1 & Hp1 & _).
  destruct (process_record_keyed env ts_utc ts_kr
              (rows ++ (if is_available r1 then [mkRow ts_utc ts_kr (SKU cfg) r1] else []))
              r2 w1 KNone K2)
    as (w2 & E2 & Hf2 & Hp2 & _).
  unfold run. rewrite process_records_cons, E1. cbn beta iota.
  rewrite process_records_cons, E2. cbn [process_records mret M_ret snd].
  rewrite Hp2, Hp1, Hf1, lookup_insert_eq, A1, A2. simpl.
  destruct (last_flags w !! KNone) as [[|]|]; simpl; [done| |]; by rewrite app_nil_r.
Qed.

Lemma reports_of_last res k r :
  r ∈ res -> record_key r = Some k ->
  exists r', last (reports_of k res) = Some r' /\ r' ∈ res /\ record_key r' = Some k.
Proof.
  intros Hin Hr.
  assert (r ∈ reports_of k res) as Hmem.
  { unfold reports_of. apply list_elem_of_In, filter_In.
    split; [by apply list_elem_of_In|]. by apply bool_decide_eq_true. }
  destruct (last (reports_of k res)) as [r'|] eqn:L.
  - exists r'. split; [done|]. apply last_Some_elem_of in L. unfold reports_of in L.
    apply list_elem_of_In, filter_In in L as [Hin' Hd].
    split; [by apply list_elem_of_In|]. by apply bool_decide_eq_true in Hd.
  - apply last_None in L. rewrite L in Hmem. by apply elem_of_nil in Hmem.
Qed.

(** X14: while the reply stays the same, nothing is repeated.  If two
    cycles in a row fetch the same list, in which the records of one store
    agree on its availability, the second cycle triggers no notification,
    makes no POST and leaves every flag as the first cycle set it. *)
Theorem X14_unchanged_reply_is_silent env1 env2 res w :
  fetches env1 res -> fetches env2 res ->
  Forall (fun r => is_Some (record_key r)) res ->
  (forall r r', r ∈ res -> r' ∈ res -> record_key r = record_key r' ->
                is_available r = is_available r') ->
  let w1 := run (cycle env1) w in
  let w2 := run (cycle env2) w1 in
  pushes w2 = pushes w1 /\ http_posts w2 = http_posts w1 /\ last_flags w2 = last_flags w1.
Proof.
  intros Hf1 Hf2 Hk Hagree w1 w2.
  assert (Hset : forall r k, r ∈ res -> record_key r = Some k ->
                             last_flags w1 !! k = Some (is_available r)).
  { intros r k Hin Hr. unfold w1. rewrite (cycle_flags env1 res w k Hf1 Hk).
    destruct (reports_of_last res k r Hin Hr) as (r' & -> & Hin' & Hr').
    f_equal. apply Hagree; [done|done|congruence]. }
  destruct (cycle_keyed env2 res w1 Hf2 Hk) as (resp & x & w' & _ & E & Hc & Hfl & Hpu & Hpo & _).
  assert (w2 = w') as -> by (unfold w2, run; by rewrite Hc).
  rewrite Hfl, Hpu, Hpo.
  assert (x = run (process_records env2 (now_utc env2) (now_kr env2) [] res)
                  (detect_start env2 resp res w1)) as -> by (unfold run; by rewrite E).
  apply (process_records_invariant
           (fun y => pushes y = pushes w1 /\ http_posts y = http_posts w1
                     /\ last_flags y = last_flags w1)); [|done].
  intros r rows y Hin (Hy1 & Hy2 & Hy3).
  rewrite Forall_forall in Hk. destruct (Hk r Hin) as [k Hr].
  pose proof Hr as Hh. apply record_key_Some in Hh.
  destruct (process_record_keyed env2 (now_utc env2) (now_kr env2) rows r y k Hh)
    as (y' & Ey & Yf & Yp & _ & _ & _ & _ & (posts & Yposts & Ylen) & _).
  unfold run. rewrite Ey. simpl.
  assert (Hflag : last_flags y !! k = Some (is_available r)).
  { rewrite Hy3. by apply Hset. }
  rewrite Hflag in Yp. simpl in Yp.
  assert (pushes y' = pushes y) as Yp'.
  { rewrite Yp. destruct (is_available r); simpl; by rewrite app_nil_r. }
  rewrite Yp', Nat.sub_diag, Nat.mul_0_r in Ylen. apply nil_length_inv in Ylen. subst posts.
  rewrite app_nil_r in Yposts.
  split; [congruence|]. split; [congruence|].
  rewrite Yf, <- Hy3. by apply insert_id.
Qed.

Lemma process_records_pushes env ts_utc ts_kr res rows w :
  Forall (fun r => is_Some (record_key r)) res ->
  exists ps,
    pushes (run (process_records env ts_utc ts_kr rows res) w) = pushes w ++ ps
    /\ Forall (fun p => exists r, r ∈ res /\ is_available r = true /\ p = push_of ts_kr r) ps.
Proof.
  intros Hall. revert rows w. induction Hall as [|r rest [k Hk] _ IH]; intros rows w.
  - exists []. by rewrite app_nil_r.
  - destruct (run_process_records_cons env ts_utc ts_kr rows r rest w k Hk) as (rows' & ->).
    pose proof Hk as Hh. apply record_key_Some in Hh.
    destruct (process_record_keyed env ts_utc ts_kr rows r w k Hh) as (w1 & E & _ & Hp & _).
    assert (run (process_record env ts_utc ts_kr rows r) w = w1) as ->
      by (unfold run; by rewrite E).
    destruct (IH rows' w1) as (ps & Hps & Hall').
    rewrite Hps, Hp, <- app_assoc. eexists. split; [reflexivity|].
    apply Forall_app. split.
    + destruct (is_available r) eqn:A; [|constructor].
      destruct (negb _); simpl; [|constructor].
      constructor; [|constructor]. exists r. split; [left|done].
    + eapply Forall_impl; [exact Hall'|].
      intros p (r' & Hin & Ha & ->). exists r'. split; [by right|done].
Qed.

(** X15: in a cycle that runs to its end, every notification is for an
    available record of the fetched list, and the row of that record is in
    the log file when the cycle is over: no store is notified without
    being logged. *)
Theorem X15_every_notification_is_logged env res w :
  fetches env res ->
  Forall (fun r => is_Some (record_key r)) res ->
  let w' := run (cycle env) w in
  exists ps,
    pushes w' = pushes w ++ ps
    /\ Forall (fun p => exists r,
                  r ∈ res /\ is_available r = true /\ p = push_of (now_kr env) r
                  /\ csv_row_of (now_utc env) (now_kr env) r ∈ file_lines w') ps.
Proof.
  intros Hf Hk w'.
  destruct (cycle_keyed env res w Hf Hk) as (resp & x & y & _ & E & Hc & _ & Hpu & _ & _ & Hfile).
  assert (w' = y) as -> by (unfold w', run; by rewrite Hc).
  destruct (process_records_pushes env (now_utc env) (now_kr env) res []
              (detect_start env resp res w) Hk) as (ps & Hps & Hall).
  unfold run in Hps. rewrite E in Hps. simpl in Hps.
  exists ps. split; [by rewrite Hpu, Hps|].
  eapply Forall_impl; [exact Hall|].
  intros p (r & Hin & Ha & ->). exists r. repeat split; try done.
  rewrite Hfile. apply elem_of_app. right.
  apply list_elem_of_fmap. exists r. split; [done|].
  apply list_elem_of_In, filter_In. split; [by apply list_elem_of_In|done].
Qed.

(** X16: an iteration in which no fetched store is available (or the
    fetch fails) sends no request to Bark, triggers no notification and
    leaves the log file as it is. *)
Theorem X16_nothing_available_nothing_sent env w :
  (forall res, fetches env res -> Forall (fun r => is_available r = false) res) ->
  let w' := run (iteration env) w in
  http_posts w' = http_posts w /\ pushes w' = pushes w /\ csv_file w' = csv_file w.
Proof.
  intros Hquiet w'.
  destruct (iteration_effects env w)
    as (ps & posts & hits & _ & B2 & _ & B4 & B5 & _ & B7 & _ & B9 & _).
  destruct (B9 Hquiet) as [-> ->]. fold w' in B2, B4, B7.
  rewrite Nat.mul_0_r in B5. apply nil_length_inv in B5. subst posts.
  rewrite app_nil_r in B2, B4. done.
Qed.

(** ** The Bark helper *)

(** X17: a push answered with status 200 is taken as delivered, and
    nothing is printed, unless the body decodes to an object whose
    ["code"] is not OK: a body that is not JSON, or is JSON but not an
    object, is accepted. *)
Theorem X17_push_accepted_silently env title body url w endpoint r :
  bark_endpoint = Some endpoint ->
  let rq := mkPost endpoint (bark_payload title body url) in
  post_reply env (length (http_posts w)) rq = Ret r ->
  status_code r = 200%Z ->
  (forall kvs, json_body r = Ret (PDict kvs) ->
               code_ok (default PNone (dict_lookup kvs "code")) = true) ->
  bark_send env title body url w = (Ret tt, add_post rq w).
Proof.
  intros Hep rq Hr Hs Hcode.
  rewrite (bark_send_configured _ _ _ _ _ _ Hep). fold rq. rewrite Hr.
  unfold reply_lines. rewrite Hs. simpl negb. cbn match.
  destruct (json_body r) as [jr|e]; [|by rewrite add_lines_nil].
  destruct jr; simpl; try by rewrite add_lines_nil.
  rewrite (Hcode kvs eq_refl). simpl. by rewrite add_lines_nil.
Qed.

(** ** The whole run *)

(** X18: every GET of a run goes to the Apple API URL and every POST to
    the configured Bark endpoint, with the configured group and sound and
    the product page as link; there is exactly one POST per notification,
    so none is ever repeated, and without a Bark configuration no POST is
    made at all. *)
Theorem X18_requests_go_where_configured file envs :
  let w := snd (main file envs) in
  Forall (fun url => url = APPLE_API_URL) (http_gets w)
  /\ Forall well_addressed (http_posts w)
  /\ length (http_posts w) = posts_per_push * length (pushes w)
  /\ (bark_endpoint = None -> http_posts w = []).
Proof.
  intros w.
  assert (Forall (fun url => url = APPLE_API_URL) (http_gets w)
          /\ Forall well_addressed (http_posts w)
          /\ length (http_posts w) = posts_per_push * length (pushes w)) as (H1 & H2 & H3).
  { unfold w, main.
    destruct (startup_effects (initial_world file))
      as (w0 & -> & _ & _ & Hg & Hp & _ & _ & _ & Hpu).
    cbn in Hg, Hp, Hpu.
    apply while_loop_invariant.
    - intros env x (A1 & A2 & A3).
      destruct (iteration_effects env x)
        as (ps & posts & hits & B1 & B2 & B3 & B4 & B5 & _).
      rewrite B1, B2, B4. split; [|split].
      + apply Forall_app. split; [done|]. by constructor.
      + by apply Forall_app.
      + rewrite !length_app. lia.
    - intros x H. exact H.
    - rewrite Hg, Hp, Hpu. repeat split; [constructor|constructor|simpl; lia]. }
  repeat split; try done.
  intros Hnone. destruct (http_posts w) as [|p posts]; [done|].
  inversion H2 as [|? ? [Hp _] _]; subst. congruence.
Qed.

(** *** The log file is written, never read *)

Lemma world_eq w w' :
  console w = console w' -> http_gets w = http_gets w' -> http_posts w = http_posts w' ->
  csv_file w = csv_file w' -> last_flags w = last_flags w' -> stop_flag w = stop_flag w' ->
  sleeps w = sleeps w' -> pushes w = pushes w' -> w = w'.
Proof. destruct w, w'. simpl. by intros -> -> -> -> -> -> -> ->. Qed.

Lemma append_hits_app file hits hits' :
  append_hits (append_hits file hits) hits' = append_hits file (hits ++ hits').
Proof.
  destruct hits as [|h hits]; [done|].
  destruct hits' as [|h' hits']; simpl; [by rewrite app_nil_r|].
  by rewrite <- app_assoc.
Qed.

Lemma bark_send_set_csv env title body url f w :
  bark_send env title body url (set_csv f w) =
    (fst (bark_send env title body url w), set_csv f (run (bark_send env title body url) w)).
Proof.
  unfold run. destruct bark_endpoint as [ep|] eqn:E.
  - by rewrite !(bark_send_configured _ _ _ _ _ _ E).
  - by rewrite !(bark_send_unconfigured _ _ _ _ _ E).
Qed.

Lemma process_record_set_csv env ts_utc ts_kr rows r f w :
  process_record env ts_utc ts_kr rows r (set_csv f w) =
    (fst (process_record env ts_utc ts_kr rows r w),
     set_csv f (run (process_record env ts_utc ts_kr rows r) w)).
Proof.
  unfold run, process_record, flags_get, flags_set, notify. unfold_monad.
  destruct (hash_key (record_sid r)) as [k|e]; destruct (is_available r); cbn -[bark_send];
    try reflexivity.
  destruct (negb (default false (last_flags w !! k))); cbn -[bark_send]; [|reflexivity].
  change (add_push ?p (set_csv f w)) with (set_csv f (add_push p w)).
  rewrite bark_send_set_csv. unfold run.
  destruct (bark_send env (push_title r) (push_body ts_kr r) (Some PRODUCT_URL)
              (add_push (mkPush (record_sid r) (push_title r) (push_body ts_kr r)
                                (Some PRODUCT_URL)) w)) as [[[]|e] w1];
    reflexivity.
Qed.

Lemma process_records_set_csv env ts_utc ts_kr res rows f w :
  process_records env ts_utc ts_kr rows res (set_csv f w) =
    (fst (process_records env ts_utc ts_kr rows res w),
     set_csv f (run (process_records env ts_utc ts_kr rows res) w)).
Proof.
  revert rows w. induction res as [|r rest IH]; intros rows w; [reflexivity|].
  unfold run in *. rewrite !process_records_cons, process_record_set_csv. unfold run.
  destruct (process_record env ts_utc ts_kr rows r w) as [[rows'|e] w1]; simpl; [|reflexivity].
  apply IH.
Qed.

Lemma fetch_set_csv env f w :
  fetch_availability env (set_csv f w) =
    (fst (fetch_availability env w), set_csv f (run (fetch_availability env) w)).
Proof.
  unfold run, fetch_availability, session_get, raise_for_status, try_except, log, raise.
  unfold_monad.
  destruct (get_reply env) as [resp|e]; cbn -[APPLE_API_URL debug_line]; [|reflexivity].
  destruct ((400 <=? status_code resp)%Z && (status_code resp <? 500)%Z);
    cbn -[APPLE_API_URL debug_line]; [reflexivity|].
  destruct ((500 <=? status_code resp)%Z && (status_code resp <? 600)%Z);
    cbn -[APPLE_API_URL debug_line]; [reflexivity|].
  destruct (json_body resp) as [data|e]; cbn -[APPLE_API_URL debug_line].
  - destruct (parse_response data); reflexivity.
  - destruct (isinstance e JSONDecodeError); reflexivity.
Qed.

(** The [try] block does the same whatever the log file holds, and adds
    the same rows to it. *)
Lemma cycle_set_csv env f w :
  exists hits,
    cycle env (set_csv f w) = (fst (cycle env w), set_csv (append_hits f hits) (run (cycle env) w))
    /\ csv_file (run (cycle env) w) = append_hits (csv_file w) hits.
Proof.
  unfold run. rewrite !cycle_unfold, fetch_set_csv. unfold run.
  destruct (fetch_availability env w) as [[res|e] w1] eqn:Ef; cbn [fst snd].
  - assert (Hcsv : csv_file w1 = csv_file w).
    { destruct (fetch_cases env w) as [(resp & res' & _ & _ & E)|(e & lines & E)];
        rewrite E in Ef; inversion Ef; reflexivity. }
    change (add_console ?l (set_csv f w1)) with (set_csv f (add_console l w1)).
    set (x := add_console _ w1).
    assert (Hx : csv_file x = csv_file w) by exact Hcsv.
    clearbody x. unfold detect_and_log, mbind, M_bind.
    rewrite process_records_set_csv. unfold run.
    pose proof (process_records_effects env (now_utc env) (now_kr env) res [] x)
      as (ps & posts & (_ & Hc & _) & _).
    unfold run in Hc.
    destruct (process_records env (now_utc env) (now_kr env) [] res x) as [[rows|e] y];
      cbn [fst snd] in *.
    + exists (map (fun row => CsvRow (row_cells row)) rows).
      destruct rows as [|row rows]; cbn.
      * split; [reflexivity|congruence].
      * rewrite Hc, Hx. by split.
    + exists []. split; [reflexivity|]. simpl. congruence.
  - exists []. split; [reflexivity|]. simpl.
    destruct (fetch_cases env w) as [(resp & res' & _ & _ & E)|(e' & lines & E)];
      rewrite E in Ef; inversion Ef; reflexivity.
Qed.

Lemma iteration_set_csv env f w :
  exists hits,
    iteration env (set_csv f w) =
      (fst (iteration env w), set_csv (append_hits f hits) (run (iteration env) w))
    /\ csv_file (run (iteration env) w) = append_hits (csv_file w) hits.
Proof.
  destruct (cycle_set_csv env f w) as (hits & Ec & Hc). exists hits.
  assert (exists w2,
             try_except (cycle env) loop_handlers w = (Ret tt, w2)
             /\ try_except (cycle env) loop_handlers (set_csv f w) =
                  (Ret tt, set_csv (append_hits f hits) w2)
             /\ csv_file w2 = append_hits (csv_file w) hits) as (w2 & E1 & E2 & Hw2).
  { unfold run, try_except in *. rewrite Ec.
    destruct (cycle env w) as [[[]|e] w1]; cbn [fst snd] in *.
    - by exists w1.
    - unfold loop_handlers, find_clause.
      destruct (isinstance e HTTPError); [|destruct (isinstance e RequestException);
                                               [|rewrite isinstance_Exception]];
        unfold log, modify; eexists; (split; [reflexivity|]);
        (split; [reflexivity|exact Hc]). }
  unfold run, iteration. rewrite (iteration_of_eq _ _ _ _ E1), (iteration_of_eq _ _ _ _ E2).
  destruct (sleep_request env) as [d|e] eqn:D.
  - rewrite !(sleep_statement_ok _ _ _ D). unfold slept_world.
    destruct (signal_during_sleep env); cbn; by split.
  - rewrite !(sleep_statement_raises _ _ _ D). by split.
Qed.

Lemma while_loop_set_csv envs f w :
  exists hits,
    while_loop envs (set_csv f w) =
      (fst (while_loop envs w), set_csv (append_hits f hits) (snd (while_loop envs w)))
    /\ csv_file (snd (while_loop envs w)) = append_hits (csv_file w) hits.
Proof.
  revert f w. induction envs as [|env rest IH]; intros f w; cbn [while_loop].
  - change (stop_flag (set_csv f w)) with (stop_flag w).
    exists []. destruct (stop_flag w); by split.
  - change (stop_flag (set_csv f w)) with (stop_flag w).
    destruct (stop_flag w); [exists []; by split|].
    destruct (iteration_set_csv env f w) as (hits & -> & Hc). unfold run in *.
    destruct (iteration env w) as [[[]|e] w1]; cbn [fst snd] in *.
    + destruct (IH (append_hits f hits) w1) as (hits' & -> & Hc').
      exists (hits ++ hits'). by rewrite Hc', Hc, !append_hits_app.
    + exists hits. by split.
Qed.

(** X19: [main] never reads the log file.  Started on two different
    existing files, with the same environment, it ends in the same way,
    prints the same lines, makes the same requests, sets the same flags
    and appends the same rows; in particular what was logged before a
    restart has no influence on the notifications after it. *)
Theorem X19_log_file_is_never_read lines1 lines2 envs :
  let end1 := main (Some lines1) envs in
  let end2 := main (Some lines2) envs in
  fst end1 = fst end2
  /\ console (snd end1) = console (snd end2)
  /\ http_gets (snd end1) = http_gets (snd end2)
  /\ http_posts (snd end1) = http_posts (snd end2)
  /\ last_flags (snd end1) = last_flags (snd end2)
  /\ pushes (snd end1) = pushes (snd end2)
  /\ sleeps (snd end1) = sleeps (snd end2)
  /\ exists hits,
       csv_file (snd end1) = Some (lines1 ++ hits)
       /\ csv_file (snd end2) = Some (lines2 ++ hits).
Proof.
  intros end1 end2. unfold end1, end2, main.
  destruct (startup_effects (initial_world (Some lines1)))
    as (w1 & -> & A1 & A2 & A3 & A4 & A5 & A6 & A7 & A8).
  destruct (startup_effects (initial_world (Some lines2)))
    as (w2 & -> & B1 & B2 & B3 & B4 & B5 & B6 & B7 & B8).
  cbn in A1, A2, A3, A4, A5, A6, A7, A8, B1, B2, B3, B4, B5, B6, B7, B8.
  assert (w2 = set_csv (Some lines2) w1) as ->.
  { apply world_eq; cbn; congruence. }
  destruct (while_loop_set_csv envs (Some lines2) w1) as (hits & -> & Hc).
  cbn [fst snd]. repeat split; try reflexivity.
  exists hits. rewrite Hc, A2. destruct hits; cbn; [by rewrite !app_nil_r|done].
Qed.

(** X20: as long as the loop is running it has made exactly one GET and
    slept exactly once per iteration, and the stop flag is unset. *)
Theorem X20_one_get_and_one_sleep_per_iteration envs w w' :
  while_loop envs w = (Running, w') ->
  length (http_gets w') = length (http_gets w) + length envs
  /\ length (sleeps w') = length (sleeps w) + length envs
  /\ stop_flag w' = false.
Proof.
  revert w. induction envs as [|env rest IH]; intros w H; simpl in H.
  - destruct (stop_flag w) eqn:S; [discriminate|]. injection H as <-.
    simpl. by rewrite !Nat.add_0_r.
  - destruct (stop_flag w) eqn:S; [discriminate|].
    destruct (iteration_effects env w)
      as (ps & posts & hits & B1 & _ & _ & _ & _ & _ & _ & _ & _ & B10).
    unfold run in *.
    destruct (iteration env w) as [[[]|e] w1] eqn:Hit; [|discriminate]. simpl in *.
    destruct (sleep_request env) as [d|e1]; [|by destruct B10].
    destruct B10 as (_ & Hsl & _).
    destruct (IH w1 H) as (G & Sl & St).
    rewrite G, Sl, B1, Hsl, !length_app. simpl. repeat split; [lia|lia|done].
Qed.

(** X21: a termination signal during the sleep lets the iteration finish
    and then ends the loop: the handler's line and the exit line are the
    last two lines printed, and no later request is made. *)
Theorem X21_signal_ends_loop_after_iteration env rest w :
  stop_flag w = false -> signal_during_sleep env = true ->
  Qle_bool 0 (sleep_length env) = true ->
  exists w1,
    try_except (cycle env) loop_handlers w = (Ret tt, w1)
    /\ while_loop (env :: rest) w =
         (Exited, add_lines [INTERRUPT_LINE; EXIT_LINE]
                            (set_stop true (add_sleep (sleep_length env) w1))).
Proof.
  intros Hstop Hsig Hd.
  assert (exists w1, try_except (cycle env) loop_handlers w = (Ret tt, w1)) as (w1 & E).
  { destruct (guarded_cases (cycle env) w) as [[_ E]|(e0 & _ & E)]; eauto. }
  exists w1. split; [exact E|].
  simpl. rewrite Hstop. unfold iteration.
  rewrite (iteration_of_eq _ _ _ _ E), (sleep_statement_ok _ _ _ (sleep_length_accepted _ Hd)).
  unfold slept_world. rewrite Hsig.
  destruct rest; simpl; unfold add_lines, add_console; simpl; by rewrite <- app_assoc.
Qed.

(** X22: with poll bounds from 0 to a million seconds, the lower not
    above the upper, and a draw in the unit interval, [time.sleep] accepts
    the length line 264 asks for, that length lies between the two bounds,
    and the iteration ends normally after a sleep of that length. *)
Theorem X22_sleep_between_bounds env w :
  (0 <= POLL_INTERVAL_MIN cfg)%Z ->
  (POLL_INTERVAL_MIN cfg <= POLL_INTERVAL_MAX cfg)%Z ->
  (POLL_INTERVAL_MAX cfg <= 10 ^ 6)%Z ->
  (0 <= random_draw env)%Q -> (random_draw env <= 1)%Q ->
  exists d,
    sleep_request env = Ret d
    /\ (inject_Z (POLL_INTERVAL_MIN cfg) <= d)%Q
    /\ (d <= inject_Z (POLL_INTERVAL_MAX cfg))%Q
    /\ fst (iteration env w) = Ret tt
    /\ sleeps (run (iteration env) w) = sleeps w ++ [d].
Proof.
  intros Ha Hab Hb Hu0 Hu1.
  destruct (sleep_request_between env Ha Hab Hb Hu0 Hu1) as (d & Hr & Hd0 & Hd1).
  exists d. repeat split; try done;
    destruct (iteration_effects env w)
      as (ps & posts & hits & _ & _ & _ & _ & _ & _ & _ & _ & _ & B10);
    rewrite Hr in B10; by destruct B10 as (? & ? & _).
Qed.

(** X23: the loop never removes an entry of [last_flags]: a store that
    once had a flag keeps one for the rest of the run, whatever the later
    replies are. *)
Theorem X23_flags_are_never_dropped envs w k :
  is_Some (last_flags w !! k) ->
  is_Some (last_flags (snd (while_loop envs w)) !! k).
Proof.
  intros Hk.
  apply (while_loop_invariant (fun x => is_Some (last_flags x !! k))); [| |exact Hk].
  - intros env x Hx.
    destruct (iteration_effects env x) as (ps & posts & hits & _ & _ & _ & _ & _ & B6 & _).
    by apply B6.
  - intros x Hx. exact Hx.
Qed.
End Program.

(** ** Start-up and settings *)

(** X24: the banner does not show the device key: with a key set, the
    four lines [main] prints at start-up, and everything else start-up
    does, are the same whatever the key is; the line about Bark ends in
    [<hidden>]. *)
Theorem X24_startup_hides_device_key cfg key1 key2 w :
  nonempty key1 = true -> nonempty key2 = true ->
  startup (with_device_key cfg key1) w = startup (with_device_key cfg key2) w
  /\ console (run (startup (with_device_key cfg key1)) w) =
       console w ++ banner cfg ("Bark: using device key endpoint → "
                                +:+ BARK_SERVER_BASE cfg +:+ "/<hidden>").
Proof.
  intros H1 H2.
  destruct (startup_effects (with_device_key cfg key1) w) as (w1 & E1 & Hc1 & _).
  split.
  - unfold startup. cbn [BARK_DEVICE_KEY BARK_SERVER_BASE BARK_PUSH_ENDPOINT
                         POLL_INTERVAL_MIN POLL_INTERVAL_MAX with_device_key].
    rewrite H1, H2. reflexivity.
  - unfold run. rewrite E1. cbn [snd]. rewrite Hc1.
    unfold bark_mode_line. cbn [BARK_DEVICE_KEY BARK_SERVER_BASE with_device_key].
    rewrite H1. reflexivity.
Qed.

Lemma rstrip_slash_spec s :
  (exists n, s = rstrip_slash s +:+ slashes n) /\ ends_with_slash (rstrip_slash s) = false.
Proof.
  induction s as [|c rest [[n Hn] He]]; [split; [by exists 0|done]|].
  cbn [rstrip_slash]. destruct (rstrip_slash rest) as [|c' kept] eqn:R.
  - destruct (Ascii.eqb c "/") eqn:C.
    + apply Ascii.eqb_eq in C. subst c. split; [|done].
      exists (S n). rewrite Hn at 1. reflexivity.
    + split; [|simpl; exact C]. exists n. rewrite Hn at 1. reflexivity.
  - split.
    + exists n. rewrite Hn at 1. reflexivity.
    + exact He.
Qed.

Lemma rstrip_slashes n : rstrip_slash (slashes n) = EmptyString.
Proof. induction n as [|n IH]; [done|]. simpl. by rewrite IH. Qed.

(** X25: lines 73-74 drop the trailing slashes of the two Bark URLs, so
    the endpoint built from a device key has exactly the one slash the
    program puts before the key; and a [BARK_PUSH_ENDPOINT] that is unset,
    empty or made of slashes only counts as not configured. *)
Theorem X25_bark_urls_lose_trailing_slashes environ cfg :
  let cfg' := with_bark_urls environ cfg in
  let base := getenv environ "BARK_SERVER_BASE" "https://api.day.app" in
  let raw := getenv environ "BARK_PUSH_ENDPOINT" EmptyString in
  (exists n, base = BARK_SERVER_BASE cfg' +:+ slashes n)
  /\ ends_with_slash (BARK_SERVER_BASE cfg') = false
  /\ (exists n, raw = BARK_PUSH_ENDPOINT cfg' +:+ slashes n)
  /\ ends_with_slash (BARK_PUSH_ENDPOINT cfg') = false
  /\ (nonempty (BARK_DEVICE_KEY cfg) = true ->
      bark_endpoint cfg' = Some (BARK_SERVER_BASE cfg' +:+ "/" +:+ BARK_DEVICE_KEY cfg))
  /\ (nonempty (BARK_DEVICE_KEY cfg) = false -> (exists n, raw = slashes n) ->
      bark_endpoint cfg' = None).
Proof.
  intros cfg' base raw.
  destruct (rstrip_slash_spec base) as [Hb1 Hb2], (rstrip_slash_spec raw) as [Hr1 Hr2].
  split; [exact Hb1|]. split; [exact Hb2|]. split; [exact Hr1|]. split; [exact Hr2|].
  unfold bark_endpoint. cbn [BARK_DEVICE_KEY BARK_PUSH_ENDPOINT BARK_SERVER_BASE cfg' with_bark_urls].
  split.
  - intros ->. reflexivity.
  - intros -> [n Hn]. fold raw. by rewrite Hn, rstrip_slashes.
Qed.

(** ** Sample runs *)

Import Sample.

Example parse_two_stores :
  parse_response keyed_config (stores_json [hongdae_json "available"; garosugil_json])
  = Ret [hongdae "available"; garosugil].
Proof. reflexivity. Qed.

(** Hongdae turns up available and the push endpoint refuses the connection. *)
Example refused_push_run :
  let w := run (iteration keyed_config repr (reports "available")) started in
  console w =
    [debug_line keyed_config (ok_response PNone);
     "[2025-09-19 10:00:00 KST] Hongdae:available";
     "[WARN] Bark push exception: Connection refused"]
  /\ map post_endpoint (http_posts w) = ["https://api.day.app/devicekey"]
  /\ file_lines w = file_lines started ++
       [CsvRow [PStr "2025-09-19 01:00:00 UTC"; PStr "2025-09-19 10:00:00 KST";
                PStr "MFYQ4KH/A"; PStr "Hongdae"; PStr "R764"; PStr "Seoul";
                PStr "available"; PStr "Today"]]
  /\ last_flags w !! KStr "R764" = Some true
  /\ sleeps w = [25 # 2].
Proof. vm_compute. repeat split. Qed.

(** The service answers 503: one warning, no row, no push, then the sleep. *)
Example service_unavailable_run :
  let w := run (iteration keyed_config repr (env_with (Ret unavailable_response) (Raise refused)))
               started in
  warnings (console w) =
    ["[WARN] HTTP error: 503 Server Error: Service Unavailable for url: "
     +:+ "https://www.apple.com/kr/shop/retail/pickup-message"]
  /\ file_lines w = file_lines started
  /\ http_posts w = []
  /\ sleeps w = [25 # 2].
Proof. vm_compute. repeat split. Qed.

(** A store whose number is a JSON array cannot be a key of [last_flags]:
    the loop over the records raises [TypeError], which the main loop
    reports as an unknown exception; nothing is pushed or logged. *)
Example unhashable_store_number_run :
  let env := env_with (Ret (ok_response (stores_json [odd_json]))) (Raise refused) in
  let w := run (iteration keyed_config repr env) started in
  (exists res, fetches keyed_config env res /\ Forall (fun r => is_available r = true) res)
  /\ warnings (console w) = ["[WARN] Unknown exception: unhashable type: 'list'"]
  /\ pushes w = []
  /\ last_flags w = ∅
  /\ file_lines w = file_lines started.
Proof.
  split.
  - eexists. split; [eexists _, _; repeat split; reflexivity|].
    repeat constructor.
  - vm_compute. repeat split.
Qed.

(** Two stores newly available in one answer: two pushes and two rows, in
    the order of the answer. *)
Example two_stores_run :
  let other := PDict [("storeNumber", PStr "R692"); ("storeName", PStr "Garosugil");
                      ("partsAvailability",
                       PDict [("MFYQ4KH/A", PDict [("pickupDisplay", PStr "available")])])] in
  let env := env_with (Ret (ok_response (stores_json [hongdae_json "available"; other])))
                      (Ret (mkResponse 200 "OK" "https://api.day.app/devicekey" "ok"
                                       (Ret (PDict [("code", PInt 200)])))) in
  let w := run (iteration keyed_config repr env) started in
  map push_for (pushes w) = [PStr "R764"; PStr "R692"]
  /\ length (http_posts w) = 2
  /\ length (file_lines w) = 3
  /\ warnings (console w) = [].
Proof. vm_compute. repeat split. Qed.

(** A termination signal during the first sleep: the loop is left before
    the second environment is consulted. *)
Example interrupt_run :
  fst (main keyed_config repr None [interrupted "available"; unreachable]) = Exited.
Proof. vm_compute. reflexivity. Qed.

(** Negative poll bounds: [time.sleep] raises outside the [try]. *)
Example negative_bounds_run :
  fst (main negative_config repr None [reports "available"]) = Crashed sleep_error.
Proof. vm_compute. reflexivity. Qed.

(** Line 264 at several poll bounds, with a draw of 0.5: the default
    bounds; bounds whose nanoseconds do not fit the timestamp; a bound
    that is not a float and is rounded to one; a bound too large for a
    float; a sleep of 116 days, which is the platform's to accept. *)
Example sleep_requests :
  sleep_request keyed_config unreachable = Ret (25 # 2)
  /\ sleep_request negative_config unreachable = Raise sleep_error
  /\ sleep_request (polling (10 ^ 10) (10 ^ 10)) unreachable = Raise sleep_overflow
  /\ sleep_request (polling (- 10 ^ 10) (- 10 ^ 10)) unreachable = Raise sleep_overflow
  /\ sleep_argument (polling (2 ^ 53 + 1) (2 ^ 53 + 1)) unreachable
     = Ret (Finite (inject_Z (2 ^ 53)))
  /\ sleep_request (polling (10 ^ 400) (10 ^ 400)) unreachable
     = Raise (mkExn OverflowError "int too large to convert to float")
  /\ sleep_request (polling (10 ^ 7) (10 ^ 7)) unreachable = Ret (inject_Z (10 ^ 7))
  /\ sleep_request (polling (10 ^ 7) (10 ^ 7)) refuses_long_sleeps
     = Raise (mkExn OSError "[Errno 22] Invalid argument").
Proof. vm_compute. repeat split. Qed.

(** Bounds of ten thousand million seconds: the fetch fails and is
    reported, then [time.sleep] raises [OverflowError] outside the [try]. *)
Example overflowing_bounds_run :
  fst (main (polling (10 ^ 10) (10 ^ 10)) repr None [unreachable; unreachable])
  = Crashed sleep_overflow.
Proof. vm_compute. reflexivity. Qed.

(** ** The theorems at concrete inputs *)

Lemma sample_fetch (display : string) :
  fetches keyed_config (reports display) [hongdae display].
Proof. eexists _, _. repeat split; reflexivity. Defined.

Lemma C1_witness :
  process_records keyed_config repr (reports "available")
      "2025-09-19 01:00:00 UTC" "2025-09-19 10:00:00 KST" [] [] (initial_world None)
    = (Ret [], initial_world None)
  /\ record_key (hongdae "available") = Some (KStr "R764")
  /\ exists rows2 w2,
       process_record keyed_config repr (reports "available")
           "2025-09-19 01:00:00 UTC" "2025-09-19 10:00:00 KST" []
           (hongdae "available") (initial_world None) = (Ret rows2, w2)
       /\ process_records keyed_config repr (reports "available")
           "2025-09-19 01:00:00 UTC" "2025-09-19 10:00:00 KST" []
           ([] ++ hongdae "available" :: []) (initial_world None)
          = process_records keyed_config repr (reports "available")
              "2025-09-19 01:00:00 UTC" "2025-09-19 10:00:00 KST" rows2 [] w2
       /\ (is_available (hongdae "available") = true
           <-> pickupDisplay (hongdae "available") = PStr "available")
       /\ (pushes w2 = pushes (initial_world None)
                        ++ [push_of repr "2025-09-19 10:00:00 KST" (hongdae "available")]
           <-> pickupDisplay (hongdae "available") = PStr "available"
               /\ last_flags (initial_world None) !! KStr "R764" <> Some true)
       /\ (pushes w2 = pushes (initial_world None)
                        ++ [push_of repr "2025-09-19 10:00:00 KST" (hongdae "available")]
           \/ pushes w2 = pushes (initial_world None))
       /\ last_flags w2 = <[KStr "R764" := is_available (hongdae "available")]>
                            (last_flags (initial_world None)).
Proof.
  split; [reflexivity|]. split; [reflexivity|].
  apply (C1_push_iff_newly_available keyed_config repr (reports "available")
           "2025-09-19 01:00:00 UTC" "2025-09-19 10:00:00 KST"
           [] (hongdae "available") [] (initial_world None) [] (initial_world None)
           (KStr "R764")); reflexivity.
Defined.

Lemma C2_witness :
  let w0 := initial_world None in
  let w1 := run (cycle keyed_config repr (reports "unavailable")) w0 in
  let w2 := run (cycle keyed_config repr (reports "available")) w1 in
  let w3 := run (cycle keyed_config repr (reports "available")) w2 in
  let w4 := run (cycle keyed_config repr (reports "unavailable")) w3 in
  let w5 := run (cycle keyed_config repr (reports "available")) w4 in
  (last_flags w0 = ∅
   /\ is_available (hongdae "unavailable") = false
   /\ is_available (hongdae "available") = true)
  /\ (cycle keyed_config repr (reports "unavailable") w0 = (Ret tt, w1)
      /\ cycle keyed_config repr (reports "available") w1 = (Ret tt, w2)
      /\ cycle keyed_config repr (reports "available") w2 = (Ret tt, w3)
      /\ cycle keyed_config repr (reports "unavailable") w3 = (Ret tt, w4)
      /\ cycle keyed_config repr (reports "available") w4 = (Ret tt, w5))
  /\ (pushes w1 = pushes w0
      /\ pushes w2 = pushes w1 ++ [push_of repr "2025-09-19 10:00:00 KST" (hongdae "available")]
      /\ pushes w3 = pushes w2
      /\ pushes w4 = pushes w3
      /\ pushes w5 = pushes w4 ++ [push_of repr "2025-09-19 10:00:00 KST" (hongdae "available")])
  /\ (file_lines w1 = file_lines w0
      /\ file_lines w2 = file_lines w1 ++
           [csv_row_of keyed_config "2025-09-19 01:00:00 UTC" "2025-09-19 10:00:00 KST"
                       (hongdae "available")]
      /\ file_lines w3 = file_lines w2 ++
           [csv_row_of keyed_config "2025-09-19 01:00:00 UTC" "2025-09-19 10:00:00 KST"
                       (hongdae "available")]
      /\ file_lines w4 = file_lines w3
      /\ file_lines w5 = file_lines w4 ++
           [csv_row_of keyed_config "2025-09-19 01:00:00 UTC" "2025-09-19 10:00:00 KST"
                       (hongdae "available")]).
Proof.
  intros w0 w1 w2 w3 w4 w5.
  split; [repeat split; reflexivity|].
  apply (C2_five_cycle_scenario keyed_config repr
           (reports "unavailable") (reports "available") (reports "available")
           (reports "unavailable") (reports "available")
           (hongdae "unavailable") (hongdae "available") (hongdae "available")
           (hongdae "unavailable") (hongdae "available") (KStr "R764") w0);
    try reflexivity; apply sample_fetch.
Defined.

Lemma C3_witness :
  let w := initial_world None in
  let w1 := add_get (APPLE_API_URL keyed_config) w in
  let line := warn_line (categorize refused) refused in
  let w2 := slept_world unreachable (25 # 2) (add_console line w1) in
  let w3 := snd (while_loop keyed_config repr [interrupted "available"] w) in
  let w4 := snd (while_loop negative_config repr [reports "available"] w) in
  (cycle keyed_config repr unreachable w = (Raise refused, w1)
   /\ try_except (cycle keyed_config repr unreachable) loop_handlers w
      = (Ret tt, add_console line w1))
  /\ (stop_flag w = false
      /\ sleep_request keyed_config unreachable = Ret (25 # 2)
      /\ iteration keyed_config repr unreachable w = (Ret tt, w2)
      /\ console w2 = console w1 ++ line ::
                        (if signal_during_sleep unreachable
                         then [INTERRUPT_LINE] else [])
      /\ sleeps w2 = sleeps w1 ++ [25 # 2]
      /\ while_loop keyed_config repr [unreachable] w = while_loop keyed_config repr [] w2)
  /\ (while_loop keyed_config repr [interrupted "available"] w = (Exited, w3)
      /\ stop_flag w3 = true
      /\ exists env, env ∈ [interrupted "available"] /\ signal_during_sleep env = true)
  /\ (while_loop negative_config repr [reports "available"] w = (Crashed sleep_error, w4)
      /\ exists env, env ∈ [reports "available"]
                     /\ sleep_request negative_config env = Raise sleep_error)
  /\ ((0 <= POLL_INTERVAL_MIN keyed_config)%Z
      /\ (POLL_INTERVAL_MIN keyed_config <= POLL_INTERVAL_MAX keyed_config)%Z
      /\ (POLL_INTERVAL_MAX keyed_config <= 10 ^ 6)%Z
      /\ Forall (fun env => (0 <= random_draw env)%Q /\ (random_draw env <= 1)%Q)
                [reports "available"])
  /\ Forall (fun env => exists d, sleep_request keyed_config env = Ret d
                                  /\ (inject_Z 10 <= d)%Q /\ (d <= inject_Z 15)%Q)
            [reports "available"]
  /\ while_loop keyed_config repr [reports "available"] w <> (Crashed sleep_error, w).
Proof.
  intros w w1 line w2 w3 w4.
  pose proof (C3_loop_survives_exceptions keyed_config repr) as (H1 & _ & H2 & H3 & _ & H5).
  pose proof (C3_loop_survives_exceptions negative_config repr) as (_ & _ & _ & _ & H4 & _).
  assert (Hdraws : Forall (fun env => (0 <= random_draw env)%Q /\ (random_draw env <= 1)%Q)
                          [reports "available"])
    by (repeat constructor; vm_compute; discriminate).
  assert (Ha : (0 <= POLL_INTERVAL_MIN keyed_config)%Z) by (vm_compute; discriminate).
  assert (Hab : (POLL_INTERVAL_MIN keyed_config <= POLL_INTERVAL_MAX keyed_config)%Z)
    by (vm_compute; discriminate).
  assert (Hb : (POLL_INTERVAL_MAX keyed_config <= 10 ^ 6)%Z) by (vm_compute; discriminate).
  split; [split; [reflexivity|apply H1; reflexivity]|].
  split.
  { split; [reflexivity|]. split; [vm_compute; reflexivity|].
    apply (H2 unreachable [] w refused w1 (25 # 2)); [reflexivity|reflexivity|].
    vm_compute. reflexivity. }
  split.
  { split; [vm_compute; reflexivity|].
    apply (H3 [interrupted "available"] w w3); vm_compute; reflexivity. }
  split.
  { split; [vm_compute; reflexivity|].
    apply (H4 [reports "available"] w sleep_error w4). vm_compute; reflexivity. }
  split; [by repeat split|].
  destruct (H5 [reports "available"] w Ha Hab Hb Hdraws) as [Hall Hnever].
  split; [exact Hall|apply Hnever].
Defined.

(** With poll bounds of -5 and -1 an exception of the fetch is caught and
    logged, but the loop does not go on: [time.sleep] raises [ValueError]
    outside the [try], no sleep takes place, the second iteration is never
    run, and [main] ends by that exception with the stop flag unset. *)
Lemma C3_counterexample :
  let w := initial_world None in
  let w1 := add_get (APPLE_API_URL negative_config) w in
  let line := warn_line (categorize refused) refused in
  let end_ := while_loop negative_config repr [unreachable; unreachable] w in
  cycle negative_config repr unreachable w = (Raise refused, w1)
  /\ try_except (cycle negative_config repr unreachable) loop_handlers w
     = (Ret tt, add_console line w1)
  /\ iteration negative_config repr unreachable w = (Raise sleep_error, add_console line w1)
  /\ fst end_ = Crashed sleep_error
  /\ stop_flag (snd end_) = false
  /\ sleeps (snd end_) = []
  /\ http_gets (snd end_) = [APPLE_API_URL negative_config]
  /\ fst (main negative_config repr None [unreachable; unreachable]) = Crashed sleep_error
  /\ stop_flag (snd (main negative_config repr None [unreachable; unreachable])) = false.
Proof. vm_compute. repeat split. Qed.

Lemma C4_witness :
  let env := reports "available" in
  let w := initial_world None in
  let endpoint := "https://api.day.app/devicekey" in
  let w' := run (cycle keyed_config repr env) w in
  (bark_endpoint keyed_config = Some endpoint
   /\ push_failed (post_reply env 0 (mkPost endpoint
                     (bark_payload keyed_config "title" "body" None))) = true)
  /\ (exists line,
        bark_send keyed_config repr env "title" "body" None w =
          (Ret tt, add_console line
                     (add_post (mkPost endpoint (bark_payload keyed_config "title" "body" None)) w))
        /\ is_warning line = true)
  /\ (cycle keyed_config repr env w = (Ret tt, w')
      /\ file_lines w' = file_lines w ++
           map (csv_row_of keyed_config (now_utc env) (now_kr env))
               (List.filter is_available [hongdae "available"])
      /\ (forall r, r ∈ [hongdae "available"] -> is_available r = true ->
                    csv_row_of keyed_config (now_utc env) (now_kr env) r ∈ file_lines w')
      /\ length (http_posts w') - length (http_posts w) =
         length (pushes w') - length (pushes w))
  /\ (same_but_posts env (delivers "available")
      /\ fst (cycle keyed_config repr env w) = fst (cycle keyed_config repr (delivers "available") w)
      /\ same_but_output w' (run (cycle keyed_config repr (delivers "available")) w)).
Proof.
  intros env w endpoint w'.
  split; [split; reflexivity|].
  destruct (C4_push_failure_is_contained keyed_config repr env endpoint) as (H1 & H2 & H3);
    [reflexivity|intros n rq; reflexivity|].
  split; [apply H1|]. split.
  - apply H2; [apply sample_fetch|].
    repeat constructor. by exists (KStr "R764").
  - assert (Hsame : same_but_posts env (delivers "available")) by (repeat split).
    split; [exact Hsame|]. apply (H3 (delivers "available") w Hsame).
Defined.

Lemma C5_witness :
  let env := reports "available" in
  let w := initial_world None in
  let w' := run (cycle keyed_config repr env) w in
  (last_flags w = ∅ /\ record_key (hongdae "available") = Some (KStr "R764")
   /\ is_available (hongdae "available") = true)
  /\ cycle keyed_config repr env w = (Ret tt, w')
  /\ exists r, r ∈ [hongdae "available"] /\ record_key r = Some (KStr "R764")
               /\ pushes_for (KStr "R764") w' =
                  pushes_for (KStr "R764") w ++ [push_of repr (now_kr env) r].
Proof.
  intros env w w'.
  split; [repeat split; reflexivity|].
  apply (C5_cold_start_notifies_once keyed_config repr env [hongdae "available"] (KStr "R764") w).
  - reflexivity.
  - apply sample_fetch.
  - repeat constructor. by exists (KStr "R764").
  - exists (hongdae "available"). split; [left|reflexivity].
  - intros r Hin _. apply list_elem_of_singleton in Hin. subst r. reflexivity.
Defined.

Lemma C6_witness :
  lacks_sku_entry keyed_config garosugil_json
  /\ (exists r,
        parse_store keyed_config garosugil_json = Ret r
        /\ pickupDisplay r = PNone /\ quote r = PStr EmptyString
        /\ is_available r = false)
  /\ (exists res,
        parse_response keyed_config (stores_json [garosugil_json]) = Ret res
        /\ length res = length [garosugil_json]
        /\ Forall (fun r => pickupDisplay r = PNone /\ quote r = PStr EmptyString) res).
Proof.
  assert (H : lacks_sku_entry keyed_config garosugil_json).
  { eexists. split; [reflexivity|]. left. left. reflexivity. }
  destruct (C6_missing_availability_parses keyed_config) as [H1 H2].
  split; [exact H|]. split; [apply H1, H|].
  apply (H2 (stores_json [garosugil_json])
            (PDict [("stores", PList [garosugil_json])]) [garosugil_json]).
  - reflexivity.
  - reflexivity.
  - repeat constructor. exact H.
Defined.

Lemma C7_witness :
  let logged := initial_world (Some [CsvHeader LOG_COLUMNS;
                                     csv_row_of keyed_config "utc" "kst" (hongdae "available")]) in
  let fresh := initial_world None in
  let row := mkRow "utc" "kst" "MFYQ4KH/A" (hongdae "available") in
  (csv_file logged <> None /\ run ensure_log logged = logged)
  /\ (csv_file fresh = None
      /\ run ensure_log fresh = set_csv (Some [CsvHeader LOG_COLUMNS]) fresh
      /\ ensure_log (run ensure_log fresh) = (Ret tt, run ensure_log fresh)
      /\ Nat.iter 3 (run ensure_log) (run ensure_log fresh) = run ensure_log fresh
      /\ run ensure_log (run (append_log [row]) (run ensure_log fresh))
         = run (append_log [row]) (run ensure_log fresh)
      /\ file_lines (run (append_log [row]) (run ensure_log fresh))
         = file_lines (run ensure_log fresh) ++ map (fun r => CsvRow (row_cells r)) [row]).
Proof.
  intros logged fresh row.
  destruct (C7_ensure_log_idempotent logged 3) as (_ & _ & _ & Hkeep & _).
  destruct (C7_ensure_log_idempotent fresh 3) as (_ & Hagain & Hiter & _ & Hnew & _ & Hrows).
  split.
  - split; [discriminate|]. apply (Hkeep _ eq_refl).
  - split; [reflexivity|]. split; [apply Hnew; reflexivity|]. split; [exact Hagain|].
    split; [exact Hiter|]. apply (Hrows [row]).
Defined.

Lemma C8_witness :
  let env := reports "available" in
  let w := initial_world None in
  (BARK_DEVICE_KEY keyed_config <> EmptyString
   /\ http_posts (run (bark_send keyed_config repr env "title" "body" None) w) =
      http_posts w ++ [mkPost "https://api.day.app/devicekey"
                              (bark_payload keyed_config "title" "body" None)])
  /\ (BARK_DEVICE_KEY endpoint_config = EmptyString
      /\ BARK_PUSH_ENDPOINT endpoint_config <> EmptyString
      /\ http_posts (run (bark_send endpoint_config repr env "title" "body" None) w) =
         http_posts w ++ [mkPost "https://push.example.org/abc"
                                 (bark_payload endpoint_config "title" "body" None)])
  /\ (BARK_DEVICE_KEY default_config = EmptyString
      /\ BARK_PUSH_ENDPOINT default_config = EmptyString
      /\ bark_send default_config repr env "title" "body" None w =
         (Ret tt, add_console INFO_NOT_CONFIGURED w)
      /\ http_posts (run (bark_send default_config repr env "title" "body" None) w) = http_posts w
      /\ console (run (bark_send default_config repr env "title" "body" None) w) =
         console w ++ [INFO_NOT_CONFIGURED]).
Proof.
  intros env w.
  destruct (C8_endpoint_precedence keyed_config repr env "title" "body" None w) as (H1 & _ & _).
  destruct (C8_endpoint_precedence endpoint_config repr env "title" "body" None w) as (_ & H2 & _).
  destruct (C8_endpoint_precedence default_config repr env "title" "body" None w) as (_ & _ & H3).
  split; [split; [discriminate|apply H1; discriminate]|].
  split; [split; [reflexivity|split; [discriminate|apply H2; [reflexivity|discriminate]]]|].
  split; [reflexivity|]. split; [reflexivity|]. apply H3; reflexivity.
Defined.

Lemma C9_witness :
  let w := initial_world None in
  let guarded env := try_except (cycle keyed_config repr env) loop_handlers in
  let busy := env_with (Ret unavailable_response) (Raise refused) in
  let garbled := env_with (Ret garbled_response) (Raise refused) in
  (get_reply unreachable = Raise refused
   /\ exists lines,
        console (run (guarded unreachable) w) = console w ++ lines
        /\ lines = [warn_line (categorize refused) refused]
        /\ length (warnings lines) = 1)
  /\ (status_ok unavailable_response = false
      /\ exists lines msg,
           console (run (guarded busy) w) = console w ++ lines
           /\ lines = [debug_line keyed_config unavailable_response;
                       warn_line HttpError (mkExn HTTPError msg)]
           /\ length (warnings lines) = 1)
  /\ (status_ok garbled_response = true
      /\ exists lines,
           console (run (guarded garbled) w) = console w ++ lines
           /\ lines = debug_line keyed_config garbled_response ::
                      (if isinstance (mkExn RequestsJSONDecodeError "Expecting value") JSONDecodeError
                       then [json_error_line garbled_response] else [])
                      ++ [warn_line (categorize (mkExn RequestsJSONDecodeError "Expecting value"))
                                    (mkExn RequestsJSONDecodeError "Expecting value")]
           /\ length (warnings lines) = 1)
  /\ (push_failed (Raise refused) = true
      /\ exists line,
           console (run (bark_send keyed_config repr unreachable "title" "body" None) w) =
             console w ++ [line]
           /\ length (warnings [line]) = 1).
Proof.
  intros w guarded busy garbled.
  destruct (C9_one_warning_per_error keyed_config repr unreachable w) as (H1 & _ & _ & H4).
  destruct (C9_one_warning_per_error keyed_config repr busy w) as (_ & H2 & _).
  destruct (C9_one_warning_per_error keyed_config repr garbled w) as (_ & _ & H3 & _).
  split; [split; [reflexivity|apply H1; reflexivity]|].
  split; [split; [reflexivity|apply H2; reflexivity]|].
  split; [split; [reflexivity|apply H3; reflexivity]|].
  split; [reflexivity|].
  apply (H4 "https://api.day.app/devicekey"); reflexivity.
Defined.

Lemma sample_fetch_other res :
  fetches keyed_config reports_other res -> res = [garosugil].
Proof.
  intros H.
  pose proof (fetches_inv keyed_config reports_other _ _ res eq_refl eq_refl H) as E.
  vm_compute in E. injection E as <-. reflexivity.
Defined.

Lemma sample_fetch_only display res :
  fetches keyed_config (reports display) res -> res = [hongdae display].
Proof.
  intros H.
  pose proof (fetches_inv keyed_config (reports display) _ _ res eq_refl eq_refl H) as E.
  cbv in E. injection E as <-. reflexivity.
Defined.

Lemma C10_witness :
  let k := KStr "R764" in
  let w := seen_available in
  let w2 := run (iteration keyed_config repr reports_other) w in
  let w3 := run (iteration keyed_config repr (reports "available")) w2 in
  ((truthy (storeNumber (hongdae "available")) = true
    /\ record_sid (hongdae "available") = storeNumber (hongdae "available"))
   /\ (storeNumber (mkRecord PNone (PStr "Hongdae") PNone PNone PNone) = PNone
       /\ record_sid (mkRecord PNone (PStr "Hongdae") PNone PNone PNone) = PStr "Hongdae"))
  /\ last_flags w !! k = Some true
  /\ last_flags w2 !! k = last_flags w !! k
  /\ last_flags w2 !! k = Some true
  /\ pushes_for k w2 = pushes_for k w
  /\ pushes_for k w3 = pushes_for k w
  /\ last_flags w3 !! k = Some true.
Proof.
  intros k w w2 w3.
  destruct C10_absent_store_keeps_flag with (cfg := keyed_config) (repr_value := repr)
    as (H1 & H2 & H3).
  assert (Hother : forall res r, fetches keyed_config reports_other res -> r ∈ res ->
                                 record_key r <> Some k).
  { intros res r Hf Hin. apply sample_fetch_other in Hf. subst res.
    apply list_elem_of_singleton in Hin. subst r. discriminate. }
  assert (Hback : forall res r, fetches keyed_config (reports "available") res -> r ∈ res ->
                                record_key r = Some k -> is_available r = true).
  { intros res r Hf Hin _. apply sample_fetch_only in Hf. subst res.
    apply list_elem_of_singleton in Hin. subst r. reflexivity. }
  split.
  { split.
    - split; [reflexivity|]. apply (H1 (hongdae "available")). reflexivity.
    - split; [reflexivity|].
      apply (H1 (mkRecord PNone (PStr "Hongdae") PNone PNone PNone)). reflexivity. }
  split; [reflexivity|].
  split; [apply (H2 reports_other w k Hother)|].
  apply (H3 reports_other (reports "available") w k); [reflexivity|exact Hother|exact Hback].
Defined.

(** ** The further properties at concrete inputs *)

Lemma X1_witness :
  parse_stores keyed_config [hongdae_json "available"; garosugil_json]
    = Ret [hongdae "available"; garosugil]
  /\ Forall2 (fun s r => parse_store keyed_config s = Ret r)
              [hongdae_json "available"; garosugil_json] [hongdae "available"; garosugil].
Proof.
  split; [reflexivity|].
  apply (proj1 (X1_parse_stores_aligned keyed_config
                  [hongdae_json "available"; garosugil_json]
                  [hongdae "available"; garosugil])).
  reflexivity.
Defined.

Lemma X2_witness :
  let stores := [garosugil_json] ++ PStr "R764" :: [hongdae_json "available"] in
  (Forall (fun s => exists r, parse_store keyed_config s = Ret r) [garosugil_json]
   /\ parse_store keyed_config (PStr "R764") = Raise (no_attribute (PStr "R764") "get"))
  /\ parse_stores keyed_config stores = Raise (no_attribute (PStr "R764") "get").
Proof.
  intros stores.
  assert (Hpre : Forall (fun s => exists r, parse_store keyed_config s = Ret r) [garosugil_json]).
  { repeat constructor. by exists garosugil. }
  split; [split; [exact Hpre|reflexivity]|].
  apply (proj2 (X2_parse_stores_first_error keyed_config stores
                  (no_attribute (PStr "R764") "get"))).
  exists [garosugil_json], (PStr "R764"), [hongdae_json "available"].
  split; [reflexivity|]. split; [exact Hpre|reflexivity].
Defined.

Lemma X3_witness :
  parse_response keyed_config null_body_json = Raise (no_attribute PNone "get")
  /\ (exn_cls (no_attribute PNone "get") = AttributeError
      \/ exn_cls (no_attribute PNone "get") = TypeError)
  /\ categorize (no_attribute PNone "get") = UnknownException.
Proof.
  split; [reflexivity|].
  apply (X3_parse_errors_are_unknown keyed_config null_body_json). reflexivity.
Defined.

Lemma X4_witness :
  parse_store keyed_config (hongdae_json "available") = Ret (hongdae "available")
  /\ (truthy (quote (hongdae "available")) = true
      \/ quote (hongdae "available") = PStr EmptyString).
Proof.
  split; [reflexivity|].
  apply (X4_quote_never_null keyed_config (hongdae_json "available")). reflexivity.
Defined.

Lemma X5_witness :
  let parts := [("MFYQ4KH/A", PDict quoted_availability)] in
  let plain := [("pickupDisplay", PStr "available"); ("pickupSearchQuote", PStr "Today")] in
  (dict_lookup quoted_fields "partsAvailability" = Some (PDict parts)
   /\ dict_lookup parts (SKU keyed_config) = Some (PDict quoted_availability)
   /\ missing_or_null (dict_lookup plain "messageTypes"))
  /\ (exists r,
        parse_store keyed_config (PDict quoted_fields) = Ret r
        /\ pickupDisplay r = PStr "available"
        /\ quote r = PStr "Pick up today at Hongdae")
  /\ (exists r,
        parse_store keyed_config (hongdae_json "available") = Ret r
        /\ pickupDisplay r = PStr "available"
        /\ quote r = PStr "Today").
Proof.
  intros parts plain.
  assert (Hm : missing_or_null (dict_lookup plain "messageTypes")) by (left; reflexivity).
  split; [split; [reflexivity|split; [reflexivity|exact Hm]]|].
  pose proof (X5_quote_precedence keyed_config quoted_fields parts quoted_availability
                eq_refl eq_refl) as H.
  cbv zeta in H. destruct H as (H1 & _ & _).
  pose proof (X5_quote_precedence keyed_config
                [("storeNumber", PStr "R764"); ("storeName", PStr "Hongdae");
                 ("city", PStr "Seoul");
                 ("partsAvailability", PDict [("MFYQ4KH/A", PDict plain)])]
                [("MFYQ4KH/A", PDict plain)] plain eq_refl eq_refl) as H'.
  cbv zeta in H'. destruct H' as (_ & H2 & _).
  split.
  - apply (H1 [("regular", PDict [("storePickupQuote", PStr "Pick up today at Hongdae")])]
              [("storePickupQuote", PStr "Pick up today at Hongdae")]
              (PStr "Pick up today at Hongdae")); reflexivity.
  - apply (H2 (PStr "Today") Hm); reflexivity.
Defined.

Lemma X6_witness :
  let resp := ok_response (PDict []) in
  let env := env_with (Ret resp) (Raise refused) in
  let w := initial_world None in
  (get_reply env = Ret resp /\ status_ok resp = true
   /\ json_body resp = Ret (PDict []) /\ dict_lookup [] "body" = None)
  /\ parse_response keyed_config (PDict []) = Ret []
  /\ cycle keyed_config repr env w =
       (Ret tt, add_lines [debug_line keyed_config resp; "[" +:+ now_kr env +:+ "] "]
                          (add_get (APPLE_API_URL keyed_config) w)).
Proof.
  intros resp env w. split; [repeat split; reflexivity|].
  apply (X6_reply_without_stores keyed_config repr env resp [] w); try reflexivity.
  left. reflexivity.
Defined.

Lemma X7_witness :
  let resp := ok_response null_body_json in
  let env := env_with (Ret resp) (Raise refused) in
  let w := initial_world None in
  (get_reply env = Ret resp /\ status_ok resp = true
   /\ json_body resp = Ret (PDict [("body", PNone)])
   /\ dict_lookup [("body", PNone)] "body" = Some PNone)
  /\ parse_response keyed_config (PDict [("body", PNone)]) = Raise (no_attribute PNone "get")
  /\ try_except (cycle keyed_config repr env) loop_handlers w =
       (Ret tt, add_lines [debug_line keyed_config resp;
                           "[WARN] Unknown exception: 'NoneType' object has no attribute 'get'"]
                          (add_get (APPLE_API_URL keyed_config) w)).
Proof.
  intros resp env w. split; [repeat split; reflexivity|].
  apply (X7_body_not_an_object keyed_config repr env resp [("body", PNone)] PNone w);
    try reflexivity.
  intros kvs. discriminate.
Defined.

Lemma X8_witness :
  let w := started in
  let w' := add_get (APPLE_API_URL keyed_config) w in
  cycle keyed_config repr unreachable w = (Raise refused, w')
  /\ csv_file w' = csv_file w
  /\ csv_file (run (iteration keyed_config repr unreachable) w) = csv_file w.
Proof.
  intros w w'.
  assert (H : cycle keyed_config repr unreachable w = (Raise refused, w')) by reflexivity.
  split; [exact H|].
  apply (X8_failed_cycle_writes_nothing keyed_config repr unreachable w refused w' H).
Defined.

Lemma sample_fetch_odd :
  fetches keyed_config reports_odd ([hongdae "available"] ++ odd :: []).
Proof. eexists _, _. repeat split; reflexivity. Defined.

Lemma X9_witness :
  let env := reports_odd in
  let w := started in
  (fetches keyed_config env ([hongdae "available"] ++ odd :: [])
   /\ Forall (fun r => is_Some (record_key r)) [hongdae "available"]
   /\ record_key odd = None)
  /\ exists resp e w1,
       get_reply env = Ret resp
       /\ hash_key (record_sid odd) = Raise e /\ exn_cls e = TypeError
       /\ process_records keyed_config repr env (now_utc env) (now_kr env) []
            [hongdae "available"]
            (detect_start keyed_config repr env resp ([hongdae "available"] ++ odd :: []) w)
          = (Ret (available_rows keyed_config (now_utc env) (now_kr env)
                    [hongdae "available"]), w1)
       /\ cycle keyed_config repr env w = (Raise e, w1)
       /\ csv_file w1 = csv_file w.
Proof.
  intros env w.
  assert (Hk : Forall (fun r => is_Some (record_key r)) [hongdae "available"]).
  { repeat constructor. by exists (KStr "R764"). }
  split; [split; [exact sample_fetch_odd|split; [exact Hk|reflexivity]]|].
  apply (X9_unhashable_identifier_aborts_cycle keyed_config repr env
           [hongdae "available"] odd [] w sample_fetch_odd Hk eq_refl).
Defined.

Lemma X10_witness :
  let env := reports "available" in
  let w := initial_world None in
  (csv_file w = None
   /\ fetches keyed_config env [hongdae "available"]
   /\ Forall (fun r => is_Some (record_key r)) [hongdae "available"])
  /\ csv_file (run (cycle keyed_config repr env) w) =
       Some [csv_row_of keyed_config (now_utc env) (now_kr env) (hongdae "available")].
Proof.
  intros env w.
  assert (Hk : Forall (fun r => is_Some (record_key r)) [hongdae "available"]).
  { repeat constructor. by exists (KStr "R764"). }
  split; [split; [reflexivity|split; [apply sample_fetch|exact Hk]]|].
  apply (X10_missing_log_recreated_without_header keyed_config repr env
           [hongdae "available"] w eq_refl (sample_fetch "available") Hk).
Defined.

Lemma X11_witness :
  exists hits,
    csv_file (snd (main keyed_config repr (Some [CsvHeader LOG_COLUMNS])
                        [reports "available"; unreachable]))
      = Some ([CsvHeader LOG_COLUMNS] ++ hits)
    /\ Forall (hit_line keyed_config) hits.
Proof.
  apply (proj1 (X11_log_is_append_only keyed_config repr)
               [CsvHeader LOG_COLUMNS] [reports "available"; unreachable]).
Defined.

Lemma sample_fetch_twice :
  fetches keyed_config
    (env_with (Ret (ok_response (stores_json [hongdae_json "available";
                                              hongdae_json "unavailable"])))
              (Raise refused))
    [hongdae "available"; hongdae "unavailable"].
Proof. eexists _, _. repeat split; reflexivity. Defined.

Lemma X12_witness :
  let env := env_with (Ret (ok_response (stores_json [hongdae_json "available";
                                                      hongdae_json "unavailable"])))
                      (Raise refused) in
  let res := [hongdae "available"; hongdae "unavailable"] in
  let w := initial_world None in
  (fetches keyed_config env res
   /\ Forall (fun r => is_Some (record_key r)) res
   /\ last (reports_of (KStr "R764") res) = Some (hongdae "unavailable"))
  /\ last_flags (run (cycle keyed_config repr env) w) !! KStr "R764" = Some false.
Proof.
  intros env res w.
  assert (Hk : Forall (fun r => is_Some (record_key r)) res).
  { repeat constructor; by exists (KStr "R764"). }
  split; [split; [exact sample_fetch_twice|split; [exact Hk|reflexivity]]|].
  destruct (X12_last_report_decides_flag keyed_config repr env res w (KStr "R764")
              sample_fetch_twice Hk) as [H _].
  apply (H (hongdae "unavailable") eq_refl).
Defined.

Lemma X13_witness :
  let env := reports "available" in
  let r1 := nameless "Seoul" in
  let r2 := nameless "Busan" in
  let w := initial_world None in
  (truthy (storeNumber r1) = false /\ storeName r1 = PNone
   /\ truthy (storeNumber r2) = false /\ storeName r2 = PNone
   /\ is_available r1 = true /\ is_available r2 = true
   /\ last_flags w !! KNone <> Some true)
  /\ record_key r1 = Some KNone /\ record_key r2 = Some KNone
  /\ pushes (run (process_records keyed_config repr env (now_utc env) (now_kr env) []
                    [r1; r2]) w)
     = pushes w ++ [push_of repr (now_kr env) r1].
Proof.
  intros env r1 r2 w.
  split; [repeat split; try reflexivity; discriminate|].
  apply (X13_nameless_stores_share_a_flag keyed_config repr env (now_utc env) (now_kr env)
           r1 r2 [] w); try reflexivity.
  discriminate.
Defined.

Lemma X14_witness :
  let env := reports "available" in
  let res := [hongdae "available"] in
  let w := initial_world None in
  let w1 := run (cycle keyed_config repr env) w in
  let w2 := run (cycle keyed_config repr env) w1 in
  (fetches keyed_config env res /\ Forall (fun r => is_Some (record_key r)) res)
  /\ pushes w1 = [push_of repr (now_kr env) (hongdae "available")]
  /\ pushes w2 = pushes w1 /\ http_posts w2 = http_posts w1 /\ last_flags w2 = last_flags w1.
Proof.
  intros env res w w1 w2.
  assert (Hk : Forall (fun r => is_Some (record_key r)) res).
  { repeat constructor. by exists (KStr "R764"). }
  split; [split; [apply sample_fetch|exact Hk]|]. split; [reflexivity|].
  apply (X14_unchanged_reply_is_silent keyed_config repr env env res w
           (sample_fetch "available") (sample_fetch "available") Hk).
  intros r r' H1 H2 _. apply list_elem_of_singleton in H1, H2. subst r r'. reflexivity.
Defined.

Lemma X15_witness :
  let env := reports "available" in
  let res := [hongdae "available"] in
  let w := started in
  let w' := run (cycle keyed_config repr env) w in
  (fetches keyed_config env res /\ Forall (fun r => is_Some (record_key r)) res)
  /\ exists ps,
       pushes w' = pushes w ++ ps
       /\ Forall (fun p => exists r,
                     r ∈ res /\ is_available r = true /\ p = push_of repr (now_kr env) r
                     /\ csv_row_of keyed_config (now_utc env) (now_kr env) r ∈ file_lines w') ps.
Proof.
  intros env res w w'.
  assert (Hk : Forall (fun r => is_Some (record_key r)) res).
  { repeat constructor. by exists (KStr "R764"). }
  split; [split; [apply sample_fetch|exact Hk]|].
  apply (X15_every_notification_is_logged keyed_config repr env res w
           (sample_fetch "available") Hk).
Defined.

Lemma X16_witness :
  let env := reports "unavailable" in
  let w := seen_available in
  let w' := run (iteration keyed_config repr env) w in
  fetches keyed_config env [hongdae "unavailable"]
  /\ is_available (hongdae "unavailable") = false
  /\ http_posts w' = http_posts w /\ pushes w' = pushes w /\ csv_file w' = csv_file w.
Proof.
  intros env w w'. split; [apply sample_fetch|]. split; [reflexivity|].
  apply (X16_nothing_available_nothing_sent keyed_config repr env w).
  intros res Hf. apply sample_fetch_only in Hf. subst res. repeat constructor.
Defined.

Lemma X17_witness :
  let env := delivers "available" in
  let w := initial_world None in
  let endpoint := "https://api.day.app/devicekey" in
  let rq := mkPost endpoint (bark_payload keyed_config "title" "body" None) in
  (bark_endpoint keyed_config = Some endpoint
   /\ post_reply env (length (http_posts w)) rq = Ret delivered
   /\ status_code delivered = 200%Z
   /\ json_body delivered = Ret (PDict [("code", PInt 200)])
   /\ code_ok (PInt 200) = true)
  /\ bark_send keyed_config repr env "title" "body" None w = (Ret tt, add_post rq w).
Proof.
  intros env w endpoint rq. split; [repeat split; reflexivity|].
  apply (X17_push_accepted_silently keyed_config repr env "title" "body" None w endpoint
           delivered); try reflexivity.
  intros kvs H. injection H as <-. reflexivity.
Defined.

Lemma X18_witness :
  let w := snd (main keyed_config repr None [reports "available"; reports "available"]) in
  let w0 := snd (main default_config repr None [reports "available"]) in
  (Forall (fun url => url = APPLE_API_URL keyed_config) (http_gets w)
   /\ Forall (well_addressed keyed_config) (http_posts w)
   /\ length (http_posts w) = posts_per_push keyed_config * length (pushes w))
  /\ (bark_endpoint default_config = None /\ http_posts w0 = []).
Proof.
  intros w w0.
  destruct (X18_requests_go_where_configured keyed_config repr None
              [reports "available"; reports "available"]) as (H1 & H2 & H3 & _).
  destruct (X18_requests_go_where_configured default_config repr None
              [reports "available"]) as (_ & _ & _ & H4).
  split; [by repeat split|]. split; [reflexivity|]. apply H4. reflexivity.
Defined.

Lemma X19_witness :
  let old := [CsvHeader LOG_COLUMNS;
              csv_row_of keyed_config "utc" "kst" (hongdae "available")] in
  let envs := [reports "available"; unreachable; interrupted "available"] in
  let end1 := main keyed_config repr (Some [CsvHeader LOG_COLUMNS]) envs in
  let end2 := main keyed_config repr (Some old) envs in
  fst end1 = fst end2
  /\ console (snd end1) = console (snd end2)
  /\ http_posts (snd end1) = http_posts (snd end2)
  /\ last_flags (snd end1) = last_flags (snd end2)
  /\ pushes (snd end1) = pushes (snd end2)
  /\ exists hits,
       csv_file (snd end1) = Some ([CsvHeader LOG_COLUMNS] ++ hits)
       /\ csv_file (snd end2) = Some (old ++ hits).
Proof.
  intros old envs end1 end2.
  destruct (X19_log_file_is_never_read keyed_config repr [CsvHeader LOG_COLUMNS] old envs)
    as (H1 & H2 & _ & H4 & H5 & H6 & _ & H8).
  by repeat split.
Defined.

Lemma X20_witness :
  let envs := [reports "available"; unreachable] in
  let w := started in
  let w' := snd (while_loop keyed_config repr envs w) in
  while_loop keyed_config repr envs w = (Running, w')
  /\ length (http_gets w') = length (http_gets w) + length envs
  /\ length (sleeps w') = length (sleeps w) + length envs
  /\ stop_flag w' = false.
Proof.
  intros envs w w'.
  assert (H : while_loop keyed_config repr envs w = (Running, w'))
    by (vm_compute; reflexivity).
  split; [exact H|].
  apply (X20_one_get_and_one_sleep_per_iteration keyed_config repr envs w w' H).
Defined.

Lemma X21_witness :
  let env := interrupted "available" in
  let w := started in
  (stop_flag w = false /\ signal_during_sleep env = true
   /\ Qle_bool 0 (sleep_length keyed_config env) = true)
  /\ exists w1,
       try_except (cycle keyed_config repr env) loop_handlers w = (Ret tt, w1)
       /\ while_loop keyed_config repr [env; unreachable] w =
            (Exited, add_lines [INTERRUPT_LINE; EXIT_LINE keyed_config]
                               (set_stop true (add_sleep (sleep_length keyed_config env) w1))).
Proof.
  intros env w. split; [repeat split; reflexivity|].
  apply (X21_signal_ends_loop_after_iteration keyed_config repr env [unreachable] w);
    reflexivity.
Defined.

Lemma X22_witness :
  let env := reports "available" in
  let w := started in
  ((0 <= POLL_INTERVAL_MIN keyed_config)%Z
   /\ (POLL_INTERVAL_MIN keyed_config <= POLL_INTERVAL_MAX keyed_config)%Z
   /\ (POLL_INTERVAL_MAX keyed_config <= 10 ^ 6)%Z
   /\ (0 <= random_draw env)%Q /\ (random_draw env <= 1)%Q)
  /\ exists d,
       sleep_request keyed_config env = Ret d
       /\ (inject_Z 10 <= d)%Q /\ (d <= inject_Z 15)%Q
       /\ fst (iteration keyed_config repr env w) = Ret tt
       /\ sleeps (run (iteration keyed_config repr env) w) = sleeps w ++ [d].
Proof.
  intros env w.
  assert (Ha : (0 <= POLL_INTERVAL_MIN keyed_config)%Z) by (vm_compute; discriminate).
  assert (Hab : (POLL_INTERVAL_MIN keyed_config <= POLL_INTERVAL_MAX keyed_config)%Z)
    by (vm_compute; discriminate).
  assert (Hb : (POLL_INTERVAL_MAX keyed_config <= 10 ^ 6)%Z) by (vm_compute; discriminate).
  assert (H0 : (0 <= random_draw env)%Q) by (vm_compute; discriminate).
  assert (H1 : (random_draw env <= 1)%Q) by (vm_compute; discriminate).
  split; [by repeat split|].
  apply (X22_sleep_between_bounds keyed_config repr env w Ha Hab Hb H0 H1).
Defined.

Lemma X23_witness :
  let w := seen_available in
  let k := KStr "R764" in
  is_Some (last_flags w !! k)
  /\ is_Some (last_flags (snd (while_loop keyed_config repr [reports_other; unreachable] w)) !! k).
Proof.
  intros w k.
  assert (H : is_Some (last_flags w !! k)) by (by exists true).
  split; [exact H|].
  apply (X23_flags_are_never_dropped keyed_config repr [reports_other; unreachable] w k H).
Defined.

Lemma X24_witness :
  let w := initial_world None in
  (nonempty "abc" = true /\ nonempty "xyz" = true)
  /\ startup (with_device_key default_config "abc") w
     = startup (with_device_key default_config "xyz") w
  /\ console (run (startup (with_device_key default_config "abc")) w) =
       console w ++ banner default_config ("Bark: using device key endpoint → "
                                           +:+ BARK_SERVER_BASE default_config +:+ "/<hidden>").
Proof.
  intros w. split; [split; reflexivity|].
  apply (X24_startup_hides_device_key default_config "abc" "xyz" w); reflexivity.
Defined.

Lemma X25_witness :
  let cfg' := with_bark_urls environ keyed_config in
  (getenv environ "BARK_SERVER_BASE" "https://api.day.app" = "https://bark.example.org//"
   /\ getenv environ "BARK_PUSH_ENDPOINT" EmptyString = slashes 0
   /\ nonempty (BARK_DEVICE_KEY keyed_config) = true
   /\ nonempty (BARK_DEVICE_KEY default_config) = false)
  /\ BARK_SERVER_BASE cfg' = "https://bark.example.org"
  /\ ends_with_slash (BARK_SERVER_BASE cfg') = false
  /\ bark_endpoint cfg' = Some "https://bark.example.org/devicekey"
  /\ bark_endpoint (with_bark_urls environ default_config) = None.
Proof.
  intros cfg'.
  destruct (X25_bark_urls_lose_trailing_slashes environ keyed_config)
    as (_ & H2 & _ & _ & H5 & _).
  destruct (X25_bark_urls_lose_trailing_slashes environ default_config)
    as (_ & _ & _ & _ & _ & H6).
  split; [repeat split; reflexivity|]. split; [reflexivity|]. split; [exact H2|].
  split; [apply H5; reflexivity|]. apply H6; [reflexivity|]. by exists 0.
Defined.
